(** * CardioKinetic Monte Carlo engine: a shallow embedding

    The development follows [monte_carlo_simulation.py].  Python floats and
    NumPy [float64] values are IEEE-754 binary64 numbers, embedded through
    the executable specification of [SpecFloat] (precision 53, maximal
    exponent 1024).  Python integers are [Z].  Exceptions are an explicit
    result type.  The C library functions [exp] and [pow], which the
    program reaches through NumPy and which are not part of the repository,
    are parameters of the definitions that use them. *)

From Stdlib Require Import ZArith List String Ascii Bool Lia Sorted.
From Stdlib Require Import Floats.SpecFloat.
From stdpp Require Import gmap strings list pretty.
From stdpp Require Import sorting.

Open Scope Z_scope.

(** ** Python outcomes *)

Inductive exn := ValueError | OverflowError | IndexError.

Inductive result (A : Type) :=
| Ok (a : A)
| Raise (e : exn).
Arguments Ok {A} a.
Arguments Raise {A} e.

Definition rbind {A B} (r : result A) (k : A -> result B) : result B :=
  match r with
  | Ok a => k a
  | Raise e => Raise e
  end.

Definition rmap {A B} (f : A -> B) (r : result A) : result B :=
  rbind r (fun a => Ok (f a)).

(** ** IEEE-754 binary64 *)

Module F64.

Definition prec : Z := 53.
Definition emax : Z := 1024.

Definition float := spec_float.

Definition add : float -> float -> float := SFadd prec emax.
Definition sub : float -> float -> float := SFsub prec emax.
Definition mul : float -> float -> float := SFmul prec emax.
Definition div : float -> float -> float := SFdiv prec emax.
Definition sqrt : float -> float := SFsqrt prec emax.
Definition neg : float -> float := SFopp.

Definition is_nan (x : float) : bool :=
  match x with S754_nan => true | _ => false end.

Definition is_finite (x : float) : bool :=
  match x with S754_zero _ | S754_finite _ _ _ => true | _ => false end.

Definition is_zero (x : float) : bool :=
  match x with S754_zero _ => true | _ => false end.

(** Comparisons; each one is false as soon as an operand is NaN. *)
Definition ltb (x y : float) : bool := SFltb x y.
Definition leb (x y : float) : bool := SFleb x y.
Definition gtb (x y : float) : bool := SFltb y x.
Definition geb (x y : float) : bool := SFleb y x.
Definition eqb (x y : float) : bool := SFeqb x y.

(** The correctly rounded quotient of two positive integers: this is how a
    decimal literal or a decimal string becomes a binary64 number. *)
Definition of_ratio (s : bool) (n d : positive) : float :=
  let '(q, e, l) := SFdiv_core_binary prec emax (Zpos n) 0 (Zpos d) 0 in
  binary_round_aux prec emax s q e l.

(** Integer to float, rounding to nearest, ties to even. *)
Definition of_Z (z : Z) : float := binary_normalize prec emax z 0 false.

(** Python's [float(int)] and the implicit conversion in [float * int]. *)
Definition of_int (z : Z) : result float :=
  match of_Z z with
  | S754_infinity _ => Raise OverflowError
  | f => Ok f
  end.

(** The integer nearest to [m * 2^e], ties to even. *)
Definition round_half_even (m : positive) (e : Z) : Z :=
  match e with
  | Zneg p =>
      let d := 2 ^ Zpos p in
      let q := Zpos m / d in
      let r := Zpos m mod d in
      match 2 * r ?= d with
      | Lt => q
      | Gt => q + 1
      | Eq => if Z.even q then q else q + 1
      end
  | _ => Zpos m * 2 ^ e
  end.

(** Python's one-argument [round] on a float. *)
Definition py_round (x : float) : result Z :=
  match x with
  | S754_nan => Raise ValueError
  | S754_infinity _ => Raise OverflowError
  | S754_zero _ => Ok 0
  | S754_finite s m e => Ok (cond_Zopp s (round_half_even m e))
  end.

(** [numpy.round] on a [float64]: the nearest integral float, ties to even,
    keeping the sign of the argument when the result is zero. *)
Definition np_round (x : float) : float :=
  match x with
  | S754_finite s m e =>
      if 0 <=? e then x
      else match round_half_even m e with
           | Z0 => S754_zero s
           | z => of_Z (cond_Zopp s z)
           end
  | _ => x
  end.

(** The ufunc [numpy.maximum]: NaN in either operand comes out. *)
Definition np_maximum (a b : float) : float :=
  if geb a b || is_nan a then a else b.

(** [numpy.clip] on floats, [min(max(x, lo), hi)] with a NaN [x] kept. *)
Definition np_clip (x lo hi : float) : float :=
  let t := if is_nan x then x else if gtb x lo then x else lo in
  if is_nan t then t else if ltb t hi then t else hi.

(** Python's built-in [min(a, b)] and [max(a, b)]: the first argument is
    kept unless the second compares strictly smaller (resp. larger). *)
Definition py_min (a b : float) : float := if ltb b a then b else a.
Definition py_max (a b : float) : float := if gtb b a then b else a.

(** The integer a float denotes, when it denotes one. *)
Definition to_Z (x : float) : option Z :=
  match x with
  | S754_zero _ => Some 0
  | S754_finite s m (Zneg p) =>
      if Zpos m mod 2 ^ Zpos p =? 0
      then Some (cond_Zopp s (Zpos m / 2 ^ Zpos p)) else None
  | S754_finite s m e => Some (cond_Zopp s (Zpos m * 2 ^ e))
  | _ => None
  end.

(** Decimal literals of the program. *)
Definition nan : float := S754_nan.
Definition zero : float := S754_zero false.
Definition lit (n d : positive) : float := of_ratio false n d.

(** The bit patterns of four literals: 0.001, 0.25, 4.0 and 100.0. *)
Definition milli : float := S754_finite false 4611686018427388 (-62).
Definition quarter : float := S754_finite false 4503599627370496 (-54).
Definition four : float := S754_finite false 4503599627370496 (-50).
Definition hundred : float := S754_finite false 7036874417766400 (-46).

End F64.

(** ** The C library *)

(** A model of [exp] by the Taylor polynomial of degree [taylor_terms], evaluated
    exactly on the rational value of the argument and rounded once;
    [exp x] for a negative [x] is [1 / exp (-x)]. *)
Module Libm.

Definition taylor_terms : nat := 40.

(** Horner evaluation of [1 + x/1 (1 + x/2 (1 + ... ))] for [x = p/q],
    as a fraction of two positive integers. *)
Fixpoint taylor_horner (p q : positive) (k : nat) (acc : positive * positive)
  : positive * positive :=
  match k with
  | O => acc
  | S k' =>
      let '(a, b) := acc in
      let kb := (q * Pos.of_nat k * b)%positive in
      taylor_horner p q k' ((kb + p * a)%positive, kb)
  end.

Definition exp_ref (x : F64.float) : F64.float :=
  match x with
  | S754_nan => S754_nan
  | S754_infinity false => S754_infinity false
  | S754_infinity true => S754_zero false
  | S754_zero _ => F64.lit 1 1
  | S754_finite s m e =>
      let '(p, q) := match e with
                     | Zneg k => (m, Pos.shiftl 1 (Npos k))
                     | Zpos k => (Pos.shiftl m (Npos k), 1%positive)
                     | Z0 => (m, 1%positive)
                     end in
      let '(a, b) := taylor_horner p q taylor_terms (1%positive, 1%positive) in
      if s then F64.of_ratio false b a else F64.of_ratio false a b
  end.

(** A model of [pow x y] for a finite [y], which is a dyadic rational
    [k / 2^j]: take [j] square roots of [x], then the [k]-th power by
    repeated multiplication; a negative [y] inverts the result. *)
Fixpoint strip_twos (m : positive) (e : Z) : positive * Z :=
  match m with
  | xO m' => if e <? 0 then strip_twos m' (e + 1) else (m, e)
  | _ => (m, e)
  end.

Definition pow_ref (x y : F64.float) : F64.float :=
  match y with
  | S754_zero _ => F64.lit 1 1
  | S754_finite s m e =>
      let '(k, e') := strip_twos m e in
      let root := match e' with
                  | Zneg j => Pos.iter F64.sqrt x j
                  | _ => x
                  end in
      let k' := match e' with
                | Zpos j => Pos.shiftl k (Npos j)
                | _ => k
                end in
      let r := Pos.iter_op F64.mul k' root in
      if s then F64.div (F64.lit 1 1) r else r
  | _ => S754_nan
  end.

End Libm.

(** ** Constants *)

Definition ATL_DAYS : Z := 7.
Definition CTL_DAYS : Z := 42.
Definition ATL_ALPHA : F64.float := F64.div (F64.lit 2 1) (F64.of_Z (ATL_DAYS + 1)).
Definition CTL_ALPHA : F64.float := F64.div (F64.lit 2 1) (F64.of_Z (CTL_DAYS + 1)).
Definition ATL_DECAY : F64.float := F64.sub (F64.lit 1 1) ATL_ALPHA.
Definition CTL_DECAY : F64.float := F64.sub (F64.lit 1 1) CTL_ALPHA.

Definition FATIGUE_MIDPOINT : F64.float := F64.lit 115 100.
Definition FATIGUE_STEEPNESS : F64.float := F64.lit 45 10.
Definition READINESS_OPTIMAL_TSB : F64.float := F64.lit 20 1.
Definition READINESS_WIDTH : F64.float := F64.lit 1250 1.

Definition DEFAULT_SESSION_DURATION : Z := 15.

(** ** Vectorized calculations

    Each function is given on one element; NumPy applies it elementwise,
    which [elementwise2] does on two arrays of equal length. *)

Definition elementwise2 {A B C} (f : A -> B -> C) (a : list A) (b : list B) : list C :=
  zip_with f a b.

Section Calculations.

Variable fexp : F64.float -> F64.float.
Variable fpow : F64.float -> F64.float -> F64.float.

Definition vectorized_session_load (rpe duration power_ratio : F64.float) : F64.float :=
  let clamped_ratio := F64.np_clip power_ratio (F64.lit 25 100) (F64.lit 4 1) in
  F64.mul
    (F64.mul
       (F64.mul (fpow rpe (F64.lit 15 10)) (fpow duration (F64.lit 75 100)))
       (fpow clamped_ratio (F64.lit 5 10)))
    (F64.lit 3 10).

(** The loop of [vectorized_ewma]: [current] is the running state. *)
Fixpoint ewma_loop (decay alpha current : F64.float) (daily_loads : list F64.float)
  : list F64.float :=
  match daily_loads with
  | [] => []
  | load :: rest =>
      let current' := F64.add (F64.mul current decay) (F64.mul load alpha) in
      current' :: ewma_loop decay alpha current' rest
  end.

Definition vectorized_ewma (daily_loads : list F64.float) (alpha initial : F64.float)
  : list F64.float :=
  let decay := F64.sub (F64.lit 1 1) alpha in
  ewma_loop decay alpha initial daily_loads.

Definition vectorized_fatigue_score (atl ctl : F64.float) : F64.float :=
  let ctl_safe := F64.np_maximum ctl (F64.lit 1 1000) in
  let acwr := F64.div atl ctl_safe in
  let score :=
    F64.div (F64.lit 100 1)
      (F64.add (F64.lit 1 1)
         (fexp (F64.mul (F64.neg FATIGUE_STEEPNESS) (F64.sub acwr FATIGUE_MIDPOINT)))) in
  F64.np_clip (F64.np_round score) F64.zero (F64.lit 100 1).

Definition vectorized_readiness_score (tsb : F64.float) : F64.float :=
  let exponent :=
    F64.div (F64.neg (fpow (F64.sub tsb READINESS_OPTIMAL_TSB) (F64.lit 2 1)))
      READINESS_WIDTH in
  let score := F64.mul (F64.lit 100 1) (fexp exponent) in
  F64.np_clip (F64.np_round score) F64.zero (F64.lit 100 1).

(** The load of one session as [run_single_simulation_fast] computes it
    inline. *)
Definition inline_session_load (actual_rpe duration power_ratio : F64.float) : F64.float :=
  F64.mul
    (F64.mul
       (F64.mul (fpow actual_rpe (F64.lit 15 10)) (fpow duration (F64.lit 75 100)))
       (fpow (F64.py_max (F64.lit 25 100) (F64.py_min (F64.lit 4 1) power_ratio))
          (F64.lit 5 10)))
    (F64.lit 3 10).

End Calculations.

(** The session load as the specification words it, with the usual
    three-way clamp. *)
Definition clamp (x lo hi : F64.float) : F64.float :=
  if F64.ltb x lo then lo else if F64.gtb x hi then hi else x.

Definition sessionLoad (fpow : F64.float -> F64.float -> F64.float)
    (exertion duration powerRatio : F64.float) : F64.float :=
  F64.mul
    (F64.mul
       (F64.mul (fpow exertion (F64.lit 15 10)) (fpow duration (F64.lit 75 100)))
       (fpow (clamp powerRatio (F64.lit 25 100) (F64.lit 4 1)) (F64.lit 5 10)))
    (F64.lit 3 10).

(** ** Python values found in a template *)

Inductive pyval :=
| PNone
| PBool (b : bool)
| PInt (z : Z)
| PFloat (f : F64.float)
| PStr (s : string)
| PObj (id : nat).

(** [d.get(key, default)] on a dictionary with string keys. *)
Definition dict_get (d : gmap string pyval) (key : string) (dflt : pyval) : pyval :=
  default dflt (d !! key).

(** ** [float(str)]

    [float] on a string of ASCII characters.  The string is stripped of
    surrounding whitespace (tab, line feed, vertical tab, form feed,
    carriage return and space); single underscores between digits are
    dropped; what remains is an optional sign followed by [inf],
    [infinity] or [nan] in any letter case, or by a decimal number with an
    optional fraction and an optional exponent.  Anything else raises
    [ValueError].  On text outside ASCII Python first maps Unicode digits
    and spaces to ASCII ones; that table is not modelled, so statements
    that say what [float] raises carry the condition [ascii_only]. *)
Module PyFloat.

Definition code (c : ascii) : Z := Z.of_N (N_of_ascii c).

Definition is_space (c : ascii) : bool :=
  let n := code c in
  ((9 <=? n) && (n <=? 13)) || (n =? 32).

Definition is_digit (c : ascii) : bool :=
  let n := code c in (48 <=? n) && (n <=? 57).

Definition is_underscore (c : ascii) : bool := code c =? 95.

Definition lower (c : ascii) : ascii :=
  let n := code c in
  if (65 <=? n) && (n <=? 90) then ascii_of_N (Z.to_N (n + 32)) else c.

Fixpoint lstrip (l : list ascii) : list ascii :=
  match l with
  | c :: t => if is_space c then lstrip t else l
  | [] => []
  end.

Definition strip (l : list ascii) : list ascii := rev (lstrip (rev (lstrip l))).

(** An underscore must stand between two digits. *)
Fixpoint drop_underscores (prev : ascii) (l : list ascii) : option (list ascii) :=
  match l with
  | [] => if is_underscore prev then None else Some []
  | c :: t =>
      if is_underscore c then
        if is_digit prev then drop_underscores c t else None
      else if is_underscore prev && negb (is_digit c) then None
      else option_map (cons c) (drop_underscores c t)
  end.

(** Reads a run of digits, continuing the number [acc]; returns the number,
    how many digits were read, and the rest. *)
Fixpoint read_digits (l : list ascii) (acc n : Z) : Z * Z * list ascii :=
  match l with
  | c :: t => if is_digit c then read_digits t (10 * acc + (code c - 48)) (n + 1)
              else (acc, n, l)
  | [] => (acc, n, [])
  end.

Definition read_sign (l : list ascii) : bool * list ascii :=
  match l with
  | c :: t => if code c =? 45 then (true, t)
              else if code c =? 43 then (false, t) else (false, l)
  | [] => (false, [])
  end.

(** Mantissa digits and decimal exponent of a number without sign. *)
Definition read_decimal (l : list ascii) : option (Z * Z) :=
  let '(ip, ni, r1) := read_digits l 0 0 in
  let '(m, nf, r2) :=
    match r1 with
    | c :: t => if code c =? 46 then read_digits t ip 0 else (ip, 0, r1)
    | [] => (ip, 0, r1)
    end in
  if ni + nf =? 0 then None
  else match r2 with
       | [] => Some (m, - nf)
       | c :: t =>
           if code (lower c) =? 101 then
             let '(es, t') := read_sign t in
             let '(ev, ne, r3) := read_digits t' 0 0 in
             match r3 with
             | [] => if ne =? 0 then None
                     else Some (m, (if es then - ev else ev) - nf)
             | _ => None
             end
           else None
       end.

(** The binary64 number nearest to [(-1)^s * m * 10^e]. *)
Definition of_decimal (s : bool) (m e : Z) : F64.float :=
  match m with
  | Zpos p =>
      if 0 <=? e then F64.of_ratio s (p * Z.to_pos (10 ^ e)) 1
      else F64.of_ratio s p (Z.to_pos (10 ^ (- e)))
  | _ => S754_zero s
  end.

Definition py_float (str : string) : result F64.float :=
  match drop_underscores "000"%char (strip (list_ascii_of_string str)) with
  | None => Raise ValueError
  | Some l =>
      let '(s, body) := read_sign l in
      let word := string_of_list_ascii (map lower body) in
      if String.eqb word "inf" || String.eqb word "infinity" then Ok (S754_infinity s)
      else if String.eqb word "nan" then Ok S754_nan
      else match read_decimal body with
           | Some (m, e) => Ok (of_decimal s m e)
           | None => Raise ValueError
           end
  end.

End PyFloat.

(** ** Template parsing *)

(** [Some p] when the string is [p] followed by a percent sign. *)
Definition percent_prefix (position : string) : option string :=
  match rev (list_ascii_of_string position) with
  | c :: r => if Ascii.eqb c "%" then Some (string_of_list_ascii (rev r)) else None
  | [] => None
  end.

Definition resolve_week_position (position : pyval) (total_weeks : Z) : result Z :=
  match position with
  | PInt z => Ok z
  | PBool b => Ok (Z.b2z b)
  | PStr s =>
      if String.eqb s "first" then Ok 1
      else if String.eqb s "last" then Ok total_weeks
      else match percent_prefix s with
           | Some p =>
               rbind (PyFloat.py_float p) (fun f =>
               let percentage := F64.div f (F64.lit 100 1) in
               if F64.eqb percentage F64.zero then Ok 1
               else
                 rbind (F64.of_int total_weeks) (fun tw =>
                 rbind (F64.py_round (F64.mul percentage tw)) (fun r =>
                 let week := r + 1 in
                 Ok (Z.max 1 (Z.min total_weeks week)))))
           | None => Ok 1
           end
  | _ => Ok 1
  end.

Record WeekDefinition := {
  position : Z;
  phase_name : pyval;
  focus : pyval;
  power_multiplier : pyval;
  target_rpe : pyval;
  duration_minutes : pyval;
  work_rest_ratio : pyval
}.

(** [range(lo, hi)]. *)
Definition range (lo hi : Z) : list Z :=
  map (fun i => lo + Z.of_nat i) (seq 0 (Z.to_nat (hi - lo))).

(** The first loop of [interpolate_weeks]: one resolved index per keyframe,
    in the order of the template. *)
Fixpoint resolve_keyframes (weeks : list (gmap string pyval)) (total_weeks : Z)
  : result (list (Z * gmap string pyval)) :=
  match weeks with
  | [] => Ok []
  | w :: rest =>
      rbind (resolve_week_position (dict_get w "position" (PInt 1)) total_weeks) (fun pos =>
      rbind (resolve_keyframes rest total_weeks) (fun r =>
      Ok ((pos, w) :: r)))
  end.

(** [list.sort(key=...)] is a stable sort; here by insertion. *)
Fixpoint insert_by_pos {A} (x : Z * A) (l : list (Z * A)) : list (Z * A) :=
  match l with
  | [] => [x]
  | y :: t => if fst x <=? fst y then x :: y :: t else y :: insert_by_pos x t
  end.

Fixpoint sort_by_pos {A} (l : list (Z * A)) : list (Z * A) :=
  match l with
  | [] => []
  | x :: t => insert_by_pos x (sort_by_pos t)
  end.

(** The inner loop: the last keyframe whose index is at most [week_num],
    scanning until the first larger index. *)
Fixpoint scan_keyframes {A} (resolved : list (Z * A)) (week_num : Z)
    (current_def : option A) : option A :=
  match resolved with
  | [] => current_def
  | (pos, w) :: rest =>
      if pos <=? week_num then scan_keyframes rest week_num (Some w)
      else current_def
  end.

Definition default_week (default_duration : pyval) (i : Z) : WeekDefinition :=
  {| position := i;
     phase_name := PStr ("Week " +:+ pretty i);
     focus := PStr "Volume";
     power_multiplier := PFloat (F64.lit 1 1);
     target_rpe := PInt 6;
     duration_minutes := default_duration;
     work_rest_ratio := PStr "1:1" |}.

Definition week_of_keyframe (default_duration : pyval) (week_num : Z)
    (current_def : gmap string pyval) : WeekDefinition :=
  {| position := week_num;
     phase_name := dict_get current_def "phaseName" (PStr ("Week " +:+ pretty week_num));
     focus := dict_get current_def "focus" (PStr "Volume");
     power_multiplier := dict_get current_def "powerMultiplier" (PFloat (F64.lit 1 1));
     target_rpe := dict_get current_def "targetRPE" (PInt 6);
     duration_minutes := dict_get current_def "durationMinutes" default_duration;
     work_rest_ratio := dict_get current_def "workRestRatio" (PStr "1:1") |}.

Definition interpolate_weeks (weeks : list (gmap string pyval)) (total_weeks : Z)
    (default_duration : pyval) : result (list WeekDefinition) :=
  rbind (resolve_keyframes weeks total_weeks) (fun unsorted =>
  let resolved := sort_by_pos unsorted in
  match resolved with
  | [] => Ok (map (default_week default_duration) (range 1 (total_weeks + 1)))
  | first :: _ =>
      Ok (map (fun week_num =>
                 let current_def :=
                   match scan_keyframes resolved week_num None with
                   | Some w => w
                   | None => snd first
                   end in
                 week_of_keyframe default_duration week_num current_def)
              (range 1 (total_weeks + 1)))
  end).

(** ** Simulation core

    A random generator is a state [rng] with the three draws the program
    makes; every draw returns the next state.  A computation that draws and
    may raise is a function from the generator state to a result. *)

Section Simulation.

Variable fexp : F64.float -> F64.float.
Variable fpow : F64.float -> F64.float -> F64.float.

Variable rng : Type.
(** [rng.integers(low, high, size=n)] *)
Variable rng_integers : Z -> Z -> Z -> rng -> result (list Z * rng).
(** [rng.choice(a, size=n, replace=False)] *)
Variable rng_choice : Z -> Z -> rng -> result (list nat * rng).
(** [rng.uniform(low, high)] *)
Variable rng_uniform : F64.float -> F64.float -> rng -> F64.float * rng.

Definition sim (A : Type) : Type := rng -> result (A * rng).

Definition ret {A} (a : A) : sim A := fun g => Ok (a, g).

Definition bind {A B} (m : sim A) (k : A -> sim B) : sim B :=
  fun g => rbind (m g) (fun ag => k (fst ag) (snd ag)).

Definition lift {A} (r : result A) : sim A :=
  fun g => rmap (fun a => (a, g)) r.

Definition draw_uniform (lo hi : F64.float) : sim F64.float :=
  fun g => Ok (rng_uniform lo hi g).

(** [a[i]] for an index that is not negative. *)
Definition index {A} (a : list A) (i : nat) : result A :=
  match a !! i with
  | Some x => Ok x
  | None => Raise IndexError
  end.

(** One scheduled session: the body of the loop over [session_days]. *)
Definition simulate_session (base_power : F64.float)
    (power_mult_per_day target_rpe_per_day duration_per_day : list F64.float)
    (week_start day : nat) (daily_loads : list F64.float) : sim (list F64.float) :=
  let day_idx := (week_start + day)%nat in
  bind (lift (index power_mult_per_day day_idx)) (fun mult =>
  let planned_power := F64.mul base_power mult in
  bind (draw_uniform (F64.neg (F64.lit 5 100)) (F64.lit 5 100)) (fun u1 =>
  let actual_power := F64.mul planned_power (F64.add (F64.lit 1 1) u1) in
  bind (lift (index target_rpe_per_day day_idx)) (fun planned_rpe =>
  bind (draw_uniform (F64.neg (F64.lit 5 10)) (F64.lit 5 10)) (fun u2 =>
  let actual_rpe :=
    F64.np_clip (F64.add planned_rpe u2) (F64.lit 1 1) (F64.lit 10 1) in
  let power_ratio := F64.div actual_power base_power in
  bind (lift (index duration_per_day day_idx)) (fun duration =>
  let load := inline_session_load fpow actual_rpe duration power_ratio in
  bind (lift (index daily_loads day_idx)) (fun old =>
  ret (<[day_idx := F64.add old load]> daily_loads))))))).

Fixpoint simulate_sessions (base_power : F64.float)
    (power_mult_per_day target_rpe_per_day duration_per_day : list F64.float)
    (week_start : nat) (session_days : list nat) (daily_loads : list F64.float)
  : sim (list F64.float) :=
  match session_days with
  | [] => ret daily_loads
  | day :: rest =>
      bind (simulate_session base_power power_mult_per_day target_rpe_per_day
              duration_per_day week_start day daily_loads) (fun daily_loads' =>
      simulate_sessions base_power power_mult_per_day target_rpe_per_day
        duration_per_day week_start rest daily_loads')
  end.

Fixpoint simulate_weeks (base_power : F64.float)
    (power_mult_per_day target_rpe_per_day duration_per_day : list F64.float)
    (sessions_per_week : list Z) (week_idxs : list nat) (daily_loads : list F64.float)
  : sim (list F64.float) :=
  match week_idxs with
  | [] => ret daily_loads
  | week_idx :: rest =>
      let week_start := (week_idx * 7)%nat in
      bind (lift (index sessions_per_week week_idx)) (fun n_sessions =>
      bind (rng_choice 7 n_sessions) (fun session_days =>
      bind (simulate_sessions base_power power_mult_per_day target_rpe_per_day
              duration_per_day week_start session_days daily_loads) (fun daily_loads' =>
      simulate_weeks base_power power_mult_per_day target_rpe_per_day
        duration_per_day sessions_per_week rest daily_loads')))
  end.

(** The part of [run_single_simulation_fast] after the daily loads are
    known: smoothing and scores. *)
Definition scores_of_loads (daily_loads : list F64.float)
  : list F64.float * list F64.float :=
  let atl := vectorized_ewma daily_loads ATL_ALPHA F64.zero in
  let ctl := vectorized_ewma daily_loads CTL_ALPHA (F64.lit 10 1) in
  let fatigue_scores := elementwise2 (vectorized_fatigue_score fexp) atl ctl in
  let tsb := elementwise2 F64.sub ctl atl in
  let readiness_scores := map (vectorized_readiness_score fexp fpow) tsb in
  (fatigue_scores, readiness_scores).

Definition run_single_simulation_fast (num_weeks num_days : Z) (base_power : F64.float)
    (power_mult_per_day target_rpe_per_day duration_per_day : list F64.float)
  : sim (list F64.float * list F64.float) :=
  bind (rng_integers 2 5 num_weeks) (fun sessions_per_week =>
  bind (lift (if num_days <? 0 then Raise ValueError
              else Ok (replicate (Z.to_nat num_days) F64.zero))) (fun daily_loads =>
  bind (simulate_weeks base_power power_mult_per_day target_rpe_per_day
          duration_per_day sessions_per_week (seq 0 (Z.to_nat num_weeks)) daily_loads)
       (fun daily_loads' =>
  ret (scores_of_loads daily_loads')))).

End Simulation.

(** ** Splitting the work across workers

    [numpy.random.SeedSequence()] takes fresh entropy from the operating
    system each time it is built; [entropy k] is the 32-bit word that the
    [k]-th one built during the run produces.  Adding the Python integer
    [i] to that [uint32] wraps modulo [2^32] under NumPy 2 and widens to a
    64-bit integer under NumPy 1; [wrap] selects the former. *)

Definition use_multiprocessing (num_simulations num_workers : Z) : bool :=
  (500 <=? num_simulations) && (1 <? num_workers).

Definition seed_add (wrap : bool) (word i : Z) : Z :=
  if wrap then (word + i) mod 2 ^ 32 else word + i.

(** The loop over [range(num_workers)]; [built] counts the seed sequences
    built so far.  A batch is its size and its seed, the other components
    of the tuple being the arguments shared by all batches. *)
Fixpoint split_batches (wrap : bool) (entropy : nat -> Z) (batch_size remainder : Z)
    (workers : list Z) (built : nat) : list (Z * Z) :=
  match workers with
  | [] => []
  | i :: rest =>
      let size := batch_size + (if i <? remainder then 1 else 0) in
      if 0 <? size then
        let seed := seed_add wrap (entropy built) i in
        (size, seed) :: split_batches wrap entropy batch_size remainder rest (S built)
      else split_batches wrap entropy batch_size remainder rest built
  end.

Definition make_batches (wrap : bool) (entropy : nat -> Z)
    (num_simulations num_workers : Z) : list (Z * Z) :=
  let batch_size := num_simulations / num_workers in
  let remainder := num_simulations mod num_workers in
  split_batches wrap entropy batch_size remainder (range 0 num_workers) 0.

Definition batch_sizes (num_simulations num_workers : Z) : list Z :=
  map fst (make_batches false (fun _ => 0) num_simulations num_workers).

Definition batch_seeds (wrap : bool) (entropy : nat -> Z)
    (num_simulations num_workers : Z) : list Z :=
  map snd (make_batches wrap entropy num_simulations num_workers).

(** What the specification describes instead: one seed sequence for the
    run, whose word every batch offsets by its own index. *)
Definition derived_seeds (wrap : bool) (word : Z) (num_simulations num_workers : Z)
  : list Z :=
  batch_seeds wrap (fun _ => word) num_simulations num_workers.

(** ** Vocabulary of the statements *)

Definition sum_Z (l : list Z) : Z := foldr Z.add 0 l.

(** The size the loop computes for worker [i]. *)
Definition worker_size (batch_size remainder i : Z) : Z :=
  batch_size + (if i <? remainder then 1 else 0).

(** The entropy words of a run in which the first seed sequence built
    yields 1 and every later one 0. *)
Definition colliding_entropy (k : nat) : Z :=
  match k with O => 1 | _ => 0 end.

(** What [resolve_week_position] does not recognise: neither an integer
    (booleans are integers in Python), nor one of the two markers, nor a
    string that ends with a percent sign. *)
Definition unrecognised (position : pyval) : Prop :=
  match position with
  | PInt _ | PBool _ => False
  | PStr s => s <> "first"%string /\ s <> "last"%string /\ percent_prefix s = None
  | _ => True
  end.

(** The order [list.sort] sorts the resolved keyframes by. *)
Definition pos_le {A : Type} (a b : Z * A) : Prop := a.1 <= b.1.

(** The week definition [interpolate_weeks] emits for one week. *)
Definition emitted_week (default_duration : pyval) (resolved : list (Z * gmap string pyval))
    (first : Z * gmap string pyval) (week_num : Z) : WeekDefinition :=
  week_of_keyframe default_duration week_num
    match scan_keyframes resolved week_num None with
    | Some w => w
    | None => first.2
    end.

(** A keyframe with a position and a phase name only. *)
Definition keyframe_at (pos : pyval) (name : string) : gmap string pyval :=
  <["position" := pos]> (<["phaseName" := PStr name]> ∅).

(** An ASCII character, and a string of ASCII characters. *)
Definition ascii_char (c : ascii) : Prop := PyFloat.code c < 128.

Definition ascii_only (s : string) : Prop :=
  Forall (fun c => PyFloat.code c < 128) (list_ascii_of_string s).

(** A keyframe whose position, when it is a string, is an ASCII string. *)
Definition ascii_position (w : gmap string pyval) : Prop :=
  match dict_get w "position" (PInt 1) with
  | PStr s => ascii_only s
  | _ => True
  end.

(** ** The template and the length of the program

    A template is the parsed JSON object; the record holds the entries the
    program reads, each of them optional as a dictionary key is.  The
    numbers of the week configuration are JSON integers. *)

Record RangeConfig := {
  range_min : option Z;
  range_max : option Z;
  range_step : option Z
}.

Record WeekConfig := {
  config_type : option string;
  config_fixed : option Z;
  config_range : option RangeConfig
}.

Record Template := {
  template_week_config : option WeekConfig;
  template_default_duration : option pyval;
  template_weeks : option (list (gmap string pyval))
}.

(** The empty dictionary [{}] that [get] falls back to. *)
Definition no_range : RangeConfig :=
  {| range_min := None; range_max := None; range_step := None |}.

Definition no_config : WeekConfig :=
  {| config_type := None; config_fixed := None; config_range := None |}.

(** The string a dictionary holds under ['type'] is compared with [==]. *)
Definition type_is (week_config : WeekConfig) (name : string) : bool :=
  match config_type week_config with
  | Some t => String.eqb t name
  | None => false
  end.

(** [override_weeks] is [None] or an integer; both [None] and 0 are false
    in a condition. *)
Definition truthy (override_weeks : option Z) : bool :=
  match override_weeks with
  | Some w => negb (w =? 0)
  | None => false
  end.

Definition get_program_weeks (template : Template) (override_weeks : option Z) : Z :=
  if truthy override_weeks then default 0 override_weeks
  else
    let week_config := default no_config (template_week_config template) in
    if type_is week_config "fixed" then default 8 (config_fixed week_config)
    else if type_is week_config "variable" then
      let range_config := default no_range (config_range week_config) in
      let min_weeks := default 4 (range_min range_config) in
      let max_weeks := default 8 (range_max range_config) in
      (min_weeks + max_weeks) / 2
    else 8.

(** [list(range(start, stop, step))]. *)
Definition range_count (start stop step : Z) : Z :=
  if 0 <? step then
    if start <? stop then (stop - start - 1) / step + 1 else 0
  else
    if stop <? start then (start - stop - 1) / (- step) + 1 else 0.

Definition range_step_list (start stop step : Z) : result (list Z) :=
  if step =? 0 then Raise ValueError
  else Ok (map (fun k => start + Z.of_nat k * step)
             (seq 0 (Z.to_nat (range_count start stop step)))).

(** [get_week_variants] of [generate_all_charts.py]. *)
Definition get_week_variants (template : Template) : result (list Z) :=
  let week_config := default no_config (template_week_config template) in
  if type_is week_config "fixed" then Ok [default 8 (config_fixed week_config)]
  else if type_is week_config "variable" then
    let range_config := default no_range (config_range week_config) in
    let min_weeks := default 4 (range_min range_config) in
    let max_weeks := default 12 (range_max range_config) in
    let step := default 1 (range_step range_config) in
    range_step_list min_weeks (max_weeks + 1) step
  else Ok [8].

(** ** File names

    [str.lower] and [str.replace] on a string of ASCII characters. *)

Definition str_lower (s : list ascii) : list ascii := map PyFloat.lower s.

Definition str_replace (old : ascii) (new : list ascii) (s : list ascii) : list ascii :=
  flat_map (fun c => if Ascii.eqb c old then new else [c]) s.

Definition sanitize_filename (name : string) : string :=
  string_of_list_ascii
    (str_replace "/" ["-"%char]
       (str_replace ":" []
          (str_replace " " ["_"%char] (str_lower (list_ascii_of_string name))))).

(** ** Daily parameter vectors *)

Section WeekData.

(** [numpy.empty] leaves the memory as it finds it: [uninitialised k i] is
    what entry [i] of the [k]-th array built holds. *)
Variable uninitialised : nat -> nat -> F64.float.

(** What NumPy makes of a value that is neither a float, an integer nor a
    boolean when it is stored into a [float64] array. *)
Variable convert_object : pyval -> result F64.float.

Definition to_float64 (v : pyval) : result F64.float :=
  match v with
  | PFloat f => Ok f
  | PInt z => F64.of_int z
  | PBool b => Ok (if b then F64.lit 1 1 else F64.zero)
  | _ => convert_object v
  end.

Definition np_empty (k : nat) (n : Z) : result (list F64.float) :=
  if n <? 0 then Raise ValueError
  else Ok (map (uninitialised k) (seq 0 (Z.to_nat n))).

(** [a[start:stop] = v]: a slice reaching past the end of the array stops
    there. *)
Definition assign_slice (start stop : nat) (v : F64.float) (a : list F64.float)
  : list F64.float :=
  imap (fun i x => if (start <=? i)%nat && (i <? stop)%nat then v else x) a.

(** The loop over [enumerate(week_defs)]. *)
Fixpoint fill_weeks (week_defs : list WeekDefinition) (week_idx : nat)
    (arrays : list F64.float * list F64.float * list F64.float)
  : result (list F64.float * list F64.float * list F64.float) :=
  match week_defs with
  | [] => Ok arrays
  | week_def :: rest =>
      let '(power_mult, target, duration) := arrays in
      let start := (week_idx * 7)%nat in
      let stop := (start + 7)%nat in
      rbind (to_float64 (power_multiplier week_def)) (fun pm =>
      rbind (to_float64 (target_rpe week_def)) (fun tr =>
      rbind (to_float64 (duration_minutes week_def)) (fun du =>
      fill_weeks rest (S week_idx)
        (assign_slice start stop pm power_mult,
         assign_slice start stop tr target,
         assign_slice start stop du duration))))
  end.

Definition prepare_week_data (week_defs : list WeekDefinition) (num_weeks : Z)
  : result (list F64.float * list F64.float * list F64.float) :=
  let num_days := num_weeks * 7 in
  rbind (np_empty 0 num_days) (fun power_mult =>
  rbind (np_empty 1 num_days) (fun target =>
  rbind (np_empty 2 num_days) (fun duration =>
  fill_weeks week_defs 0 (power_mult, target, duration)))).

(** The three numbers a week contributes to each of its days. *)
Definition week_values (week_def : WeekDefinition)
  : result (F64.float * F64.float * F64.float) :=
  rbind (to_float64 (power_multiplier week_def)) (fun pm =>
  rbind (to_float64 (target_rpe week_def)) (fun tr =>
  rbind (to_float64 (duration_minutes week_def)) (fun du =>
  Ok (pm, tr, du)))).

End WeekData.

(** ** Batches of trials and the whole run *)

Section Run.

Variable fexp : F64.float -> F64.float.
Variable fpow : F64.float -> F64.float -> F64.float.
Variable rng : Type.
Variable rng_integers : Z -> Z -> Z -> rng -> result (list Z * rng).
Variable rng_choice : Z -> Z -> rng -> result (list nat * rng).
Variable rng_uniform : F64.float -> F64.float -> rng -> F64.float * rng.
(** [numpy.random.default_rng(seed)] and, without a seed, the generator it
    draws from the entropy of the system. *)
Variable seeded_rng : Z -> rng.
Variable fresh_rng : rng.
Variable uninitialised : nat -> nat -> F64.float.
Variable convert_object : pyval -> result F64.float.
Variable cpu_count : Z.
Variable wrap : bool.
Variable entropy : nat -> Z.

(** A seed sequence refuses a negative seed. *)
Definition default_rng (seed : Z) : result rng :=
  if seed <? 0 then Raise ValueError else Ok (seeded_rng seed).

(** Storing a row into a matrix of [num_days] columns: a row of that
    length is copied, a row of one entry is broadcast, any other is
    refused. *)
Definition assign_row (num_days : Z) (row : list F64.float) : result (list F64.float) :=
  if Z.of_nat (length row) =? num_days then Ok row
  else match row with
       | [x] => Ok (replicate (Z.to_nat num_days) x)
       | _ => Raise ValueError
       end.

(** The loop that fills the two matrices row by row, one trial per row, on
    one generator. *)
Fixpoint run_trials (count : nat) (num_weeks num_days : Z) (base_power : F64.float)
    (power_mult target duration : list F64.float) (g : rng)
  : result (list (list F64.float) * list (list F64.float) * rng) :=
  match count with
  | O => Ok ([], [], g)
  | S count' =>
      rbind (run_single_simulation_fast fexp fpow rng rng_integers rng_choice
               rng_uniform num_weeks num_days base_power power_mult target duration g)
        (fun out =>
      let '(fatigue, readiness, g') := out in
      rbind (assign_row num_days fatigue) (fun frow =>
      rbind (assign_row num_days readiness) (fun rrow =>
      rbind (run_trials count' num_weeks num_days base_power power_mult target
               duration g') (fun more =>
      let '(fs, rs, g'') := more in
      Ok (frow :: fs, rrow :: rs, g'')))))
  end.

(** [numpy.empty((rows, num_days))] followed by the loop. *)
Definition fill_matrices (rows num_weeks num_days : Z) (base_power : F64.float)
    (power_mult target duration : list F64.float) (g : rng)
  : result (list (list F64.float) * list (list F64.float)) :=
  if (rows <? 0) || (num_days <? 0) then Raise ValueError
  else rmap (fun out => (out.1.1, out.1.2))
         (run_trials (Z.to_nat rows) num_weeks num_days base_power power_mult
            target duration g).

Definition run_batch_simulations (batch_size num_weeks num_days : Z)
    (base_power : F64.float) (power_mult target duration : list F64.float) (seed : Z)
  : result (list (list F64.float) * list (list F64.float)) :=
  rbind (default_rng seed) (fun g =>
  fill_matrices batch_size num_weeks num_days base_power power_mult target duration g).

(** [pool.map]: the batches share nothing, and any failure fails the map. *)
Fixpoint pool_map {A B} (f : A -> result B) (tasks : list A) : result (list B) :=
  match tasks with
  | [] => Ok []
  | t :: rest =>
      rbind (f t) (fun b => rbind (pool_map f rest) (fun bs => Ok (b :: bs)))
  end.

(** [numpy.vstack]: there must be a block, and all rows must be as long as
    the first. *)
Definition same_width (rows : list (list F64.float)) : bool :=
  match rows with
  | [] => true
  | r :: _ => forallb (fun r' => (length r' =? length r)%nat) rows
  end.

Definition vstack (blocks : list (list (list F64.float))) : result (list (list F64.float)) :=
  match blocks with
  | [] => Raise ValueError
  | _ => if same_width (concat blocks) then Ok (concat blocks) else Raise ValueError
  end.

(** [run_monte_carlo_optimized] up to the two stacked matrices; the
    result also carries the planned intensity and exertion vectors that the
    function echoes. *)
Definition monte_carlo_trials (template : Template) (num_simulations num_weeks : Z)
    (base_power : F64.float) (num_workers : option Z)
  : result (list (list F64.float) * list (list F64.float)
            * list F64.float * list F64.float) :=
  let num_days := num_weeks * 7 in
  let default_duration :=
    default (PInt DEFAULT_SESSION_DURATION) (template_default_duration template) in
  let weeks_data := default [] (template_weeks template) in
  rbind (interpolate_weeks weeks_data num_weeks default_duration) (fun week_defs =>
  rbind (prepare_week_data uninitialised convert_object week_defs num_weeks) (fun data =>
  let '(power_mult, target, duration) := data in
  let num_workers := default (Z.min cpu_count 8) num_workers in
  if use_multiprocessing num_simulations num_workers then
    let batches := make_batches wrap entropy num_simulations num_workers in
    rbind (pool_map (fun b => run_batch_simulations b.1 num_weeks num_days base_power
                                power_mult target duration b.2) batches) (fun results =>
    rbind (vstack (map fst results)) (fun all_fatigue =>
    rbind (vstack (map snd results)) (fun all_readiness =>
    Ok (all_fatigue, all_readiness, power_mult, target))))
  else
    rbind (fill_matrices num_simulations num_weeks num_days base_power power_mult
             target duration fresh_rng) (fun all =>
    Ok (all.1, all.2, power_mult, target)))).

End Run.

(** ** A generator for the examples

    Every draw is the least value that NumPy could return. *)

Definition least_integers (lo hi n : Z) (g : unit) : result (list Z * unit) :=
  if n <? 0 then Raise ValueError else Ok (replicate (Z.to_nat n) lo, g).

Definition first_days (a n : Z) (g : unit) : result (list nat * unit) :=
  if (n <? 0) || (a <? n) then Raise ValueError else Ok (seq 0 (Z.to_nat n), g).

Definition least_uniform (lo hi : F64.float) (g : unit) : F64.float * unit := (lo, g).

(** * Facts about binary64 arithmetic *)

Module F64Facts.
Import F64.

Lemma shr_1_nonneg mrs : 0 <= shr_m mrs -> 0 <= shr_m (shr_1 mrs).
Proof.
  destruct mrs as [m r s]; simpl.
  destruct m as [|[p|p|]|[p|p|]]; simpl; lia.
Qed.

Lemma iter_shr_1_nonneg p : forall mrs,
  0 <= shr_m mrs -> 0 <= shr_m (SpecFloat.iter_pos shr_1 p mrs).
Proof.
  induction p as [p IH|p IH|]; intros mrs H; simpl.
  - apply IH, IH, shr_1_nonneg, H.
  - apply IH, IH, H.
  - apply shr_1_nonneg, H.
Qed.

Lemma shr_nonneg mrs e n : 0 <= shr_m mrs -> 0 <= shr_m (fst (shr mrs e n)).
Proof.
  intros H. destruct n; simpl; auto using iter_shr_1_nonneg.
Qed.

Lemma shr_exponent mrs e n : e <= snd (shr mrs e n).
Proof. destruct n; simpl; lia. Qed.

Lemma shr_m_of_loc m l : shr_m (shr_record_of_loc m l) = m.
Proof. destruct l as [|[]]; reflexivity. Qed.

Lemma shr_fexp_nonneg m e l : 0 <= m -> 0 <= shr_m (fst (shr_fexp prec emax m e l)).
Proof.
  intros H. unfold shr_fexp. apply shr_nonneg. now rewrite shr_m_of_loc.
Qed.

Lemma shr_fexp_exponent m e l : e <= snd (shr_fexp prec emax m e l).
Proof. unfold shr_fexp. apply shr_exponent. Qed.

Lemma round_nearest_even_nonneg m l : 0 <= m -> 0 <= round_nearest_even m l.
Proof.
  intros H. destruct l as [|[]]; simpl; try lia.
  destruct (Z.even m); lia.
Qed.

(** The shape of a rounded result: never NaN, of the sign asked for, and
    with an exponent that is at least the one given. *)
Inductive rounded (s : bool) (e : Z) : float -> Prop :=
| rounded_zero : rounded s e (S754_zero s)
| rounded_infinity : rounded s e (S754_infinity s)
| rounded_finite m e' : e <= e' -> rounded s e (S754_finite s m e').

Lemma binary_round_aux_rounded s mx ex lx :
  0 <= mx -> rounded s ex (binary_round_aux prec emax s mx ex lx).
Proof.
  intros H. unfold binary_round_aux.
  pose proof (shr_fexp_nonneg mx ex lx H) as H1.
  pose proof (shr_fexp_exponent mx ex lx) as E1.
  destruct (shr_fexp prec emax mx ex lx) as [mrs' e'] eqn:S1; simpl in H1, E1.
  set (m1 := round_nearest_even (shr_m mrs') (loc_of_shr_record mrs')).
  assert (0 <= m1) as H2 by (apply round_nearest_even_nonneg, H1).
  pose proof (shr_fexp_nonneg m1 e' loc_Exact H2) as H3.
  pose proof (shr_fexp_exponent m1 e' loc_Exact) as E2.
  destruct (shr_fexp prec emax m1 e' loc_Exact) as [mrs'' e''] eqn:S2; simpl in H3, E2.
  destruct (shr_m mrs'') as [|m|m]; try lia.
  - constructor.
  - destruct (e'' <=? emax - prec); constructor. lia.
Qed.

Lemma rounded_not_nan s e x : rounded s e x -> is_nan x = false.
Proof. now destruct 1. Qed.


Lemma binary_round_not_nan s m e : is_nan (binary_round prec emax s m e) = false.
Proof.
  unfold binary_round.
  destruct (shl_align m e _) as [mz ez].
  eapply rounded_not_nan, binary_round_aux_rounded. lia.
Qed.

Lemma binary_normalize_not_nan m e sz : is_nan (binary_normalize prec emax m e sz) = false.
Proof. destruct m; simpl; auto using binary_round_not_nan. Qed.

Lemma of_Z_not_nan z : is_nan (of_Z z) = false.
Proof. apply binary_normalize_not_nan. Qed.

Lemma div_core_nonneg m1 e1 m2 e2 :
  0 <= fst (fst (SFdiv_core_binary prec emax (Zpos m1) e1 (Zpos m2) e2)).
Proof.
  unfold SFdiv_core_binary.
  set (s := e1 - e2 - _).
  set (m' := match s with Z0 => _ | Zpos _ => _ | Zneg _ => _ end).
  assert (0 <= m') as Hm.
  { subst m'. destruct s; try lia. apply Z.shiftl_nonneg. lia. }
  pose proof (Z.div_pos m' (Zpos m2) Hm ltac:(lia)) as Hq.
  unfold Z.div in Hq.
  destruct (Z.div_eucl m' (Z.pos m2)) as [q r]. exact Hq.
Qed.

Lemma of_ratio_rounded s n d : exists e, rounded s e (of_ratio s n d).
Proof.
  unfold of_ratio.
  pose proof (div_core_nonneg n 0 d 0) as H.
  destruct (SFdiv_core_binary prec emax (Zpos n) 0 (Zpos d) 0) as [[q e] l].
  exists e. now apply binary_round_aux_rounded.
Qed.

Lemma of_ratio_not_nan s n d : is_nan (of_ratio s n d) = false.
Proof. destruct (of_ratio_rounded s n d) as [e H]. eapply rounded_not_nan, H. Qed.

Lemma add_not_nan_r x y :
  is_finite y = true -> is_nan x = false -> is_nan (add x y) = false.
Proof.
  destruct x as [sx|sx| |sx mx ex], y as [sy|sy| |sy my ey]; simpl;
    try discriminate; try reflexivity; intros _ _.
  - now destruct sx, sy.
  - apply binary_normalize_not_nan.
Qed.

Lemma add_not_nan_l x y :
  is_finite x = true -> is_nan y = false -> is_nan (add x y) = false.
Proof.
  destruct x as [sx|sx| |sx mx ex], y as [sy|sy| |sy my ey]; simpl;
    try discriminate; try reflexivity; intros _ _.
  - now destruct sx, sy.
  - apply binary_normalize_not_nan.
Qed.

Lemma sub_not_nan_r x y :
  is_finite y = true -> is_nan x = false -> is_nan (sub x y) = false.
Proof.
  destruct x as [sx|sx| |sx mx ex], y as [sy|sy| |sy my ey]; simpl;
    try discriminate; try reflexivity; intros _ _.
  - now destruct sx, sy.
  - apply binary_normalize_not_nan.
Qed.

Lemma mul_finite_not_nan s m e y :
  is_nan y = false -> is_nan (mul (S754_finite s m e) y) = false.
Proof.
  destruct y as [sy|sy| |sy my ey]; simpl; try discriminate; try reflexivity.
  intros _. eapply rounded_not_nan, binary_round_aux_rounded. lia.
Qed.

Lemma mul_self_not_nan x : is_nan x = false -> is_nan (mul x x) = false.
Proof.
  destruct x as [sx|sx| |sx mx ex]; simpl; try discriminate; try reflexivity.
  intros _. eapply rounded_not_nan, binary_round_aux_rounded. lia.
Qed.

Lemma div_finite_finite_not_nan sx mx ex sy my ey :
  is_nan (div (S754_finite sx mx ex) (S754_finite sy my ey)) = false.
Proof.
  unfold div, SFdiv.
  pose proof (div_core_nonneg mx ex my ey) as H.
  destruct (SFdiv_core_binary prec emax (Zpos mx) ex (Zpos my) ey) as [[q e] l].
  eapply rounded_not_nan, binary_round_aux_rounded, H.
Qed.

(** A finite numerator over a finite non-zero denominator. *)
Lemma div_not_nan_finite x s m e :
  is_finite x = true -> is_nan (div x (S754_finite s m e)) = false.
Proof.
  destruct x as [sx|sx| |sx mx ex]; try discriminate; intros _.
  - reflexivity.
  - apply div_finite_finite_not_nan.
Qed.

(** Any number over a finite non-zero denominator. *)
Lemma div_not_nan_by_finite x s m e :
  is_nan x = false -> is_nan (div x (S754_finite s m e)) = false.
Proof.
  destruct x as [sx|sx| |sx mx ex]; try discriminate; intros _; try reflexivity.
  apply div_finite_finite_not_nan.
Qed.

(** A finite non-zero numerator over any number. *)
Lemma div_finite_by_not_nan s m e y :
  is_nan y = false -> is_nan (div (S754_finite s m e) y) = false.
Proof.
  destruct y as [sy|sy| |sy my ey]; try discriminate; intros _; try reflexivity.
  apply div_finite_finite_not_nan.
Qed.

Lemma neg_not_nan x : is_nan x = false -> is_nan (neg x) = false.
Proof. now destruct x. Qed.


(** *** Integers as floats *)

Lemma digits2_pos_bound p : Zpos p < 2 ^ Zpos (digits2_pos p).
Proof.
  induction p as [p IH|p IH|]; simpl digits2_pos.
  - rewrite Pos2Z.inj_succ, Z.pow_succ_r by lia. lia.
  - rewrite Pos2Z.inj_succ, Z.pow_succ_r by lia. lia.
  - reflexivity.
Qed.

Lemma iter_xO_value p k : Zpos (Pos.iter xO p k) = Zpos p * 2 ^ Zpos k.
Proof.
  induction k as [|k IH] using Pos.peano_ind.
  - simpl. lia.
  - rewrite Pos.iter_succ, Pos2Z.inj_succ, Z.pow_succ_r by lia.
    rewrite Pos2Z.inj_xO, IH. lia.
Qed.

Lemma iter_xO_digits p k :
  digits2_pos (Pos.iter xO p k) = (digits2_pos p + k)%positive.
Proof.
  induction k as [|k IH] using Pos.peano_ind.
  - simpl. lia.
  - rewrite Pos.iter_succ. simpl. rewrite IH. lia.
Qed.

Lemma binary_round_aux_canonical s m e :
  Zpos (digits2_pos m) = 53 -> -1074 <= e <= 971 ->
  binary_round_aux prec emax s (Zpos m) e loc_Exact = S754_finite s m e.
Proof.
  intros Hd He.
  assert (shr_fexp prec emax (Zpos m) e loc_Exact
          = ({| shr_m := Zpos m; shr_r := false; shr_s := false |}, e)) as Hs.
  { unfold shr_fexp, fexp, emin, prec, emax. simpl Zdigits2. rewrite Hd.
    replace (Z.max (53 + e - 53) (3 - 1024 - 53) - e) with 0 by lia.
    reflexivity. }
  unfold binary_round_aux. rewrite Hs. simpl. rewrite Hs. simpl.
  replace (e <=? emax - prec) with true; [reflexivity|].
  symmetry. apply Z.leb_le. unfold emax, prec. lia.
Qed.

Lemma binary_round_int s p :
  let d := Zpos (digits2_pos p) in
  (d <= 53 /\ exists mz, binary_round prec emax s p 0 = S754_finite s mz (d - 53)
                         /\ Zpos mz = Zpos p * 2 ^ (53 - d))
  \/ (53 < d /\ rounded s 0 (binary_round prec emax s p 0)).
Proof.
  intros d. unfold binary_round, shl_align.
  assert (fexp prec emax (Zpos (digits2_pos p) + 0) = d - 53) as ->.
  { unfold fexp, emin, prec, emax. fold d. lia. }
  destruct (Z_le_gt_dec d 53) as [Hle|Hgt].
  - left. split; [exact Hle|].
    destruct (d - 53 - 0) as [|k|k] eqn:Hk; try lia.
    + exists p. split.
      * replace (d - 53) with 0 by lia.
        apply binary_round_aux_canonical; fold d; lia.
      * replace (53 - d) with 0 by lia. lia.
    + exists (Pos.iter xO p k). split.
      * apply binary_round_aux_canonical.
        -- rewrite iter_xO_digits. fold d in Hk |- *. lia.
        -- lia.
      * rewrite iter_xO_value. f_equal. f_equal. lia.
  - right. split; [lia|].
    destruct (d - 53 - 0) as [|k|k] eqn:Hk; try lia.
    apply binary_round_aux_rounded. lia.
Qed.

Lemma round_half_even_nonneg m e : 0 <= round_half_even m e.
Proof.
  unfold round_half_even. destruct e as [|e|e]; try lia.
  assert (0 <= Zpos m / 2 ^ Zpos e) by (apply Z.div_pos; lia).
  destruct (2 * _ ?= _); [destruct (Z.even _)| |]; lia.
Qed.

Lemma lit_hundred : lit 100 1 = hundred.
Proof. vm_compute. reflexivity. Qed.

Lemma of_Z_hundred : of_Z 100 = hundred.
Proof. vm_compute. reflexivity. Qed.

Lemma clip_zero s : np_clip (S754_zero s) zero hundred = of_Z 0.
Proof. now destruct s. Qed.

Lemma clip_negative m e : np_clip (S754_finite true m e) zero hundred = of_Z 0.
Proof. reflexivity. Qed.

Lemma ltb_hundred m e :
  ltb (S754_finite false m e) hundred =
  match e ?= -46 with
  | Lt => true
  | Gt => false
  | Eq => match (m ?= 7036874417766400)%positive with Lt => true | _ => false end
  end.
Proof.
  unfold ltb, SFltb, SFcompare, hundred, Pos.compare.
  destruct (e ?= -46); reflexivity.
Qed.

Lemma clip_positive m e :
  np_clip (S754_finite false m e) zero hundred =
  if ltb (S754_finite false m e) hundred then S754_finite false m e else hundred.
Proof. reflexivity. Qed.

Lemma clip_large m e : 0 <= e -> np_clip (S754_finite false m e) zero hundred = of_Z 100.
Proof.
  intros He. rewrite of_Z_hundred, clip_positive, ltb_hundred.
  destruct (Z.compare_spec e (-46)); try lia. reflexivity.
Qed.

Lemma clip_rounded s r :
  rounded s 0 r ->
  np_clip r zero hundred = of_Z 0 \/ np_clip r zero hundred = of_Z 100.
Proof.
  destruct 1 as [| |m e He].
  - left. apply clip_zero.
  - destruct s; [left|right]; reflexivity.
  - destruct s; [left; apply clip_negative|right; now apply clip_large].
Qed.

Lemma of_Z_small p mz :
  let d := Zpos (digits2_pos p) in
  d <= 53 -> Zpos mz = Zpos p * 2 ^ (53 - d) ->
  of_Z (Zpos p) = S754_finite false mz (d - 53).
Proof.
  intros d Hd Hmz. unfold of_Z, binary_normalize.
  destruct (binary_round_int false p) as [[_ (mz' & -> & Hmz')]|[Hd' _]].
  - fold d in Hmz' |- *. f_equal. lia.
  - fold d in Hd'. lia.
Qed.

Lemma clip_of_Z_pos p :
  exists z, 0 <= z <= 100 /\ np_clip (of_Z (Zpos p)) zero hundred = of_Z z.
Proof.
  pose proof (digits2_pos_bound p) as Hb.
  destruct (binary_round_int false p) as [[Hd (mz & Hr & Hmz)]|[Hd Hr]].
  - set (d := Zpos (digits2_pos p)) in *.
    rewrite (of_Z_small p mz Hd Hmz). fold d.
    rewrite clip_positive, ltb_hundred.
    destruct (Z.compare_spec (d - 53) (-46)) as [He|He|He].
    + destruct (Pos.compare_spec mz 7036874417766400) as [Hc|Hc|Hc].
      * exists 100. split; [lia|]. now rewrite of_Z_hundred.
      * exists (Zpos p). split.
        -- assert (53 - d = 46) as E by (clear - He; lia).
           rewrite E in Hmz. clear - Hmz Hc.
           assert (Zpos mz < 7036874417766400) as Hlt by (now apply Pos2Z.pos_lt_pos).
           rewrite Hmz in Hlt. clear - Hlt.
           change (2 ^ 46) with 70368744177664 in Hlt. lia.
        -- symmetry. now apply of_Z_small.
      * exists 100. split; [lia|]. now rewrite of_Z_hundred.
    + exists (Zpos p). split.
      * assert (2 ^ d <= 2 ^ 6) as Hp by (apply Z.pow_le_mono_r; clear - He; lia).
        change (2 ^ 6) with 64 in Hp. clear - Hp Hb. lia.
      * symmetry. now apply of_Z_small.
    + exists 100. split; [lia|]. now rewrite of_Z_hundred.
  - destruct (clip_rounded _ _ Hr) as [E|E]; unfold of_Z, binary_normalize at 1;
      rewrite E; [exists 0|exists 100]; (split; [lia|reflexivity]).
Qed.

(** Rounding to an integer and clipping to [0, 100] gives the float of an
    integer between 0 and 100, whatever number comes in. *)
Lemma clip_round_int x :
  is_nan x = false ->
  exists z, 0 <= z <= 100 /\ np_clip (np_round x) zero (lit 100 1) = of_Z z.
Proof.
  rewrite lit_hundred. intros Hx.
  destruct x as [s|s| |s m e]; try discriminate; unfold np_round.
  - exists 0. split; [lia|apply clip_zero].
  - destruct s; [exists 0|exists 100]; split; try lia; reflexivity.
  - destruct (Z.leb_spec 0 e) as [He|He].
    + destruct s.
      * exists 0. split; [lia|apply clip_negative].
      * exists 100. split; [lia|now apply clip_large].
    + pose proof (round_half_even_nonneg m e) as Hz.
      destruct (round_half_even m e) as [|p|p]; try lia.
      * exists 0. split; [lia|apply clip_zero].
      * destruct s; simpl cond_Zopp.
        -- exists 0. split; [lia|].
           change (of_Z (- Z.pos p)) with (binary_round prec emax true p 0).
           destruct (binary_round_int true p) as [[_ (mz & -> & _)]|[_ Hr]].
           ++ apply clip_negative.
           ++ destruct Hr; reflexivity.
        -- apply clip_of_Z_pos.
Qed.

End F64Facts.

Import F64Facts.

(** * The reference C library functions *)

Module LibmFacts.
Import F64 Libm.

Lemma exp_ref_not_nan x : is_nan x = false -> is_nan (exp_ref x) = false.
Proof.
  destruct x as [s|s| |s m e]; try discriminate; intros _; unfold exp_ref.
  - apply of_ratio_not_nan.
  - now destruct s.
  - destruct (match e with Z0 => _ | Zpos _ => _ | Zneg _ => _ end) as [p q].
    destruct (taylor_horner p q taylor_terms (1%positive, 1%positive)) as [a b].
    destruct s; apply of_ratio_not_nan.
Qed.

Lemma exp_ref_zero s : exp_ref (S754_zero s) = lit 1 1.
Proof. reflexivity. Qed.

Lemma pow_ref_two x : pow_ref x (lit 2 1) = mul x x.
Proof. reflexivity. Qed.

Lemma pow_ref_two_not_nan x : is_nan x = false -> is_nan (pow_ref x (lit 2 1)) = false.
Proof. rewrite pow_ref_two. apply mul_self_not_nan. Qed.

Lemma pow_ref_nan : is_nan (pow_ref S754_nan (lit 1 2)) = true.
Proof. reflexivity. Qed.

End LibmFacts.

Section Scores.
Import F64.

Variable fexp : float -> float.
Variable fpow : float -> float -> float.

Lemma lit_milli : lit 1 1000 = milli.
Proof. vm_compute. reflexivity. Qed.

Lemma np_maximum_floor ctl :
  is_finite ctl = true ->
  exists s m e, np_maximum ctl (lit 1 1000) = S754_finite s m e.
Proof.
  rewrite lit_milli. unfold np_maximum.
  destruct ctl as [s|s| |s m e]; try discriminate; intros _.
  - exists false, 4611686018427388%positive, (-62). reflexivity.
  - destruct (geb _ _ || is_nan _); unfold milli; eauto.
Qed.

Lemma steepness_finite : exists m e, neg FATIGUE_STEEPNESS = S754_finite true m e.
Proof. vm_compute. eauto. Qed.

Lemma lit_finite_1 : exists m e, lit 1 1 = S754_finite false m e.
Proof. vm_compute. eauto. Qed.

Lemma lit_finite_100 : exists m e, lit 100 1 = S754_finite false m e.
Proof. vm_compute. eauto. Qed.

Lemma width_finite : exists m e, READINESS_WIDTH = S754_finite false m e.
Proof. vm_compute. eauto. Qed.

Lemma fatigue_raw_not_nan atl ctl :
  (forall x, is_nan x = false -> is_nan (fexp x) = false) ->
  is_finite atl = true -> is_finite ctl = true ->
  is_nan
    (div (lit 100 1)
       (add (lit 1 1)
          (fexp (mul (neg FATIGUE_STEEPNESS)
                   (sub (div atl (np_maximum ctl (lit 1 1000))) FATIGUE_MIDPOINT)))))
  = false.
Proof.
  intros Hexp Hatl Hctl.
  destruct (np_maximum_floor ctl Hctl) as (s & m & e & ->).
  destruct steepness_finite as (ms & es & ->).
  destruct lit_finite_100 as (mh & eh & ->).
  apply div_finite_by_not_nan, add_not_nan_l.
  { now destruct lit_finite_1 as (m1 & e1 & ->). }
  apply Hexp, mul_finite_not_nan, sub_not_nan_r; [reflexivity|].
  now apply div_not_nan_finite.
Qed.

Lemma readiness_raw_not_nan tsb :
  (forall x, is_nan x = false -> is_nan (fexp x) = false) ->
  (forall x, is_nan x = false -> is_nan (fpow x (lit 2 1)) = false) ->
  is_finite tsb = true ->
  is_nan
    (mul (lit 100 1)
       (fexp (div (neg (fpow (sub tsb READINESS_OPTIMAL_TSB) (lit 2 1))) READINESS_WIDTH)))
  = false.
Proof.
  intros Hexp Hpow Htsb.
  destruct width_finite as (mw & ew & ->).
  destruct lit_finite_100 as (mh & eh & ->).
  apply mul_finite_not_nan, Hexp, div_not_nan_by_finite, neg_not_nan, Hpow.
  apply sub_not_nan_r; [reflexivity|]. now destruct tsb.
Qed.

Lemma to_Z_of_Z_small z : 0 <= z <= 100 -> to_Z (of_Z z) = Some z.
Proof.
  intros Hz.
  assert (List.forallb
            (fun i => match to_Z (of_Z i) with Some j => j =? i | None => false end)
            (range 0 101) = true) as Hall by (vm_compute; reflexivity).
  rewrite List.forallb_forall in Hall.
  assert (In z (range 0 101)) as Hin.
  { unfold range. apply in_map_iff. exists (Z.to_nat z).
    split; [lia|]. apply in_seq. lia. }
  specialize (Hall z Hin).
  destruct (to_Z (of_Z z)) as [j|]; [|discriminate].
  apply Z.eqb_eq in Hall. now subst.
Qed.

Lemma clip_round_score x :
  is_nan x = false ->
  exists z, 0 <= z <= 100 /\
    np_clip (np_round x) zero (lit 100 1) = of_Z z /\
    to_Z (np_clip (np_round x) zero (lit 100 1)) = Some z.
Proof.
  intros Hx. destruct (clip_round_int x Hx) as (z & Hz & E).
  exists z. rewrite E. auto using to_Z_of_Z_small.
Qed.

(** C7.  With an [exp] and a [pow (., 2)] that turn no number into NaN, the
    fatigue score of finite [atl] and [ctl] and the readiness score of a
    finite [tsb] are the floats of integers between 0 and 100. *)
Theorem scores_are_integers_in_range atl ctl tsb :
  (forall x, is_nan x = false -> is_nan (fexp x) = false) ->
  (forall x, is_nan x = false -> is_nan (fpow x (lit 2 1)) = false) ->
  is_finite atl = true -> is_finite ctl = true -> is_finite tsb = true ->
  (exists z, 0 <= z <= 100 /\
     vectorized_fatigue_score fexp atl ctl = of_Z z /\
     to_Z (vectorized_fatigue_score fexp atl ctl) = Some z) /\
  (exists z, 0 <= z <= 100 /\
     vectorized_readiness_score fexp fpow tsb = of_Z z /\
     to_Z (vectorized_readiness_score fexp fpow tsb) = Some z).
Proof.
  intros Hexp Hpow Hatl Hctl Htsb. split.
  - apply clip_round_score, fatigue_raw_not_nan; assumption.
  - apply clip_round_score, readiness_raw_not_nan; assumption.
Qed.

End Scores.

(** * Ordering and clamping *)

Module F64Order.
Import F64.

Lemma ltb_pos m1 e1 m2 e2 :
  ltb (S754_finite false m1 e1) (S754_finite false m2 e2) =
  match e1 ?= e2 with
  | Lt => true
  | Gt => false
  | Eq => Zpos m1 <? Zpos m2
  end.
Proof.
  unfold ltb, SFltb, SFcompare, Z.ltb. simpl (Z.pos m1 ?= Z.pos m2).
  unfold Pos.compare. destruct (e1 ?= e2); reflexivity.
Qed.

Lemma eqb_finite_eq x s m e :
  eqb x (S754_finite s m e) = true -> x = S754_finite s m e.
Proof.
  unfold eqb, SFeqb.
  destruct x as [sx|sx| |sx mx ex]; simpl; try discriminate.
  - destruct s; discriminate.
  - destruct sx; discriminate.
  - destruct sx, s; try discriminate.
    + destruct (Z.compare_spec ex e); try discriminate. subst.
      destruct (Pos.compare_cont Eq mx m) eqn:E; try discriminate.
      apply Pos.compare_eq in E. now subst.
    + destruct (Z.compare_spec ex e); try discriminate. subst.
      destruct (Pos.compare_cont Eq mx m) eqn:E; try discriminate.
      apply Pos.compare_eq in E. now subst.
Qed.

Lemma eqb_zero_is_zero x : eqb x zero = true -> is_zero x = true.
Proof.
  unfold eqb, SFeqb, zero.
  destruct x as [sx|sx| |sx mx ex]; simpl; try discriminate; auto; now destruct sx.
Qed.

Lemma lit_quarter : lit 25 100 = quarter.
Proof. vm_compute. reflexivity. Qed.

Lemma lit_four : lit 4 1 = four.
Proof. vm_compute. reflexivity. Qed.

Ltac order_cases :=
  repeat match goal with
         | H : context [?a ?= ?b] |- _ => destruct (Z.compare_spec a b)
         | H : context [?a <? ?b] |- _ => destruct (Z.ltb_spec a b)
         end;
  try discriminate.

Ltac same_float := f_equal; [apply Pos2Z.inj|]; lia.

Lemma sfltb_pos m1 e1 m2 e2 :
  SFltb (S754_finite false m1 e1) (S754_finite false m2 e2) =
  match e1 ?= e2 with
  | Lt => true
  | Gt => false
  | Eq => Zpos m1 <? Zpos m2
  end.
Proof. apply ltb_pos. Qed.

(** The clip of NumPy, the clamp of the specification and the nested
    [max]/[min] of the inline code on a number that is not NaN. *)
Lemma np_clip_is_clamp x : np_clip x quarter four = clamp x quarter four.
Proof.
  unfold np_clip, clamp, gtb, ltb.
  destruct x as [s|s| |[|] m e]; try (destruct s; reflexivity); try reflexivity.
  cbn [is_nan]. unfold quarter, four.
  destruct (SFltb (S754_finite false 4503599627370496 (-54)) (S754_finite false m e)) eqn:A;
  destruct (SFltb (S754_finite false m e) (S754_finite false 4503599627370496 (-54))) eqn:C;
  destruct (SFltb (S754_finite false 4503599627370496 (-50)) (S754_finite false m e)) eqn:D;
  destruct (SFltb (S754_finite false m e) (S754_finite false 4503599627370496 (-50))) eqn:B;
  cbn [is_nan];
  rewrite ?A, ?B, ?C, ?D; try reflexivity;
  rewrite sfltb_pos in A, B, C, D; order_cases; try lia; try same_float;
  try (symmetry; same_float).
Qed.

Lemma inline_clamp_is_np_clip x :
  is_nan x = false -> py_max quarter (py_min four x) = np_clip x quarter four.
Proof.
  unfold np_clip, py_max, py_min, gtb, ltb.
  destruct x as [s|s| |[|] m e]; try discriminate; intros _;
    try (destruct s; reflexivity); try reflexivity.
  cbn [is_nan]. unfold quarter, four.
  destruct (SFltb (S754_finite false 4503599627370496 (-54)) (S754_finite false m e)) eqn:A;
  destruct (SFltb (S754_finite false m e) (S754_finite false 4503599627370496 (-50))) eqn:B;
  cbn [is_nan];
  rewrite ?A, ?B; try reflexivity;
  rewrite sfltb_pos in A, B; order_cases; try lia.
Qed.

Lemma inline_clamp_nan : py_max quarter (py_min four nan) = four.
Proof. reflexivity. Qed.

End F64Order.

Import F64Order.

(** * Session load and score midpoints *)

Section SessionLoad.
Variable fpow : F64.float -> F64.float -> F64.float.

(** The vectorized session load is the formula of the specification,
    [exertion^1.5 * duration^0.75 * clamp(ratio, 0.25, 4.0)^0.5 * 0.3], on
    every input; the inline computation equals it whenever the power ratio
    is not NaN, and on a NaN power ratio it is the formula at the ratio
    4.0. *)
Lemma session_load_agreement rpe duration power_ratio :
  vectorized_session_load fpow rpe duration power_ratio
    = sessionLoad fpow rpe duration power_ratio
  /\ (F64.is_nan power_ratio = false ->
      inline_session_load fpow rpe duration power_ratio
      = vectorized_session_load fpow rpe duration power_ratio)
  /\ inline_session_load fpow rpe duration F64.nan
     = sessionLoad fpow rpe duration (F64.lit 4 1).
Proof.
  unfold vectorized_session_load, inline_session_load, sessionLoad.
  rewrite !lit_quarter, !lit_four. split; [|split].
  - now rewrite np_clip_is_clamp.
  - intros H. now rewrite inline_clamp_is_np_clip.
  - reflexivity.
Qed.

(** Whatever [pow] is, once it maps a NaN base to NaN the vectorized load of
    a NaN power ratio is NaN. *)
Lemma vectorized_session_load_nan rpe duration :
  F64.is_nan (fpow F64.nan (F64.lit 5 10)) = true ->
  F64.is_nan (vectorized_session_load fpow rpe duration F64.nan) = true.
Proof.
  unfold vectorized_session_load.
  change (F64.np_clip F64.nan (F64.lit 25 100) (F64.lit 4 1)) with F64.nan.
  destruct (fpow F64.nan (F64.lit 5 10)); try discriminate. intros _.
  now destruct (F64.mul (fpow rpe _) (fpow duration _)).
Qed.
End SessionLoad.

(** C6.  The inline computation misses what the vectorized one does on a
    NaN power ratio, which a base power of 0.0 produces ([0.0 / 0.0]):
    Python's [max(0.25, min(4.0, nan))] is 4.0, where [numpy.clip] keeps
    the NaN.  At exertion 6 and duration 20 the vectorized load is the
    formula of the specification and is NaN, while the inline load is the
    load at the ratio 4.0 and is not NaN; this holds of the inline load on
    a NaN ratio for every exertion and duration, and away from NaN the two
    computations agree. *)
Theorem inline_session_load_nan_slip :
  F64.div (F64.mul (F64.mul F64.zero (F64.lit 1 1))
             (F64.add (F64.lit 1 1) (F64.lit 1 100))) F64.zero = F64.nan /\
  vectorized_session_load Libm.pow_ref (F64.lit 6 1) (F64.lit 20 1) F64.nan
  = sessionLoad Libm.pow_ref (F64.lit 6 1) (F64.lit 20 1) F64.nan /\
  F64.is_nan (vectorized_session_load Libm.pow_ref (F64.lit 6 1) (F64.lit 20 1) F64.nan)
  = true /\
  inline_session_load Libm.pow_ref (F64.lit 6 1) (F64.lit 20 1) F64.nan
  = vectorized_session_load Libm.pow_ref (F64.lit 6 1) (F64.lit 20 1) (F64.lit 4 1) /\
  F64.is_nan (inline_session_load Libm.pow_ref (F64.lit 6 1) (F64.lit 20 1) F64.nan)
  = false /\
  (forall fpow rpe duration,
     inline_session_load fpow rpe duration F64.nan
     = vectorized_session_load fpow rpe duration (F64.lit 4 1)) /\
  (forall fpow rpe duration power_ratio,
     F64.is_nan power_ratio = false ->
     inline_session_load fpow rpe duration power_ratio
     = vectorized_session_load fpow rpe duration power_ratio).
Proof.
  assert (forall fpow rpe duration,
            inline_session_load fpow rpe duration F64.nan
            = vectorized_session_load fpow rpe duration (F64.lit 4 1)) as Hslip.
  { intros fpow rpe duration.
    destruct (session_load_agreement fpow rpe duration F64.nan) as (_ & _ & ->).
    destruct (session_load_agreement fpow rpe duration (F64.lit 4 1)) as (-> & _).
    reflexivity. }
  split; [vm_compute; reflexivity|].
  split;
    [exact (proj1 (session_load_agreement Libm.pow_ref (F64.lit 6 1) (F64.lit 20 1)
                     F64.nan))|].
  split; [vm_compute; reflexivity|].
  split; [exact (Hslip Libm.pow_ref (F64.lit 6 1) (F64.lit 20 1))|].
  split; [vm_compute; reflexivity|].
  split; [exact Hslip|].
  intros fpow rpe duration power_ratio H.
  destruct (session_load_agreement fpow rpe duration power_ratio) as (_ & Hagree & _).
  exact (Hagree H).
Qed.

Section Midpoints.
Variable fexp : F64.float -> F64.float.
Variable fpow : F64.float -> F64.float -> F64.float.

Ltac eval_arg f :=
  match goal with
  | |- context [f ?a] => let v := eval vm_compute in a in change a with v
  end.

(** C8.  With [exp (-0) = 1] and [pow (0, 2) = 0]: when
    [atl / max(ctl, 0.001)] equals 1.15 the fatigue score is 50, and when
    [tsb] equals 20 the readiness score is 100. *)
Theorem score_midpoints atl ctl tsb :
  fexp (S754_zero true) = F64.lit 1 1 ->
  fpow F64.zero (F64.lit 2 1) = F64.zero ->
  F64.eqb (F64.div atl (F64.np_maximum ctl (F64.lit 1 1000))) FATIGUE_MIDPOINT = true ->
  F64.eqb tsb READINESS_OPTIMAL_TSB = true ->
  vectorized_fatigue_score fexp atl ctl = F64.of_Z 50 /\
  vectorized_readiness_score fexp fpow tsb = F64.of_Z 100.
Proof.
  intros Hexp Hpow Hacwr Htsb.
  apply eqb_finite_eq in Hacwr. apply eqb_finite_eq in Htsb. split.
  - unfold vectorized_fatigue_score. rewrite Hacwr.
    eval_arg fexp. rewrite Hexp. vm_compute. reflexivity.
  - unfold vectorized_readiness_score. rewrite Htsb.
    match goal with
    | |- context [fpow ?a ?b] =>
        let v := eval vm_compute in a in change a with v
    end.
    change (S754_zero false) with F64.zero. rewrite Hpow.
    eval_arg fexp. rewrite Hexp. vm_compute. reflexivity.
Qed.
End Midpoints.

Lemma score_midpoints_witness :
  vectorized_fatigue_score Libm.exp_ref (F64.lit 115 100) (F64.lit 1 1) = F64.of_Z 50 /\
  vectorized_readiness_score Libm.exp_ref Libm.pow_ref (F64.lit 20 1) = F64.of_Z 100.
Proof.
  apply (score_midpoints Libm.exp_ref Libm.pow_ref); vm_compute; reflexivity.
Defined.

Lemma scores_are_integers_in_range_witness :
  (exists z, 0 <= z <= 100 /\
     vectorized_fatigue_score Libm.exp_ref F64.zero F64.zero = F64.of_Z z /\
     F64.to_Z (vectorized_fatigue_score Libm.exp_ref F64.zero F64.zero) = Some z) /\
  (exists z, 0 <= z <= 100 /\
     vectorized_readiness_score Libm.exp_ref Libm.pow_ref (F64.lit 20 1) = F64.of_Z z /\
     F64.to_Z (vectorized_readiness_score Libm.exp_ref Libm.pow_ref (F64.lit 20 1))
       = Some z).
Proof.
  apply (scores_are_integers_in_range Libm.exp_ref Libm.pow_ref).
  - exact LibmFacts.exp_ref_not_nan.
  - exact LibmFacts.pow_ref_two_not_nan.
  - reflexivity.
  - reflexivity.
  - vm_compute. reflexivity.
Defined.

(** * Week positions *)

Lemma list_ascii_app (a b : string) :
  list_ascii_of_string (a +:+ b) = list_ascii_of_string a ++ list_ascii_of_string b.
Proof. induction a as [|c a IH]; simpl; [reflexivity|now rewrite IH]. Qed.

Lemma percent_prefix_app s : percent_prefix (s +:+ "%") = Some s.
Proof.
  unfold percent_prefix. rewrite list_ascii_app. simpl list_ascii_of_string.
  rewrite rev_unit. simpl. now rewrite rev_involutive, string_of_list_ascii_of_string.
Qed.

Lemma percent_not_marker s :
  String.eqb (s +:+ "%") "first" = false /\ String.eqb (s +:+ "%") "last" = false.
Proof.
  pose proof (percent_prefix_app s) as H.
  split; apply String.eqb_neq; intros E; rewrite E in H; discriminate H.
Qed.

Lemma resolve_percent s total_weeks :
  resolve_week_position (PStr (s +:+ "%")) total_weeks =
  rbind (PyFloat.py_float s) (fun f =>
    let percentage := F64.div f (F64.lit 100 1) in
    if F64.eqb percentage F64.zero then Ok 1
    else rbind (F64.of_int total_weeks) (fun tw =>
         rbind (F64.py_round (F64.mul percentage tw)) (fun r =>
         Ok (Z.max 1 (Z.min total_weeks (r + 1)))))).
Proof.
  unfold resolve_week_position.
  destruct (percent_not_marker s) as [-> ->].
  now rewrite percent_prefix_app.
Qed.

(** C1 (as amended).  A position that is neither an integer, nor "first" or
    "last", nor a string ending in a percent sign resolves to 1 without
    raising; an ASCII string ending in a percent sign whose prefix [float]
    rejects makes the call raise the same exception instead of returning
    1. *)
Theorem resolve_unrecognised_default position total_weeks s e :
  (unrecognised position -> resolve_week_position position total_weeks = Ok 1) /\
  (ascii_only s -> PyFloat.py_float s = Raise e ->
   resolve_week_position (PStr (s +:+ "%")) total_weeks = Raise e).
Proof.
  split.
  - destruct position as [ |b|z|f|str|id]; simpl; try tauto; try reflexivity.
    intros (Hf & Hl & Hp).
    apply String.eqb_neq in Hf, Hl. now rewrite Hf, Hl, Hp.
  - intros _ H. now rewrite resolve_percent, H.
Qed.

Lemma resolve_unrecognised_default_witness :
  unrecognised PNone /\ ascii_only "abc" /\
  PyFloat.py_float "abc" = Raise ValueError /\
  resolve_week_position PNone 12 = Ok 1 /\
  resolve_week_position (PStr "abc%") 12 = Raise ValueError.
Proof.
  assert (ascii_only "abc") as Hascii by (repeat constructor).
  destruct (resolve_unrecognised_default PNone 12 "abc" ValueError) as [H1 H2].
  split; [exact I|]. split; [exact Hascii|]. split; [reflexivity|].
  split; [apply H1; exact I|apply H2; [exact Hascii|reflexivity]].
Defined.

(** C1, counterexample: the position "abc%" raises [ValueError]; it does not
    resolve to 1. *)
Lemma resolve_malformed_percent_raises :
  resolve_week_position (PStr "abc%") 12 = Raise ValueError /\
  resolve_week_position (PStr "abc%") 12 <> Ok 1.
Proof. split; [reflexivity|discriminate]. Qed.

Lemma mul_zero_finite x y :
  F64.is_zero x = true -> F64.is_finite (F64.mul x y) = true ->
  F64.py_round (F64.mul x y) = Ok 0.
Proof.
  destruct x as [sx|sx| |sx mx ex]; try discriminate; intros _.
  destruct y as [sy|sy| |sy my ey]; try discriminate; reflexivity.
Qed.

Lemma py_round_finite x :
  F64.is_finite x = true -> exists r, F64.py_round x = Ok r.
Proof. destruct x; try discriminate; simpl; eauto. Qed.

(** C10 (as amended).  For [total_weeks >= 1]: "first" resolves to 1, "last"
    to [total_weeks], "0%" to 1; and an ASCII string "p%" with [p > 0]
    resolves to [round ((p / 100) * total_weeks) + 1] clamped into
    [1, total_weeks] whenever that binary64 product is finite. *)
Theorem resolve_markers_and_percent total_weeks s p n :
  1 <= total_weeks ->
  resolve_week_position (PStr "first") total_weeks = Ok 1 /\
  resolve_week_position (PStr "last") total_weeks = Ok total_weeks /\
  resolve_week_position (PStr "0%") total_weeks = Ok 1 /\
  (ascii_only s -> PyFloat.py_float s = Ok p -> F64.gtb p F64.zero = true ->
   F64.of_int total_weeks = Ok n ->
   F64.is_finite (F64.mul (F64.div p (F64.lit 100 1)) n) = true ->
   exists r,
     F64.py_round (F64.mul (F64.div p (F64.lit 100 1)) n) = Ok r /\
     resolve_week_position (PStr (s +:+ "%")) total_weeks
       = Ok (Z.max 1 (Z.min total_weeks (r + 1))) /\
     1 <= Z.max 1 (Z.min total_weeks (r + 1)) <= total_weeks).
Proof.
  intros HN. repeat split; try reflexivity.
  intros _ Hp _ Hn Hfin.
  destruct (py_round_finite _ Hfin) as [r Hr].
  exists r. split; [exact Hr|]. split; [|lia].
  rewrite resolve_percent, Hp. simpl rbind. cbv zeta.
  destruct (F64.eqb (F64.div p (F64.lit 100 1)) F64.zero) eqn:Hz.
  - apply eqb_zero_is_zero in Hz.
    rewrite (mul_zero_finite _ _ Hz Hfin) in Hr. injection Hr as <-.
    f_equal. lia.
  - rewrite Hn. simpl rbind. rewrite Hr. reflexivity.
Qed.

Lemma resolve_markers_and_percent_witness :
  1 <= 12 /\ ascii_only "33.3333" /\
  resolve_week_position (PStr "first") 12 = Ok 1 /\
  resolve_week_position (PStr "last") 12 = Ok 12 /\
  resolve_week_position (PStr "0%") 12 = Ok 1 /\
  resolve_week_position (PStr "33.3333%") 12 = Ok 5.
Proof.
  assert (1 <= 12) as HN by lia.
  destruct (resolve_markers_and_percent 12 "33.3333"
              (S754_finite false 4691244920594655 (-47))
              (S754_finite false 6755399441055744 (-49)) HN)
    as (H1 & H2 & H3 & H4).
  split; [exact HN|]. split; [repeat constructor|].
  split; [exact H1|split; [exact H2|split; [exact H3|]]].
  destruct H4 as (r & Hr & Hres & _);
    [repeat constructor|vm_compute; reflexivity ..|].
  change (PStr "33.3333%") with (PStr ("33.3333" +:+ "%")).
  rewrite Hres. vm_compute in Hr. injection Hr as <-. reflexivity.
Defined.

(** C10, counterexample: "1e308%" is a percentage with [p > 0], and with
    1000 weeks the call raises [OverflowError]. *)
Lemma resolve_percent_overflow_raises :
  PyFloat.py_float "1e308" = Ok (S754_finite false 5010420900022432 971) /\
  resolve_week_position (PStr "1e308%") 1000 = Raise OverflowError.
Proof. split; vm_compute; reflexivity. Qed.

(** ** What [float] reads is ASCII

    The model of [float] returns a number only on a string of ASCII
    characters, so a statement whose hypothesis is that a position resolves
    says nothing of a percentage outside ASCII. *)

Section ReadsAscii.
Import PyFloat.

Lemma space_ascii c : is_space c = true -> ascii_char c.
Proof.
  unfold is_space, ascii_char. intros H.
  apply orb_true_iff in H as [H|H].
  - apply andb_true_iff in H as [_ H]. apply Z.leb_le in H. lia.
  - apply Z.eqb_eq in H. lia.
Qed.

Lemma digit_ascii c : is_digit c = true -> ascii_char c.
Proof.
  unfold is_digit, ascii_char. intros H.
  apply andb_true_iff in H as [_ H]. apply Z.leb_le in H. lia.
Qed.

Lemma lower_ascii c : ascii_char (lower c) -> ascii_char c.
Proof.
  unfold ascii_char, lower.
  destruct (_ && _) eqn:E; [|auto].
  intros _. apply andb_true_iff in E as [_ H]. apply Z.leb_le in H. lia.
Qed.

Lemma lstrip_ascii l : Forall ascii_char (lstrip l) -> Forall ascii_char l.
Proof.
  induction l as [|c t IH]; [auto|]. cbn [lstrip].
  destruct (is_space c) eqn:E; [|auto].
  intros H. constructor; [now apply space_ascii|auto].
Qed.

Lemma strip_ascii l : Forall ascii_char (strip l) -> Forall ascii_char l.
Proof.
  unfold strip. intros H.
  apply lstrip_ascii. apply Forall_rev in H. rewrite rev_involutive in H.
  apply lstrip_ascii in H. apply Forall_rev in H. now rewrite rev_involutive in H.
Qed.

Lemma drop_underscores_ascii l : forall prev l',
  drop_underscores prev l = Some l' -> Forall ascii_char l' -> Forall ascii_char l.
Proof.
  induction l as [|c t IH]; intros prev l'; cbn [drop_underscores]; [auto|].
  destruct (is_underscore c) eqn:Eu.
  - destruct (is_digit prev); [|discriminate]. intros H Hl'.
    constructor; [|eauto].
    unfold is_underscore in Eu. apply Z.eqb_eq in Eu. unfold ascii_char. lia.
  - destruct (is_underscore prev && negb (is_digit c)); [discriminate|].
    destruct (drop_underscores c t) as [r|] eqn:Er; [|discriminate].
    cbn [option_map]. intros [= <-] Hl'. inversion Hl'; subst.
    constructor; eauto.
Qed.

Lemma read_sign_ascii l : Forall ascii_char (read_sign l).2 -> Forall ascii_char l.
Proof.
  destruct l as [|c t]; [auto|]. cbn [read_sign].
  destruct (Z.eqb_spec (code c) 45) as [E|_];
    [cbn [snd]; intros H; constructor; [unfold ascii_char; lia|exact H]|].
  destruct (Z.eqb_spec (code c) 43) as [E|_];
    [cbn [snd]; intros H; constructor; [unfold ascii_char; lia|exact H]|].
  auto.
Qed.

Lemma read_digits_ascii l : forall acc n,
  Forall ascii_char (read_digits l acc n).2 -> Forall ascii_char l.
Proof.
  induction l as [|c t IH]; intros acc n; [auto|]. cbn [read_digits].
  destruct (is_digit c) eqn:E; [|auto].
  intros H. constructor; [now apply digit_ascii|eauto].
Qed.

Lemma read_decimal_ascii l v : read_decimal l = Some v -> Forall ascii_char l.
Proof.
  unfold read_decimal.
  destruct (read_digits l 0 0) as [[ip ni] r1] eqn:E1.
  assert (Forall ascii_char r1 -> Forall ascii_char l) as H1
    by (intros H; apply (read_digits_ascii l 0 0); now rewrite E1).
  set (second := match r1 with
                 | c :: t => if code c =? 46 then read_digits t ip 0 else (ip, 0, r1)
                 | [] => (ip, 0, r1)
                 end).
  destruct second as [[m nf] r2] eqn:E2.
  assert (Forall ascii_char r2 -> Forall ascii_char r1) as H2.
  { unfold second in E2. destruct r1 as [|c t]; [now injection E2 as _ _ <-|].
    destruct (Z.eqb_spec (code c) 46) as [Ec|_]; [|now injection E2 as _ _ <-].
    intros H. constructor; [unfold ascii_char; lia|].
    apply (read_digits_ascii t ip 0). now rewrite E2. }
  destruct (ni + nf =? 0); [discriminate|].
  destruct r2 as [|c t]; [intros _; apply H1, H2; constructor|].
  destruct (Z.eqb_spec (code (lower c)) 101) as [Ec|_]; [|discriminate].
  destruct (read_sign t) as [es t'] eqn:Es.
  destruct (read_digits t' 0 0) as [[ev ne] r3] eqn:E3.
  destruct r3; [|discriminate]. intros _.
  apply H1, H2. constructor.
  - apply lower_ascii. unfold ascii_char. lia.
  - apply read_sign_ascii. rewrite Es. cbn [snd].
    apply (read_digits_ascii t' 0 0). rewrite E3. constructor.
Qed.

Lemma py_float_reads_ascii s f : py_float s = Ok f -> ascii_only s.
Proof.
  unfold py_float, ascii_only.
  change (fun c : ascii => code c < 128) with ascii_char.
  destruct (drop_underscores _ _) as [l|] eqn:Ed; [|discriminate].
  destruct (read_sign l) as [sg body] eqn:Es.
  intros H. apply strip_ascii. eapply drop_underscores_ascii; [exact Ed|].
  apply read_sign_ascii. rewrite Es. cbn [snd].
  assert (forall word : string,
            string_of_list_ascii (map lower body) = word ->
            Forall ascii_char (list_ascii_of_string word) ->
            Forall ascii_char body) as Hword.
  { intros word <- Hw. rewrite list_ascii_of_string_of_list_ascii in Hw.
    clear - Hw. induction body as [|c t IH]; [constructor|].
    inversion Hw; subst. constructor; [now apply lower_ascii|auto]. }
  destruct (String.eqb_spec (string_of_list_ascii (map lower body)) "inf") as [E|_];
    [eapply Hword; [exact E|repeat constructor]|].
  destruct (String.eqb_spec (string_of_list_ascii (map lower body)) "infinity") as [E|_];
    [eapply Hword; [exact E|repeat constructor]|].
  cbn [orb] in H.
  destruct (String.eqb_spec (string_of_list_ascii (map lower body)) "nan") as [E|_];
    [eapply Hword; [exact E|repeat constructor]|].
  destruct (read_decimal body) as [[m e]|] eqn:Er; [|discriminate].
  eapply read_decimal_ascii. exact Er.
Qed.

End ReadsAscii.

(** A percentage that resolves is an ASCII string. *)
Lemma resolved_percent_ascii s total_weeks r :
  resolve_week_position (PStr (s +:+ "%")) total_weeks = Ok r -> ascii_only s.
Proof.
  rewrite resolve_percent.
  destruct (PyFloat.py_float s) as [f|e] eqn:E; [|discriminate].
  intros _. eapply py_float_reads_ascii. exact E.
Qed.

(** * Batches, seeds and smoothing *)

Section Batches.

Lemma sum_Z_app l1 l2 : sum_Z (l1 ++ l2) = sum_Z l1 + sum_Z l2.
Proof. induction l1 as [|x l1 IH]; simpl; [reflexivity|rewrite IH; lia]. Qed.

Lemma split_sizes_sum wrap entropy q r workers : forall built,
  0 <= q ->
  sum_Z (map fst (split_batches wrap entropy q r workers built))
  = sum_Z (map (worker_size q r) workers).
Proof.
  induction workers as [|i rest IH]; intros built Hq; simpl; [reflexivity|].
  fold (worker_size q r i).
  assert (0 <= worker_size q r i) as Hs
    by (unfold worker_size; destruct (i <? r); lia).
  destruct (Z.ltb_spec 0 (worker_size q r i)); simpl; rewrite IH by assumption; lia.
Qed.

Lemma split_sizes_in wrap entropy q r workers : forall built a,
  In a (map fst (split_batches wrap entropy q r workers built)) ->
  a = q \/ a = q + 1.
Proof.
  induction workers as [|i rest IH]; intros built a; simpl; [tauto|].
  fold (worker_size q r i).
  destruct (Z.ltb_spec 0 (worker_size q r i)); simpl; eauto.
  intros [<-|H']; eauto.
  unfold worker_size. destruct (i <? r); lia.
Qed.

Lemma range_succ n :
  range 0 (Z.of_nat (S n)) = range 0 (Z.of_nat n) ++ [Z.of_nat n].
Proof.
  unfold range. rewrite !Z.sub_0_r, !Nat2Z.id, seq_S, map_app. reflexivity.
Qed.

Lemma worker_sizes_sum q r n :
  0 <= r ->
  sum_Z (map (worker_size q r) (range 0 (Z.of_nat n)))
  = q * Z.of_nat n + Z.min (Z.of_nat n) r.
Proof.
  intros Hr. induction n as [|n IH].
  - simpl. lia.
  - rewrite range_succ, map_app, sum_Z_app, IH. simpl.
    unfold worker_size. destruct (Z.ltb_spec (Z.of_nat n) r); lia.
Qed.

(** C9.  On the parallel path the batch sizes sum to the number of
    simulations and any two differ by at most 1; 17 simulations over 5
    workers give the sizes 4, 4, 3, 3, 3. *)
Theorem batch_sizes_partition num_simulations num_workers :
  500 <= num_simulations -> 1 < num_workers ->
  use_multiprocessing num_simulations num_workers = true /\
  sum_Z (batch_sizes num_simulations num_workers) = num_simulations /\
  (forall a b,
     In a (batch_sizes num_simulations num_workers) ->
     In b (batch_sizes num_simulations num_workers) ->
     Z.abs (a - b) <= 1) /\
  batch_sizes 17 5 = [4; 4; 3; 3; 3].
Proof.
  intros Hn Hw.
  pose proof (Z.div_mod num_simulations num_workers ltac:(lia)) as Hdm.
  pose proof (Z.mod_pos_bound num_simulations num_workers ltac:(lia)) as Hr.
  assert (0 <= num_simulations / num_workers) as Hq by (apply Z.div_pos; lia).
  repeat split.
  - unfold use_multiprocessing.
    apply andb_true_iff. split; [apply Z.leb_le|apply Z.ltb_lt]; lia.
  - unfold batch_sizes, make_batches.
    rewrite split_sizes_sum by assumption.
    replace (range 0 num_workers) with (range 0 (Z.of_nat (Z.to_nat num_workers)))
      by (now rewrite Z2Nat.id by lia).
    rewrite worker_sizes_sum by lia. rewrite Z2Nat.id by lia. lia.
  - intros a b Ha Hb. unfold batch_sizes, make_batches in Ha, Hb.
    apply split_sizes_in in Ha, Hb. lia.
Qed.

Lemma batch_sizes_partition_witness :
  use_multiprocessing 1000 8 = true /\
  sum_Z (batch_sizes 1000 8) = 1000 /\
  (forall a b,
     In a (batch_sizes 1000 8) -> In b (batch_sizes 1000 8) -> Z.abs (a - b) <= 1) /\
  batch_sizes 17 5 = [4; 4; 3; 3; 3].
Proof. apply (batch_sizes_partition 1000 8); lia. Defined.

(** C2.  On the parallel path (500 simulations, 2 workers) each batch
    builds its own seed sequence; when the first yields the word 1 and the
    second the word 0, both batches receive the seed 1, with or without
    32-bit wrap-around. *)
Theorem batch_seeds_collide :
  use_multiprocessing 500 2 = true /\
  forall wrap, batch_seeds wrap colliding_entropy 500 2 = [1; 1].
Proof. split; [reflexivity|]. intros [|]; reflexivity. Qed.

(** Every seed the loop hands out is the word of a fresh seed sequence plus
    the index of the worker. *)
Lemma split_seeds_in wrap entropy q r workers : forall built seed,
  In seed (map snd (split_batches wrap entropy q r workers built)) ->
  exists k i, In i workers /\ seed = seed_add wrap (entropy k) i.
Proof.
  induction workers as [|i rest IH]; intros built seed; simpl; [tauto|].
  destruct (0 <? _); simpl.
  - intros [<-|H]; [eauto|]. destruct (IH _ _ H) as (k & j & Hj & ->); eauto 6.
  - intros H. destruct (IH _ _ H) as (k & j & Hj & ->); eauto 6.
Qed.

Lemma range_bounds lo hi i : In i (range lo hi) -> lo <= i < hi.
Proof.
  unfold range. rewrite in_map_iff. intros (k & <- & Hk).
  apply in_seq in Hk. lia.
Qed.

Lemma range_NoDup lo hi : List.NoDup (range lo hi).
Proof.
  unfold range. apply Finite.Injective_map_NoDup.
  - intros a b. lia.
  - apply seq_NoDup.
Qed.

Lemma seed_add_injective wrap word i j :
  0 <= i < 2 ^ 32 -> 0 <= j < 2 ^ 32 ->
  seed_add wrap word i = seed_add wrap word j -> i = j.
Proof.
  unfold seed_add. change (2 ^ 32) with 4294967296.
  destruct wrap; intros Hi Hj H; [|lia].
  pose proof (Z.div_mod (word + i) 4294967296 ltac:(lia)) as Di.
  pose proof (Z.div_mod (word + j) 4294967296 ltac:(lia)) as Dj.
  rewrite H in Di. lia.
Qed.

Lemma split_derived_NoDup wrap word q r workers : forall built,
  List.NoDup workers -> (forall i, In i workers -> 0 <= i < 2 ^ 32) ->
  List.NoDup (map snd (split_batches wrap (fun _ => word) q r workers built)).
Proof.
  induction workers as [|i rest IH]; intros built Hnd Hb; simpl; [constructor|].
  inversion Hnd as [|? ? Hni Hrest]; subst.
  assert (forall j, In j rest -> 0 <= j < 2 ^ 32) as Hb' by (intros; apply Hb; now right).
  destruct (0 <? _); simpl; [|now apply IH].
  constructor; [|now apply IH].
  intros Hin. apply split_seeds_in in Hin as (k & j & Hj & E).
  apply seed_add_injective in E; [subst; contradiction| |].
  - apply Hb. now left.
  - now apply Hb'.
Qed.

(** With one seed sequence for the whole run, as the specification has it,
    the offsets do keep the seeds apart. *)
Lemma derived_seeds_distinct wrap word num_simulations num_workers :
  num_workers <= 2 ^ 32 ->
  List.NoDup (derived_seeds wrap word num_simulations num_workers).
Proof.
  intros Hw. unfold derived_seeds, batch_seeds, make_batches.
  apply split_derived_NoDup; [apply range_NoDup|].
  intros i Hi. apply range_bounds in Hi. lia.
Qed.

End Batches.

Section Ewma.
Import F64.

Lemma ewma_loop_length decay alpha loads : forall current,
  length (ewma_loop decay alpha current loads) = length loads.
Proof. induction loads; intros; simpl; auto. Qed.

Lemma ewma_loop_step decay alpha loads : forall current i load prev,
  loads !! S i = Some load ->
  ewma_loop decay alpha current loads !! i = Some prev ->
  ewma_loop decay alpha current loads !! S i
  = Some (add (mul prev decay) (mul load alpha)).
Proof.
  induction loads as [|x rest IH]; intros current i load prev Hl Hp; [discriminate|].
  simpl in *. destruct i as [|i].
  - injection Hp as <-. destruct rest as [|y rest']; [discriminate|].
    simpl in *. now injection Hl as ->.
  - eapply IH; eassumption.
Qed.

Variable fexp : float -> float.
Variable fpow : float -> float -> float.

(** C5.  The smoothed series has one state per load; the first is
    [seed * (1 - alpha) + load_0 * alpha] and each later one is
    [state_(i-1) * (1 - alpha) + load_i * alpha]; the acute series uses
    [alpha = 2 / (7 + 1) = 0.25] from the seed 0.0 and the chronic series
    [alpha = 2 / (42 + 1)] from the seed 10.0. *)
Theorem ewma_recurrence loads alpha seed :
  let states := vectorized_ewma loads alpha seed in
  let decay := sub (lit 1 1) alpha in
  length states = length loads /\
  (forall load0, loads !! 0%nat = Some load0 ->
     states !! 0%nat = Some (add (mul seed decay) (mul load0 alpha))) /\
  (forall i load prev, loads !! S i = Some load -> states !! i = Some prev ->
     states !! S i = Some (add (mul prev decay) (mul load alpha))) /\
  ATL_ALPHA = div (lit 2 1) (of_Z (7 + 1)) /\ ATL_ALPHA = lit 25 100 /\
  CTL_ALPHA = div (lit 2 1) (of_Z (42 + 1)) /\
  scores_of_loads fexp fpow loads =
    (let atl := vectorized_ewma loads ATL_ALPHA zero in
     let ctl := vectorized_ewma loads CTL_ALPHA (lit 10 1) in
     (elementwise2 (vectorized_fatigue_score fexp) atl ctl,
      map (vectorized_readiness_score fexp fpow) (elementwise2 sub ctl atl))).
Proof.
  cbv zeta. unfold vectorized_ewma.
  split; [apply ewma_loop_length|].
  split; [destruct loads as [|x rest]; [discriminate|]; simpl; now intros ? [= ->]|].
  split; [apply ewma_loop_step|].
  split; [reflexivity|].
  split; [vm_compute; reflexivity|].
  split; reflexivity.
Qed.

End Ewma.

Lemma ewma_recurrence_witness :
  length (vectorized_ewma [F64.lit 10 1; F64.zero] ATL_ALPHA F64.zero) = 2%nat /\
  vectorized_ewma [F64.lit 10 1; F64.zero] ATL_ALPHA F64.zero !! 0%nat
  = Some (F64.add (F64.mul F64.zero (F64.sub (F64.lit 1 1) ATL_ALPHA))
            (F64.mul (F64.lit 10 1) ATL_ALPHA)) /\
  vectorized_ewma [F64.lit 10 1; F64.zero] ATL_ALPHA F64.zero !! 1%nat
  = Some (F64.add
            (F64.mul
               (F64.add (F64.mul F64.zero (F64.sub (F64.lit 1 1) ATL_ALPHA))
                  (F64.mul (F64.lit 10 1) ATL_ALPHA))
               (F64.sub (F64.lit 1 1) ATL_ALPHA))
            (F64.mul F64.zero ATL_ALPHA)).
Proof.
  destruct (ewma_recurrence Libm.exp_ref Libm.pow_ref
              [F64.lit 10 1; F64.zero] ATL_ALPHA F64.zero) as (Hlen & H0 & Hstep & _).
  split; [exact Hlen|]. split.
  - apply H0. reflexivity.
  - apply Hstep; [reflexivity|]. apply H0. reflexivity.
Defined.

(** * Interpolation of keyframes *)

Section Interpolation.

Context {A : Type}.
Implicit Types (l rs : list (Z * A)) (x r : Z * A).

Lemma insert_by_pos_perm x l : insert_by_pos x l ≡ₚ x :: l.
Proof.
  induction l as [|y t IH]; simpl; [reflexivity|].
  destruct (x.1 <=? y.1); [reflexivity|].
  rewrite IH. apply Permutation_swap.
Qed.

Lemma sort_by_pos_perm l : sort_by_pos l ≡ₚ l.
Proof.
  induction l as [|x t IH]; simpl; [reflexivity|].
  now rewrite insert_by_pos_perm, IH.
Qed.

Lemma insert_by_pos_sorted x l :
  StronglySorted pos_le l -> StronglySorted pos_le (insert_by_pos x l).
Proof.
  induction 1 as [|y t Ht IH Hy]; simpl.
  - repeat constructor.
  - destruct (Z.leb_spec x.1 y.1) as [Hle|Hgt].
    + constructor; [now constructor|].
      constructor; [exact Hle|].
      eapply Forall_impl; [exact Hy|]. unfold pos_le. intros; simpl in *; lia.
    + constructor; [exact IH|].
      rewrite insert_by_pos_perm. constructor; [unfold pos_le; lia|exact Hy].
Qed.

Lemma sort_by_pos_sorted l : StronglySorted pos_le (sort_by_pos l).
Proof.
  induction l as [|x t IH]; simpl; [constructor|now apply insert_by_pos_sorted].
Qed.

(** Stability: among the keyframes of one index the order is kept. *)
Lemma insert_by_pos_stable k x l :
  filter (λ r, r.1 = k) (insert_by_pos x l) = filter (λ r, r.1 = k) (x :: l).
Proof.
  induction l as [|y t IH]; simpl; [reflexivity|].
  destruct (Z.leb_spec x.1 y.1) as [Hle|Hgt]; [reflexivity|].
  rewrite (filter_cons _ y), IH, !filter_cons.
  repeat case_decide; try reflexivity; lia.
Qed.

Lemma sort_by_pos_stable k l :
  filter (λ r, r.1 = k) (sort_by_pos l) = filter (λ r, r.1 = k) l.
Proof.
  induction l as [|x t IH]; simpl; [reflexivity|].
  now rewrite insert_by_pos_stable, !filter_cons, IH.
Qed.

Lemma filter_Forall_iff (P Q : Z * A -> Prop)
    `{!forall r, Decision (P r), !forall r, Decision (Q r)} l :
  Forall (λ r, P r <-> Q r) l -> filter P l = filter Q l.
Proof.
  induction 1 as [|x t Hx Ht IH]; [reflexivity|].
  rewrite !filter_cons, IH. repeat case_decide; tauto.
Qed.

Lemma filter_Forall_not (P : Z * A -> Prop) `{!forall r, Decision (P r)} l :
  Forall (λ r, ~ P r) l -> filter P l = [].
Proof.
  induction 1 as [|x t Hx Ht IH]; [reflexivity|].
  rewrite filter_cons, IH. now rewrite decide_False.
Qed.

(** On a sorted list the scan ends on the last keyframe whose index is at
    most the week. *)
Lemma scan_keyframes_sorted w l : forall cur,
  StronglySorted pos_le l ->
  scan_keyframes l w cur =
  match last (filter (λ r, r.1 <= w) l) with
  | Some r => Some r.2
  | None => cur
  end.
Proof.
  induction l as [|[p kf] t IH]; intros cur Hs; simpl scan_keyframes; [reflexivity|].
  inversion Hs as [|? ? Ht Hall]; subst.
  rewrite filter_cons. simpl.
  destruct (Z.leb_spec p w) as [Hle|Hgt].
  - rewrite decide_True by assumption. rewrite (IH _ Ht), last_cons.
    now destruct (last _).
  - rewrite decide_False by lia.
    rewrite filter_Forall_not; [reflexivity|].
    eapply Forall_impl; [exact Hall|]. unfold pos_le. simpl. intros; lia.
Qed.

Lemma last_filter_sorted k l :
  StronglySorted pos_le l ->
  filter (λ r, r.1 = k) l <> [] ->
  last (filter (λ r, r.1 <= k) l) = last (filter (λ r, r.1 = k) l).
Proof.
  induction 1 as [|x t Ht IH Hx]; intros Hne; [reflexivity|].
  rewrite !filter_cons in *.
  destruct (Z.lt_trichotomy x.1 k) as [Hlt|[Heq|Hgt]].
  - rewrite decide_True by lia. rewrite decide_False in Hne |- * by lia.
    rewrite last_cons, (IH Hne).
    destruct (last (filter (λ r, r.1 = k) t)) eqn:L; [reflexivity|].
    now apply last_None in L.
  - rewrite !decide_True by lia. f_equal. f_equal.
    apply filter_Forall_iff.
    eapply Forall_impl; [exact Hx|]. unfold pos_le. intros; lia.
  - exfalso. rewrite decide_False in Hne by lia. apply Hne.
    apply filter_Forall_not.
    eapply Forall_impl; [exact Hx|]. unfold pos_le. intros; lia.
Qed.

(** The keyframe active in week [w]: the last one, in the order of the
    template, among those of the largest index not above [w]. *)
Lemma scan_sorted_tie_break rs k w kf :
  last (filter (λ r, r.1 = k) rs) = Some (k, kf) ->
  k <= w -> Forall (λ r, ~ (k < r.1 <= w)) rs ->
  scan_keyframes (sort_by_pos rs) w None = Some kf.
Proof.
  intros Hlast Hk Hgap.
  rewrite scan_keyframes_sorted by apply sort_by_pos_sorted.
  rewrite (filter_Forall_iff _ (λ r, r.1 <= k)).
  - rewrite last_filter_sorted, sort_by_pos_stable, Hlast; [reflexivity| |].
    + apply sort_by_pos_sorted.
    + rewrite sort_by_pos_stable. intros E. now rewrite E in Hlast.
  - rewrite sort_by_pos_perm.
    eapply Forall_impl; [exact Hgap|]. intros; simpl in *; lia.
Qed.

End Interpolation.

Lemma lookup_map {A B} (f : A -> B) (l : list A) (i : nat) :
  map f l !! i = f <$> l !! i.
Proof.
  revert i. induction l as [|x t IH]; intros [|i]; simpl; auto.
Qed.

Lemma range_length lo hi : length (range lo hi) = Z.to_nat (hi - lo).
Proof. unfold range. now rewrite length_map, length_seq. Qed.

Lemma range_lookup lo hi (i : nat) :
  (i < Z.to_nat (hi - lo))%nat -> range lo hi !! i = Some (lo + Z.of_nat i).
Proof.
  intros Hi. unfold range. rewrite lookup_map, lookup_seq_lt by assumption.
  reflexivity.
Qed.

Lemma resolve_keyframes_snd weeks total_weeks : forall resolved,
  resolve_keyframes weeks total_weeks = Ok resolved -> map snd resolved = weeks.
Proof.
  induction weeks as [|w rest IH]; intros resolved; simpl.
  - now intros [= <-].
  - destruct (resolve_week_position _ _) as [pos|e]; simpl; [|discriminate].
    destruct (resolve_keyframes rest total_weeks) as [r|e]; simpl; [|discriminate].
    intros [= <-]. simpl. f_equal. now apply IH.
Qed.

Lemma interpolate_weeks_resolved weeks total_weeks default_duration unsorted :
  resolve_keyframes weeks total_weeks = Ok unsorted ->
  interpolate_weeks weeks total_weeks default_duration =
  Ok match sort_by_pos unsorted with
     | [] => map (default_week default_duration) (range 1 (total_weeks + 1))
     | first :: _ =>
         map (emitted_week default_duration (sort_by_pos unsorted) first)
           (range 1 (total_weeks + 1))
     end.
Proof.
  intros H. unfold interpolate_weeks. rewrite H. simpl.
  now destruct (sort_by_pos unsorted).
Qed.

(** C3.  When the keyframe [kf] is the last one, in the order of the
    template, among those that resolve to the index [k], then every week
    [w] from [k] to [total_weeks] below which no larger resolved index lies
    is emitted from the fields of [kf]: its position is [w], and its phase
    name, focus, power multiplier, target exertion, duration and work-rest
    ratio are those of [kf], each with its default when [kf] lacks it. *)
Theorem tie_break_last_wins weeks total_weeks default_duration resolved k w kf :
  resolve_keyframes weeks total_weeks = Ok resolved ->
  last (filter (λ r, r.1 = k) resolved) = Some (k, kf) ->
  1 <= w -> k <= w <= total_weeks ->
  Forall (λ r, ~ (k < r.1 <= w)) resolved ->
  exists wds wd,
    interpolate_weeks weeks total_weeks default_duration = Ok wds /\
    wds !! Z.to_nat (w - 1) = Some wd /\
    position wd = w /\
    phase_name wd = dict_get kf "phaseName" (PStr ("Week " +:+ pretty w)) /\
    focus wd = dict_get kf "focus" (PStr "Volume") /\
    power_multiplier wd = dict_get kf "powerMultiplier" (PFloat (F64.lit 1 1)) /\
    target_rpe wd = dict_get kf "targetRPE" (PInt 6) /\
    duration_minutes wd = dict_get kf "durationMinutes" default_duration /\
    work_rest_ratio wd = dict_get kf "workRestRatio" (PStr "1:1").
Proof.
  intros Hres Hlast Hw1 [Hk Hw] Hgap.
  rewrite (interpolate_weeks_resolved _ _ _ _ Hres).
  pose proof (scan_sorted_tie_break resolved k w kf Hlast Hk Hgap) as Hscan.
  destruct (sort_by_pos resolved) as [|first rest] eqn:Hs; [discriminate Hscan|].
  eexists _, (emitted_week default_duration (first :: rest) first w).
  split; [reflexivity|]. split.
  - rewrite lookup_map, range_lookup by lia. simpl.
    now replace (1 + Z.of_nat (Z.to_nat (w - 1))) with w by lia.
  - unfold emitted_week. rewrite Hscan. cbn [week_of_keyframe position phase_name focus
      power_multiplier target_rpe duration_minutes work_rest_ratio].
    split; [reflexivity|]. split; [reflexivity|]. split; [reflexivity|].
    split; [reflexivity|]. split; [reflexivity|]. split; reflexivity.
Qed.

(** C4 (as amended).  For [total_weeks >= 1] and a keyframe list whose
    positions all resolve without raising, [interpolate_weeks] returns
    exactly [total_weeks] week definitions whose positions are 1, 2, ...,
    [total_weeks] in order; for the empty keyframe list each of them carries
    the defaults. *)
Theorem interpolate_weeks_contiguous weeks total_weeks default_duration resolved :
  1 <= total_weeks ->
  resolve_keyframes weeks total_weeks = Ok resolved ->
  exists wds,
    interpolate_weeks weeks total_weeks default_duration = Ok wds /\
    length wds = Z.to_nat total_weeks /\
    (forall i : nat, (i < Z.to_nat total_weeks)%nat ->
       position <$> wds !! i = Some (Z.of_nat i + 1)) /\
    (weeks = [] ->
     forall i : nat, (i < Z.to_nat total_weeks)%nat ->
       wds !! i =
       Some {| position := Z.of_nat i + 1;
               phase_name := PStr ("Week " +:+ pretty (Z.of_nat i + 1));
               focus := PStr "Volume";
               power_multiplier := PFloat (F64.lit 1 1);
               target_rpe := PInt 6;
               duration_minutes := default_duration;
               work_rest_ratio := PStr "1:1" |}).
Proof.
  intros HN Hres.
  rewrite (interpolate_weeks_resolved _ _ _ _ Hres).
  eexists. split; [reflexivity|].
  assert (Z.to_nat (total_weeks + 1 - 1) = Z.to_nat total_weeks) as E by (f_equal; lia).
  split; [|split].
  - destruct (sort_by_pos resolved); now rewrite length_map, range_length, E.
  - intros i Hi.
    destruct (sort_by_pos resolved);
      rewrite lookup_map, range_lookup by lia; simpl; f_equal; lia.
  - intros -> i Hi. simpl in Hres. injection Hres as <-. simpl.
    rewrite lookup_map, range_lookup by lia. simpl. unfold default_week.
    now replace (1 + Z.of_nat i) with (Z.of_nat i + 1) by lia.
Qed.

Lemma tie_break_last_wins_witness :
  exists wds wd,
    interpolate_weeks
      [keyframe_at (PInt 2) "A"; keyframe_at (PInt 5) "C"; keyframe_at (PInt 2) "B"]
      6 (PInt 20) = Ok wds /\
    wds !! 2%nat = Some wd /\
    position wd = 3 /\ phase_name wd = PStr "B" /\ focus wd = PStr "Volume" /\
    power_multiplier wd = PFloat (F64.lit 1 1) /\ target_rpe wd = PInt 6 /\
    duration_minutes wd = PInt 20 /\ work_rest_ratio wd = PStr "1:1".
Proof.
  apply (tie_break_last_wins
           [keyframe_at (PInt 2) "A"; keyframe_at (PInt 5) "C"; keyframe_at (PInt 2) "B"]
           6 (PInt 20)
           [(2, keyframe_at (PInt 2) "A"); (5, keyframe_at (PInt 5) "C");
            (2, keyframe_at (PInt 2) "B")] 2 3 (keyframe_at (PInt 2) "B")).
  - reflexivity.
  - reflexivity.
  - lia.
  - lia.
  - repeat constructor; simpl; lia.
Defined.

Lemma interpolate_weeks_contiguous_witness :
  exists wds,
    interpolate_weeks [keyframe_at (PStr "first") "A"] 4 (PInt 20) = Ok wds /\
    length wds = 4%nat.
Proof.
  destruct (interpolate_weeks_contiguous [keyframe_at (PStr "first") "A"] 4 (PInt 20)
              [(1, keyframe_at (PStr "first") "A")])
    as (wds & H & Hlen & _); [lia|reflexivity|].
  exists wds. split; [exact H|exact Hlen].
Defined.

(** C4, counterexample: with one keyframe at position "abc%" and one week,
    [interpolate_weeks] raises [ValueError] and returns no list. *)
Lemma interpolate_weeks_malformed_percent_raises :
  interpolate_weeks [keyframe_at (PStr "abc%") "A"] 1 (PInt 20) = Raise ValueError /\
  ~ exists wds, interpolate_weeks [keyframe_at (PStr "abc%") "A"] 1 (PInt 20) = Ok wds.
Proof.
  assert (interpolate_weeks [keyframe_at (PStr "abc%") "A"] 1 (PInt 20) = Raise ValueError)
    as E by reflexivity.
  split; [exact E|]. intros [wds H]. rewrite E in H. discriminate H.
Qed.

(** * The simulation of one trial *)

Section SimulationFacts.

Variable fexp : F64.float -> F64.float.
Variable fpow : F64.float -> F64.float -> F64.float.
Variable rng : Type.
Variable rng_integers : Z -> Z -> Z -> rng -> result (list Z * rng).
Variable rng_choice : Z -> Z -> rng -> result (list nat * rng).
Variable rng_uniform : F64.float -> F64.float -> rng -> F64.float * rng.

(** Whatever the draws, the scores a trial returns are those of its daily
    loads, smoothed with the two constants of the program. *)
Lemma run_single_simulation_fast_scores num_weeks num_days base_power
    power_mult target_rpe duration g out g' :
  run_single_simulation_fast fexp fpow rng rng_integers rng_choice rng_uniform
    num_weeks num_days base_power power_mult target_rpe duration g = Ok (out, g') ->
  exists daily_loads, out = scores_of_loads fexp fpow daily_loads.
Proof.
  unfold run_single_simulation_fast, bind, lift, ret, rmap.
  destruct (rng_integers 2 5 num_weeks g) as [[spw g1]|e]; simpl; [|discriminate].
  destruct (num_days <? 0); simpl; [discriminate|].
  match goal with
  | |- context [simulate_weeks ?a ?b ?c ?d ?e ?f ?g ?h ?i ?j ?k ?l] =>
      destruct (simulate_weeks a b c d e f g h i j k l) as [[loads g2]|e']; simpl;
        [|discriminate]
  end.
  intros [= <- <-]. now exists loads.
Qed.

End SimulationFacts.

(** The keyframes of [test_interpolation.py] at 6 and at 18 weeks. *)
Example test_interpolation_positions :
  map (fun p => resolve_week_position (PStr p) 6) ["0%"; "33.3333%"; "66.6666%"]
    = [Ok 1; Ok 3; Ok 5] /\
  map (fun p => resolve_week_position (PStr p) 18) ["0%"; "33.3333%"; "66.6666%"]
    = [Ok 1; Ok 7; Ok 13].
Proof. split; vm_compute; reflexivity. Qed.

Example test_interpolation_phases :
  rmap (map (fun wd => (position wd, phase_name wd)))
    (interpolate_weeks
       [keyframe_at (PStr "0%") "Phase 1"; keyframe_at (PStr "33.3333%") "Phase 2";
        keyframe_at (PStr "66.6666%") "Phase 3"] 6 (PInt 20))
  = Ok [(1, PStr "Phase 1"); (2, PStr "Phase 1"); (3, PStr "Phase 2");
        (4, PStr "Phase 2"); (5, PStr "Phase 3"); (6, PStr "Phase 3")].
Proof. vm_compute. reflexivity. Qed.

(** * More on week positions *)

Lemma percent_prefix_inv s p : percent_prefix s = Some p -> s = p +:+ "%".
Proof.
  unfold percent_prefix. intros H.
  destruct (rev (list_ascii_of_string s)) as [|c r] eqn:E; [discriminate|].
  destruct (Ascii.eqb_spec c "%"); [subst c|discriminate].
  injection H as <-.
  rewrite <- (string_of_list_ascii_of_string s), <- (rev_involutive (list_ascii_of_string s)), E.
  simpl rev. clear E.
  generalize (rev r). intros l. induction l as [|a l IH]; simpl; [reflexivity|].
  now rewrite IH.
Qed.

Lemma eqb_zero_iff x : F64.eqb x F64.zero = F64.is_zero x.
Proof. destruct x as [s|s| |s m e]; try reflexivity; now destruct s. Qed.

(** X1.  Whatever a percentage resolves to lies within the program, from week 1
    to the last week. *)
Theorem percent_position_in_range s p total_weeks r :
  percent_prefix s = Some p -> 1 <= total_weeks ->
  resolve_week_position (PStr s) total_weeks = Ok r ->
  1 <= r <= total_weeks.
Proof.
  intros Hp HN. apply percent_prefix_inv in Hp. subst s.
  rewrite resolve_percent.
  destruct (PyFloat.py_float p) as [f|e]; simpl; [|discriminate].
  destruct (F64.eqb _ _); [intros [= <-]; lia|].
  destruct (F64.of_int total_weeks) as [n|e]; simpl; [|discriminate].
  destruct (F64.py_round _) as [k|e]; simpl; [|discriminate].
  intros [= <-]. lia.
Qed.

Lemma percent_position_in_range_witness :
  percent_prefix "-250%" = Some "-250"%string /\ 1 <= 12 /\
  resolve_week_position (PStr "-250%") 12 = Ok 1 /\ 1 <= 1 <= 12.
Proof.
  assert (resolve_week_position (PStr "-250%") 12 = Ok 1) as E by (vm_compute; reflexivity).
  split; [reflexivity|]. split; [lia|]. split; [exact E|].
  apply (percent_position_in_range "-250%" "-250" 12 1); [reflexivity|lia|exact E].
Defined.

(** X2.  When an ASCII percentage resolves and when it raises: it resolves
    exactly when [float] reads its prefix and either the hundredth of that
    number is a zero, or the number of weeks converts to a float and the
    product of the two is finite. *)
Theorem percent_returns_iff s total_weeks :
  ascii_only s ->
  (exists r, resolve_week_position (PStr (s +:+ "%")) total_weeks = Ok r) <->
  (exists f, PyFloat.py_float s = Ok f /\
     (F64.is_zero (F64.div f (F64.lit 100 1)) = true \/
      exists n, F64.of_int total_weeks = Ok n /\
        F64.is_finite (F64.mul (F64.div f (F64.lit 100 1)) n) = true)).
Proof.
  intros _. rewrite resolve_percent. split.
  - intros [r H]. destruct (PyFloat.py_float s) as [f|e]; simpl in H; [|discriminate].
    exists f. split; [reflexivity|].
    rewrite eqb_zero_iff in H.
    destruct (F64.is_zero _); [now left|right].
    destruct (F64.of_int total_weeks) as [n|e]; simpl in H; [|discriminate].
    exists n. split; [reflexivity|].
    now destruct (F64.mul _ n).
  - intros (f & -> & H). simpl. rewrite eqb_zero_iff.
    destruct (F64.is_zero _); [eauto|].
    destruct H as [H|(n & -> & H)]; [discriminate|]. simpl.
    destruct (py_round_finite _ H) as [k ->]. simpl. eauto.
Qed.

Lemma percent_returns_iff_witness :
  ascii_only "50" /\
  PyFloat.py_float "50" = Ok (F64.of_Z 50) /\
  F64.of_int 12 = Ok (F64.of_Z 12) /\
  exists r, resolve_week_position (PStr "50%") 12 = Ok r.
Proof.
  assert (ascii_only "50") as Hascii by (repeat constructor).
  split; [exact Hascii|]. split; [vm_compute; reflexivity|].
  split; [vm_compute; reflexivity|].
  apply (percent_returns_iff "50" 12 Hascii).
  exists (F64.of_Z 50). split; [vm_compute; reflexivity|].
  right. exists (F64.of_Z 12). split; vm_compute; reflexivity.
Defined.

(** * More on interpolation *)

Section SortFacts.
Context {A : Type}.
Implicit Types (l rs : list (Z * A)) (x r : Z * A).

(** The head of the sorted list is the first keyframe of least index. *)
Lemma insert_by_pos_head x l :
  head (insert_by_pos x l) =
  match head l with
  | Some y => if x.1 <=? y.1 then Some x else Some y
  | None => Some x
  end.
Proof. destruct l as [|y t]; simpl; [reflexivity|]. now destruct (x.1 <=? y.1). Qed.

Lemma sort_by_pos_head l1 x l2 :
  Forall (λ r, x.1 < r.1) l1 -> Forall (λ r, x.1 <= r.1) l2 ->
  head (sort_by_pos (l1 ++ x :: l2)) = Some x.
Proof.
  intros H1 H2. induction H1 as [|y t Hy Ht IH]; simpl.
  - rewrite insert_by_pos_head.
    destruct (head (sort_by_pos l2)) as [z|] eqn:E; [|reflexivity].
    assert (z ∈ l2) as Hz.
    { rewrite <- (sort_by_pos_perm l2). now apply head_Some_elem_of. }
    rewrite Forall_forall in H2. specialize (H2 z Hz).
    destruct (Z.leb_spec x.1 z.1); [reflexivity|lia].
  - rewrite insert_by_pos_head, IH.
    destruct (Z.leb_spec y.1 x.1); [lia|reflexivity].
Qed.

Lemma scan_keyframes_before w l :
  Forall (λ r, w < r.1) l -> scan_keyframes l w None = None.
Proof.
  destruct 1 as [|[p kf] t Hp Ht]; simpl; [reflexivity|].
  simpl in Hp. destruct (Z.leb_spec p w); [lia|reflexivity].
Qed.

(** Whatever the scan finds is a keyframe of the list. *)
Lemma scan_keyframes_elem w l : forall cur kf,
  scan_keyframes l w cur = Some kf ->
  cur = Some kf \/ kf ∈ map snd l.
Proof.
  induction l as [|[p a] t IH]; intros cur kf; simpl; [auto|].
  destruct (p <=? w); [|auto].
  intros H. destruct (IH _ _ H) as [[= ->]|Hin].
  - right. apply elem_of_cons. now left.
  - right. apply elem_of_cons. now right.
Qed.

Lemma NoDup_fst_eq l x y :
  List.NoDup (map fst l) -> x ∈ l -> y ∈ l -> x.1 = y.1 -> x = y.
Proof.
  induction l as [|z t IH]; simpl; intros Hnd Hx Hy E.
  - now apply elem_of_nil in Hx.
  - inversion Hnd as [|? ? Hz Ht]; subst.
    apply elem_of_cons in Hx as [->|Hx]; apply elem_of_cons in Hy as [->|Hy].
    + reflexivity.
    + exfalso. apply Hz. rewrite E. apply in_map. now apply list_elem_of_In.
    + exfalso. apply Hz. rewrite <- E. apply in_map. now apply list_elem_of_In.
    + now apply IH.
Qed.

(** With pairwise distinct indices the sorted list does not depend on the
    order the keyframes come in. *)
Lemma sort_by_pos_permutation l1 l2 :
  List.NoDup (map fst l1) -> l1 ≡ₚ l2 -> sort_by_pos l1 = sort_by_pos l2.
Proof.
  intros Hnd Hp.
  apply (StronglySorted_unique_strong pos_le).
  - intros x1 x2 H1 H2 Hle Hge. unfold pos_le in *.
    rewrite sort_by_pos_perm in H1. rewrite sort_by_pos_perm, <- Hp in H2.
    apply (NoDup_fst_eq l1); auto. lia.
  - apply sort_by_pos_sorted.
  - apply sort_by_pos_sorted.
  - now rewrite !sort_by_pos_perm.
Qed.

End SortFacts.

Lemma resolve_keyframes_cons w rest total_weeks rs :
  resolve_keyframes (w :: rest) total_weeks = Ok rs <->
  exists pos r, resolve_week_position (dict_get w "position" (PInt 1)) total_weeks = Ok pos
    /\ resolve_keyframes rest total_weeks = Ok r /\ rs = (pos, w) :: r.
Proof.
  simpl. split.
  - destruct (resolve_week_position _ _) as [pos|e]; simpl; [|discriminate].
    destruct (resolve_keyframes rest total_weeks) as [r|e]; simpl; [|discriminate].
    intros [= <-]. eauto.
  - intros (pos & r & -> & -> & ->). reflexivity.
Qed.

Lemma resolve_keyframes_permutation weeks weeks' total_weeks :
  weeks ≡ₚ weeks' -> forall rs,
  resolve_keyframes weeks total_weeks = Ok rs ->
  exists rs', resolve_keyframes weeks' total_weeks = Ok rs' /\ rs ≡ₚ rs'.
Proof.
  induction 1 as [|x l l' Hp IH|x y l|l l' l'' Hp1 IH1 Hp2 IH2]; intros rs Hrs.
  - eauto.
  - apply resolve_keyframes_cons in Hrs as (pos & r & Hx & Hr & ->).
    destruct (IH _ Hr) as (r' & Hr' & Hperm).
    exists ((pos, x) :: r'). split; [|now constructor].
    apply resolve_keyframes_cons. eauto.
  - apply resolve_keyframes_cons in Hrs as (py & r & Hy & Hr & ->).
    apply resolve_keyframes_cons in Hr as (px & r' & Hx & Hr' & ->).
    exists ((px, x) :: (py, y) :: r'). split; [|apply Permutation_swap].
    apply resolve_keyframes_cons. exists px, ((py, y) :: r').
    repeat split; auto. apply resolve_keyframes_cons. eauto.
  - destruct (IH1 _ Hrs) as (r1 & H1 & P1).
    destruct (IH2 _ H1) as (r2 & H2 & P2).
    exists r2. split; [exact H2|now rewrite P1].
Qed.

(** X3.  The order of the keyframes in the template does not matter as long as
    no two of them resolve to the same week. *)
Theorem interpolate_weeks_order_irrelevant weeks weeks' total_weeks default_duration resolved :
  resolve_keyframes weeks total_weeks = Ok resolved ->
  List.NoDup (map fst resolved) ->
  weeks ≡ₚ weeks' ->
  interpolate_weeks weeks' total_weeks default_duration
  = interpolate_weeks weeks total_weeks default_duration.
Proof.
  intros Hres Hnd Hperm.
  destruct (resolve_keyframes_permutation _ _ _ Hperm _ Hres) as (rs' & Hres' & Hp).
  rewrite (interpolate_weeks_resolved _ _ _ _ Hres).
  rewrite (interpolate_weeks_resolved _ _ _ _ Hres').
  now rewrite (sort_by_pos_permutation resolved rs' Hnd Hp).
Qed.

Lemma interpolate_weeks_order_irrelevant_witness :
  interpolate_weeks [keyframe_at (PInt 4) "B"; keyframe_at (PStr "first") "A"] 6 (PInt 20)
  = interpolate_weeks [keyframe_at (PStr "first") "A"; keyframe_at (PInt 4) "B"] 6 (PInt 20).
Proof.
  apply (interpolate_weeks_order_irrelevant _ _ 6 (PInt 20)
           [(1, keyframe_at (PStr "first") "A"); (4, keyframe_at (PInt 4) "B")]).
  - reflexivity.
  - repeat constructor; simpl; intros H; repeat destruct H as [H|H]; try discriminate H; auto.
  - apply Permutation_swap.
Defined.

(** X4.  Weeks before the first keyframe take the first keyframe of least
    index: the position of such a week is its own number, and its phase
    name, focus, power multiplier, target exertion, duration and work-rest
    ratio are those of that keyframe, each with its default when the
    keyframe lacks it. *)
Theorem weeks_before_first_keyframe weeks total_weeks default_duration before k kf after w :
  resolve_keyframes weeks total_weeks = Ok (before ++ (k, kf) :: after) ->
  Forall (λ r, k < r.1) before -> Forall (λ r, k <= r.1) after ->
  1 <= w <= total_weeks -> w < k ->
  exists wds wd,
    interpolate_weeks weeks total_weeks default_duration = Ok wds /\
    wds !! Z.to_nat (w - 1) = Some wd /\
    position wd = w /\
    phase_name wd = dict_get kf "phaseName" (PStr ("Week " +:+ pretty w)) /\
    focus wd = dict_get kf "focus" (PStr "Volume") /\
    power_multiplier wd = dict_get kf "powerMultiplier" (PFloat (F64.lit 1 1)) /\
    target_rpe wd = dict_get kf "targetRPE" (PInt 6) /\
    duration_minutes wd = dict_get kf "durationMinutes" default_duration /\
    work_rest_ratio wd = dict_get kf "workRestRatio" (PStr "1:1").
Proof.
  intros Hres Hb Ha Hw Hk.
  rewrite (interpolate_weeks_resolved _ _ _ _ Hres).
  cut (exists wds,
         Ok match sort_by_pos (before ++ (k, kf) :: after) with
            | [] => map (default_week default_duration) (range 1 (total_weeks + 1))
            | first :: _ =>
                map (emitted_week default_duration
                       (sort_by_pos (before ++ (k, kf) :: after)) first)
                  (range 1 (total_weeks + 1))
            end = Ok wds /\
         wds !! Z.to_nat (w - 1) = Some (week_of_keyframe default_duration w kf)).
  { intros (wds & H1 & H2). exists wds, (week_of_keyframe default_duration w kf).
    split; [exact H1|]. split; [exact H2|].
    cbn [week_of_keyframe position phase_name focus power_multiplier target_rpe
           duration_minutes work_rest_ratio].
    split; [reflexivity|]. split; [reflexivity|]. split; [reflexivity|].
    split; [reflexivity|]. split; [reflexivity|]. split; reflexivity. }
  eexists. split; [reflexivity|].
  pose proof (sort_by_pos_head before (k, kf) after Hb Ha) as Hhead.
  assert (scan_keyframes (sort_by_pos (before ++ (k, kf) :: after)) w None = None) as Hscan.
  { apply scan_keyframes_before. rewrite sort_by_pos_perm.
    apply Forall_app. split; [|constructor].
    - eapply Forall_impl; [exact Hb|]. simpl. intros; lia.
    - simpl. lia.
    - eapply Forall_impl; [exact Ha|]. simpl. intros; lia. }
  destruct (sort_by_pos (before ++ (k, kf) :: after)) as [|first rest] eqn:Hs;
    [discriminate Hhead|].
  simpl in Hhead. injection Hhead as ->.
  rewrite lookup_map, range_lookup by lia. simpl. unfold emitted_week.
  replace (1 + Z.of_nat (Z.to_nat (w - 1))) with w by lia.
  now rewrite Hscan.
Qed.

Lemma weeks_before_first_keyframe_witness :
  exists wds wd,
    interpolate_weeks
      [keyframe_at (PInt 5) "C"; keyframe_at (PInt 3) "A"; keyframe_at (PInt 3) "B"]
      6 (PInt 20) = Ok wds /\
    wds !! 0%nat = Some wd /\
    position wd = 1 /\ phase_name wd = PStr "A" /\ focus wd = PStr "Volume" /\
    power_multiplier wd = PFloat (F64.lit 1 1) /\ target_rpe wd = PInt 6 /\
    duration_minutes wd = PInt 20 /\ work_rest_ratio wd = PStr "1:1".
Proof.
  apply (weeks_before_first_keyframe
           [keyframe_at (PInt 5) "C"; keyframe_at (PInt 3) "A"; keyframe_at (PInt 3) "B"]
           6 (PInt 20)
           [(5, keyframe_at (PInt 5) "C")] 3 (keyframe_at (PInt 3) "A")
           [(3, keyframe_at (PInt 3) "B")] 1).
  - reflexivity.
  - repeat constructor; simpl; lia.
  - repeat constructor; simpl; lia.
  - lia.
  - lia.
Defined.

(** X5.  Every week of a template with keyframes is built from one of them:
    the [i]-th week has position [i + 1], and there is a keyframe of the
    template from which its phase name, focus, power multiplier, target
    exertion, duration and work-rest ratio all come, each with its default
    when the keyframe lacks it. *)
Theorem emitted_weeks_come_from_keyframes weeks total_weeks default_duration wds i wd :
  weeks <> [] ->
  interpolate_weeks weeks total_weeks default_duration = Ok wds ->
  wds !! i = Some wd ->
  exists kf, kf ∈ weeks /\
    position wd = Z.of_nat i + 1 /\
    phase_name wd = dict_get kf "phaseName" (PStr ("Week " +:+ pretty (Z.of_nat i + 1))) /\
    focus wd = dict_get kf "focus" (PStr "Volume") /\
    power_multiplier wd = dict_get kf "powerMultiplier" (PFloat (F64.lit 1 1)) /\
    target_rpe wd = dict_get kf "targetRPE" (PInt 6) /\
    duration_minutes wd = dict_get kf "durationMinutes" default_duration /\
    work_rest_ratio wd = dict_get kf "workRestRatio" (PStr "1:1").
Proof.
  intros Hne Hint Hwd.
  cut (exists kf, kf ∈ weeks /\
         wd = week_of_keyframe default_duration (Z.of_nat i + 1) kf).
  { intros (kf & Hin & ->). exists kf. split; [exact Hin|].
    cbn [week_of_keyframe position phase_name focus power_multiplier target_rpe
           duration_minutes work_rest_ratio].
    split; [reflexivity|]. split; [reflexivity|]. split; [reflexivity|].
    split; [reflexivity|]. split; [reflexivity|]. split; reflexivity. }
  destruct (resolve_keyframes weeks total_weeks) as [resolved|e] eqn:Hres;
    [|unfold interpolate_weeks in Hint; rewrite Hres in Hint; discriminate Hint].
  rewrite (interpolate_weeks_resolved _ _ _ _ Hres) in Hint. injection Hint as <-.
  pose proof (resolve_keyframes_snd _ _ _ Hres) as Hsnd.
  assert (forall kf, kf ∈ map snd (sort_by_pos resolved) -> kf ∈ weeks) as Hin.
  { intros kf Hkf. rewrite <- Hsnd.
    apply list_elem_of_In, in_map_iff. apply list_elem_of_In, in_map_iff in Hkf.
    destruct Hkf as (r & <- & Hr). exists r. split; [reflexivity|].
    apply list_elem_of_In. rewrite <- (sort_by_pos_perm resolved).
    now apply list_elem_of_In. }
  destruct (sort_by_pos resolved) as [|first rest] eqn:Hs.
  - exfalso. apply Hne. rewrite <- Hsnd.
    assert (resolved = []) as ->; [|reflexivity].
    apply Permutation_nil. now rewrite <- (sort_by_pos_perm resolved), Hs.
  - rewrite lookup_map in Hwd.
    destruct (range 1 (total_weeks + 1) !! i) as [w|] eqn:Hr; [|discriminate].
    simpl in Hwd. injection Hwd as <-.
    assert (w = Z.of_nat i + 1) as ->.
    { assert (i < length (range 1 (total_weeks + 1)))%nat as Hi
        by (apply lookup_lt_is_Some; eauto).
      rewrite range_length in Hi. rewrite range_lookup in Hr by assumption.
      injection Hr as <-. lia. }
    unfold emitted_week.
    destruct (scan_keyframes (first :: rest) (Z.of_nat i + 1) None) as [kf|] eqn:Hscan.
    + exists kf. split; [|reflexivity].
      apply scan_keyframes_elem in Hscan as [?|?]; [discriminate|]. now apply Hin.
    + exists first.2. split; [|reflexivity].
      apply Hin. simpl. apply elem_of_cons. now left.
Qed.

Lemma emitted_weeks_come_from_keyframes_witness :
  exists wds wd,
    interpolate_weeks [keyframe_at (PStr "first") "A"] 4 (PInt 20) = Ok wds /\
    wds !! 2%nat = Some wd /\
    exists kf, kf ∈ [keyframe_at (PStr "first") "A"] /\
      position wd = 3 /\
      phase_name wd = dict_get kf "phaseName" (PStr "Week 3") /\
      focus wd = dict_get kf "focus" (PStr "Volume").
Proof.
  destruct (interpolate_weeks [keyframe_at (PStr "first") "A"] 4 (PInt 20))
    as [wds|e] eqn:Hint; [|discriminate Hint].
  destruct (wds !! 2%nat) as [wd|] eqn:Hwd;
    [|injection Hint as <-; discriminate Hwd].
  exists wds, wd. split; [reflexivity|]. split; [exact Hwd|].
  destruct (emitted_weeks_come_from_keyframes [keyframe_at (PStr "first") "A"] 4
              (PInt 20) wds 2 wd ltac:(discriminate) Hint Hwd)
    as (kf & Hin & Hpos & Hname & Hfocus & _).
  exists kf. split; [exact Hin|]. split; [exact Hpos|]. split; [exact Hname|exact Hfocus].
Defined.

(** X6.  On keyframes whose string positions are ASCII, [interpolate_weeks]
    raises exactly when some position does, and raises what the first such
    keyframe raises; from zero weeks or fewer it returns the empty list. *)
Theorem interpolate_weeks_outcome weeks total_weeks default_duration :
  Forall ascii_position weeks ->
  ((exists wds, interpolate_weeks weeks total_weeks default_duration = Ok wds) <->
   Forall (λ w, exists pos,
             resolve_week_position (dict_get w "position" (PInt 1)) total_weeks = Ok pos)
     weeks) /\
  (forall before w after e,
     weeks = before ++ w :: after ->
     Forall (λ w, exists pos,
               resolve_week_position (dict_get w "position" (PInt 1)) total_weeks = Ok pos)
       before ->
     resolve_week_position (dict_get w "position" (PInt 1)) total_weeks = Raise e ->
     interpolate_weeks weeks total_weeks default_duration = Raise e) /\
  (total_weeks <= 0 ->
   forall wds, interpolate_weeks weeks total_weeks default_duration = Ok wds -> wds = []).
Proof.
  intros _. split; [|split].
  - split.
    + intros [wds H]. unfold interpolate_weeks in H.
      destruct (resolve_keyframes weeks total_weeks) as [rs|e] eqn:Hres; [|discriminate].
      clear H. revert rs Hres. induction weeks as [|w rest IH]; intros rs Hres; constructor.
      * apply resolve_keyframes_cons in Hres as (pos & r & Hw & _). eauto.
      * apply resolve_keyframes_cons in Hres as (pos & r & _ & Hr & _). eauto.
    + intros H.
      assert (exists rs, resolve_keyframes weeks total_weeks = Ok rs) as [rs Hrs].
      { induction H as [|w rest [pos Hw] Hrest [r Hr]]; [exists []; reflexivity|].
        exists ((pos, w) :: r). apply resolve_keyframes_cons. eauto. }
      rewrite (interpolate_weeks_resolved _ _ _ _ Hrs). eauto.
  - intros before w after e -> Hb Hw. unfold interpolate_weeks.
    assert (resolve_keyframes (before ++ w :: after) total_weeks = Raise e) as ->;
      [|reflexivity].
    induction Hb as [|b rest [pos Hbp] Hrest IH]; simpl.
    + now rewrite Hw.
    + now rewrite Hbp, IH.
  - intros HN wds H. unfold interpolate_weeks in H.
    destruct (resolve_keyframes weeks total_weeks) as [rs|e]; [|discriminate].
    simpl in H. unfold range in H.
    replace (Z.to_nat (total_weeks + 1 - 1)) with 0%nat in H by lia.
    destruct (sort_by_pos rs); now injection H as <-.
Qed.

Lemma interpolate_weeks_outcome_witness :
  Forall ascii_position [keyframe_at (PInt 2) "A"; keyframe_at (PStr "x%") "B";
                         keyframe_at (PStr "inf%") "C"] /\
  interpolate_weeks [keyframe_at (PInt 2) "A"; keyframe_at (PStr "x%") "B";
                     keyframe_at (PStr "inf%") "C"] 6 (PInt 20)
  = Raise ValueError.
Proof.
  assert (Forall ascii_position [keyframe_at (PInt 2) "A"; keyframe_at (PStr "x%") "B";
                                 keyframe_at (PStr "inf%") "C"]) as Hascii.
  { constructor; [exact I|]. constructor; [repeat constructor|].
    constructor; [repeat constructor|constructor]. }
  split; [exact Hascii|].
  destruct (interpolate_weeks_outcome
              [keyframe_at (PInt 2) "A"; keyframe_at (PStr "x%") "B";
               keyframe_at (PStr "inf%") "C"] 6 (PInt 20) Hascii) as (_ & H & _).
  apply (H [keyframe_at (PInt 2) "A"] (keyframe_at (PStr "x%") "B")
           [keyframe_at (PStr "inf%") "C"]).
  - reflexivity.
  - repeat constructor. exists 2. reflexivity.
  - reflexivity.
Defined.

(** * More on the calculations *)

Section CalculationFacts.

Local Set Default Proof Using "Type".
Import F64.

Variable fexp : float -> float.
Variable fpow : float -> float -> float.

(** X7.  Smoothing a timeline equals smoothing its first part and then the
    rest from the last state of the first part. *)
Theorem vectorized_ewma_app l1 l2 alpha initial :
  vectorized_ewma (l1 ++ l2) alpha initial =
  vectorized_ewma l1 alpha initial ++
  vectorized_ewma l2 alpha (default initial (last (vectorized_ewma l1 alpha initial))).
Proof.
  unfold vectorized_ewma. generalize (sub (lit 1 1) alpha). intros decay.
  revert initial. induction l1 as [|x t IH]; intros initial; [reflexivity|].
  cbn [app ewma_loop]. rewrite IH. f_equal. f_equal.
  rewrite last_cons. now destruct (last _).
Qed.

Lemma sfleb_pos m1 e1 m2 e2 :
  SFleb (S754_finite false m1 e1) (S754_finite false m2 e2) =
  match e1 ?= e2 with
  | Lt => true
  | Gt => false
  | Eq => Zpos m1 <=? Zpos m2
  end.
Proof.
  unfold SFleb, SFcompare, Z.leb. simpl (Z.pos m1 ?= Z.pos m2).
  unfold Pos.compare. destruct (e1 ?= e2); reflexivity.
Qed.

Lemma np_clip_finite m e :
  np_clip (S754_finite false m e) quarter four =
  if SFltb (if SFltb quarter (S754_finite false m e)
            then S754_finite false m e else quarter) four
  then if SFltb quarter (S754_finite false m e) then S754_finite false m e else quarter
  else four.
Proof.
  unfold np_clip, gtb, ltb. cbn [is_nan].
  now destruct (SFltb quarter (S754_finite false m e)).
Qed.

Lemma np_clip_high x : geb x four = true -> np_clip x quarter four = four.
Proof.
  unfold geb.
  destruct x as [s|s| |s m e].
  - discriminate.
  - destruct s; [discriminate|reflexivity].
  - discriminate.
  - destruct s; [discriminate|].
    rewrite np_clip_finite. unfold quarter, four. rewrite sfleb_pos. intros H.
    rewrite (sfltb_pos _ (-54) m e).
    destruct (Z.compare_spec (-54) e) as [He|He|He];
      destruct (Z.compare_spec (-50) e) as [He'|He'|He']; try discriminate; try lia.
    + rewrite sfltb_pos.
      destruct (Z.compare_spec e (-50)); try lia.
      destruct (Z.ltb_spec (Z.pos m) 4503599627370496); [|reflexivity].
      apply Z.leb_le in H. lia.
    + rewrite sfltb_pos. destruct (Z.compare_spec e (-50)); try lia. reflexivity.
Qed.

Lemma np_clip_low x : leb x quarter = true -> np_clip x quarter four = quarter.
Proof.
  unfold leb.
  destruct x as [s|s| |s m e].
  - intros _. now destruct s.
  - destruct s; [reflexivity|discriminate].
  - discriminate.
  - destruct s; [reflexivity|].
    rewrite np_clip_finite. unfold quarter, four. rewrite sfleb_pos. intros H.
    rewrite (sfltb_pos _ (-54) m e).
    destruct (Z.compare_spec e (-54)) as [He|He|He];
      destruct (Z.compare_spec (-54) e) as [He'|He'|He']; try discriminate; try lia.
    + destruct (Z.ltb_spec 4503599627370496 (Z.pos m)); [|reflexivity].
      apply Z.leb_le in H. lia.
    + reflexivity.
Qed.

(** X8.  The power ratio saturates: at or above 4 the load is the load at 4, at
    or below 0.25 the load at 0.25. *)
Theorem session_load_saturates rpe duration power_ratio :
  (geb power_ratio (lit 4 1) = true ->
   vectorized_session_load fpow rpe duration power_ratio
   = vectorized_session_load fpow rpe duration (lit 4 1)) /\
  (leb power_ratio (lit 25 100) = true ->
   vectorized_session_load fpow rpe duration power_ratio
   = vectorized_session_load fpow rpe duration (lit 25 100)).
Proof.
  unfold vectorized_session_load. rewrite !lit_quarter, !lit_four. split; intros H.
  - now rewrite (np_clip_high _ H), (np_clip_high four).
  - now rewrite (np_clip_low _ H), (np_clip_low quarter).
Qed.

Lemma np_maximum_floor_below ctl :
  ltb ctl milli = true -> np_maximum ctl milli = milli.
Proof.
  unfold np_maximum, geb, ltb.
  destruct ctl as [s|s| |s m e].
  - reflexivity.
  - destruct s; [reflexivity|discriminate].
  - discriminate.
  - destruct s; [reflexivity|].
    cbn [is_nan]. rewrite orb_false_r. unfold milli.
    rewrite sfltb_pos, sfleb_pos.
    destruct (Z.compare_spec e (-62)) as [He|He|He];
      destruct (Z.compare_spec (-62) e) as [He'|He'|He'];
      try discriminate; try reflexivity; try lia.
    intros Hm. apply Z.ltb_lt in Hm.
    destruct (Z.leb_spec 4611686018427388 (Z.pos m)); [lia|reflexivity].
Qed.

(** X9.  The floor under the chronic load: any chronic load below 0.001, zero
    and negative ones included, scores as 0.001 does. *)
Theorem fatigue_floor atl ctl :
  ltb ctl (lit 1 1000) = true ->
  vectorized_fatigue_score fexp atl ctl
  = vectorized_fatigue_score fexp atl (lit 1 1000).
Proof.
  intros H. unfold vectorized_fatigue_score. rewrite lit_milli in *.
  rewrite (np_maximum_floor_below _ H).
  now replace (np_maximum milli milli) with milli by reflexivity.
Qed.

(** X10.  A NaN is not clipped: it comes out of both scores as a NaN. *)
Theorem nan_scores atl ctl tsb :
  is_nan (fexp nan) = true -> is_nan (fpow nan (lit 2 1)) = true ->
  (is_nan atl = true \/ is_nan ctl = true ->
   is_nan (vectorized_fatigue_score fexp atl ctl) = true) /\
  (is_nan tsb = true -> is_nan (vectorized_readiness_score fexp fpow tsb) = true).
Proof.
  intros Hexp Hpow.
  assert (forall x, is_nan x = true -> x = nan) as Hn by (now destruct x).
  apply Hn in Hexp, Hpow. split.
  - intros H. unfold vectorized_fatigue_score.
    assert (div atl (np_maximum ctl (lit 1 1000)) = nan) as ->.
    { destruct H as [H|H]; apply Hn in H; subst.
      - reflexivity.
      - change (np_maximum nan (lit 1 1000)) with nan. now destruct atl. }
    change (sub nan FATIGUE_MIDPOINT) with nan.
    replace (mul (neg FATIGUE_STEEPNESS) nan) with nan by (vm_compute; reflexivity).
    rewrite Hexp. vm_compute. reflexivity.
  - intros H. apply Hn in H. subst. unfold vectorized_readiness_score.
    change (sub nan READINESS_OPTIMAL_TSB) with nan. rewrite Hpow.
    change (div (neg nan) READINESS_WIDTH) with nan. rewrite Hexp.
    vm_compute. reflexivity.
Qed.

End CalculationFacts.

Lemma session_load_saturates_witness :
  (F64.geb (F64.lit 5 1) (F64.lit 4 1) = true /\
   vectorized_session_load Libm.pow_ref (F64.lit 6 1) (F64.lit 15 1) (F64.lit 5 1)
   = vectorized_session_load Libm.pow_ref (F64.lit 6 1) (F64.lit 15 1) (F64.lit 4 1)) /\
  (F64.leb (F64.lit 1 10) (F64.lit 25 100) = true /\
   vectorized_session_load Libm.pow_ref (F64.lit 6 1) (F64.lit 15 1) (F64.lit 1 10)
   = vectorized_session_load Libm.pow_ref (F64.lit 6 1) (F64.lit 15 1) (F64.lit 25 100)).
Proof.
  split; (split; [vm_compute; reflexivity|]).
  - apply (session_load_saturates Libm.pow_ref). vm_compute. reflexivity.
  - apply (session_load_saturates Libm.pow_ref). vm_compute. reflexivity.
Defined.

Lemma fatigue_floor_witness :
  F64.ltb F64.zero (F64.lit 1 1000) = true /\
  vectorized_fatigue_score Libm.exp_ref (F64.lit 3 1) F64.zero
  = vectorized_fatigue_score Libm.exp_ref (F64.lit 3 1) (F64.lit 1 1000).
Proof.
  split; [vm_compute; reflexivity|].
  apply (fatigue_floor Libm.exp_ref). vm_compute. reflexivity.
Defined.

Lemma nan_scores_witness :
  F64.is_nan (Libm.exp_ref F64.nan) = true /\
  F64.is_nan (Libm.pow_ref F64.nan (F64.lit 2 1)) = true /\
  F64.is_nan (vectorized_fatigue_score Libm.exp_ref F64.nan (F64.lit 10 1)) = true /\
  F64.is_nan (vectorized_readiness_score Libm.exp_ref Libm.pow_ref F64.nan) = true.
Proof.
  split; [vm_compute; reflexivity|]. split; [vm_compute; reflexivity|].
  destruct (nan_scores Libm.exp_ref Libm.pow_ref F64.nan (F64.lit 10 1) F64.nan)
    as [Hf Hr]; [vm_compute; reflexivity|vm_compute; reflexivity|].
  split; [apply Hf; left; reflexivity|apply Hr; reflexivity].
Defined.

(** * Daily parameter vectors *)

Section WeekDataFacts.

Local Set Default Proof Using "Type".

Variable uninitialised : nat -> nat -> F64.float.
Variable convert_object : pyval -> result F64.float.

Lemma assign_slice_length start stop v a :
  length (assign_slice start stop v a) = length a.
Proof. apply length_imap. Qed.

(** The seven days of week [w] are the days [d] with [d / 7 = w]. *)
Lemma assign_slice_week w v a d :
  assign_slice (w * 7) (w * 7 + 7) v a !! d =
  if (d `div` 7 =? w)%nat then (fun _ => v) <$> a !! d else a !! d.
Proof.
  unfold assign_slice. rewrite list_lookup_imap.
  pose proof (Nat.div_mod_eq d 7) as Hd.
  pose proof (Nat.mod_upper_bound d 7 ltac:(lia)) as Hm.
  destruct (Nat.eqb_spec (d `div` 7) w) as [He|He].
  - replace ((w * 7 <=? d)%nat && (d <? w * 7 + 7)%nat) with true; [reflexivity|].
    symmetry. apply andb_true_iff. split; [apply Nat.leb_le|apply Nat.ltb_lt]; lia.
  - replace ((w * 7 <=? d)%nat && (d <? w * 7 + 7)%nat) with false;
      [now destruct (a !! d)|].
    symmetry. apply andb_false_iff.
    destruct (Nat.leb_spec (w * 7) d); [right|now left].
    apply Nat.ltb_ge. lia.
Qed.

Lemma week_values_inv week_def p t u :
  week_values convert_object week_def = Ok (p, t, u) ->
  to_float64 convert_object (power_multiplier week_def) = Ok p /\
  to_float64 convert_object (target_rpe week_def) = Ok t /\
  to_float64 convert_object (duration_minutes week_def) = Ok u.
Proof.
  unfold week_values.
  destruct (to_float64 _ (power_multiplier week_def)); [|discriminate].
  destruct (to_float64 _ (target_rpe week_def)); [|discriminate].
  destruct (to_float64 _ (duration_minutes week_def)); [|discriminate].
  simpl. intros [= -> -> ->]. auto.
Qed.

(** What the loop leaves in the three arrays, starting at week [week_idx]. *)
Lemma fill_weeks_days week_defs : forall week_idx pm tr du,
  Forall (fun wd => exists v, week_values convert_object wd = Ok v) week_defs ->
  exists pm' tr' du',
    fill_weeks convert_object week_defs week_idx (pm, tr, du) = Ok (pm', tr', du') /\
    (length pm' = length pm /\ length tr' = length tr /\ length du' = length du) /\
    forall d,
      match (if (week_idx <=? d `div` 7)%nat
             then week_defs !! (d `div` 7 - week_idx)%nat else None) with
      | Some wd => exists p t u,
          week_values convert_object wd = Ok (p, t, u) /\
          pm' !! d = (fun _ => p) <$> pm !! d /\
          tr' !! d = (fun _ => t) <$> tr !! d /\
          du' !! d = (fun _ => u) <$> du !! d
      | None => pm' !! d = pm !! d /\ tr' !! d = tr !! d /\ du' !! d = du !! d
      end.
Proof.
  induction week_defs as [|wd rest IH]; intros week_idx pm tr du Hall.
  - exists pm, tr, du. split; [reflexivity|]. split; [auto|].
    intros d. rewrite lookup_nil. now destruct (week_idx <=? d `div` 7)%nat.
  - inversion Hall as [|? ? [[[p t] u] Hv] Hrest]; subst.
    destruct (week_values_inv _ _ _ _ Hv) as (Hp & Ht & Hu).
    cbn [fill_weeks]. rewrite Hp, Ht, Hu. cbn [rbind].
    destruct (IH (S week_idx)
                (assign_slice (week_idx * 7) (week_idx * 7 + 7) p pm)
                (assign_slice (week_idx * 7) (week_idx * 7 + 7) t tr)
                (assign_slice (week_idx * 7) (week_idx * 7 + 7) u du) Hrest)
      as (pm' & tr' & du' & Heq & (L1 & L2 & L3) & Hd).
    exists pm', tr', du'. split; [exact Heq|].
    split; [rewrite L1, L2, L3, !assign_slice_length; auto|].
    intros d. specialize (Hd d). rewrite !assign_slice_week in Hd.
    destruct (Nat.leb_spec week_idx (d `div` 7)) as [Hle|Hlt].
    + destruct (Nat.eqb_spec (d `div` 7) week_idx) as [He|He].
      * replace (d `div` 7 - week_idx)%nat with 0%nat by lia. cbn [lookup list_lookup].
        destruct (Nat.leb_spec (S week_idx) (d `div` 7)); [lia|].
        exists p, t, u. split; [exact Hv|]. exact Hd.
      * destruct (Nat.leb_spec (S week_idx) (d `div` 7)); [|lia].
        replace (d `div` 7 - week_idx)%nat with (S (d `div` 7 - S week_idx)) by lia.
        rewrite lookup_cons. exact Hd.
    + destruct (Nat.leb_spec (S week_idx) (d `div` 7)); [lia|].
      destruct (Nat.eqb_spec (d `div` 7) week_idx); [lia|]. exact Hd.
Qed.

Lemma np_empty_ok k n :
  0 <= n ->
  np_empty uninitialised k n = Ok (map (uninitialised k) (seq 0 (Z.to_nat n))).
Proof. intros H. unfold np_empty. destruct (Z.ltb_spec n 0); [lia|reflexivity]. Qed.

Lemma np_empty_lookup (memory : nat -> F64.float) n d :
  (d < n)%nat -> map memory (seq 0 n) !! d = Some (memory d).
Proof.
  intros H. change (map memory (seq 0 n)) with (memory <$> seq 0 n).
  rewrite list_lookup_fmap, lookup_seq_lt by exact H. reflexivity.
Qed.

Lemma fill_weeks_returns week_defs : forall week_idx arrays v,
  fill_weeks convert_object week_defs week_idx arrays = Ok v ->
  Forall (fun wd => exists v, week_values convert_object wd = Ok v) week_defs.
Proof.
  induction week_defs as [|wd rest IH]; intros week_idx [[pm tr] du] v; [constructor|].
  cbn [fill_weeks]. intros H.
  destruct (to_float64 _ (power_multiplier wd)) as [p|] eqn:Hp; [|discriminate].
  destruct (to_float64 _ (target_rpe wd)) as [t|] eqn:Ht; [|discriminate].
  destruct (to_float64 _ (duration_minutes wd)) as [u|] eqn:Hu; [|discriminate].
  cbn [rbind] in H. constructor; [|eapply IH; exact H].
  exists (p, t, u). unfold week_values. now rewrite Hp, Ht, Hu.
Qed.

Lemma prepare_week_data_lengths week_defs num_weeks power_mult target duration :
  prepare_week_data uninitialised convert_object week_defs num_weeks
  = Ok (power_mult, target, duration) ->
  0 <= num_weeks /\
  length power_mult = Z.to_nat (num_weeks * 7) /\
  length target = Z.to_nat (num_weeks * 7) /\
  length duration = Z.to_nat (num_weeks * 7).
Proof.
  unfold prepare_week_data, np_empty.
  destruct (Z.ltb_spec (num_weeks * 7) 0) as [Hneg|Hpos]; [discriminate|].
  cbn [rbind]. intros H. split; [lia|].
  pose proof (fill_weeks_returns _ _ _ _ H) as Hall.
  destruct (fill_weeks_days week_defs 0
              (map (uninitialised 0) (seq 0 (Z.to_nat (num_weeks * 7))))
              (map (uninitialised 1) (seq 0 (Z.to_nat (num_weeks * 7))))
              (map (uninitialised 2) (seq 0 (Z.to_nat (num_weeks * 7)))) Hall)
    as (pm & tr & du & Heq & (L1 & L2 & L3) & _).
  rewrite Heq in H. injection H as <- <- <-.
  rewrite L1, L2, L3, !length_map, !length_seq. auto.
Qed.

Lemma prepare_week_data_ok week_defs num_weeks :
  0 <= num_weeks ->
  Forall (fun wd => exists v, week_values convert_object wd = Ok v) week_defs ->
  exists data, prepare_week_data uninitialised convert_object week_defs num_weeks
               = Ok data.
Proof.
  intros Hn Hall. unfold prepare_week_data.
  rewrite !np_empty_ok by lia. cbn [rbind].
  destruct (fill_weeks_days week_defs 0
              (map (uninitialised 0) (seq 0 (Z.to_nat (num_weeks * 7))))
              (map (uninitialised 1) (seq 0 (Z.to_nat (num_weeks * 7))))
              (map (uninitialised 2) (seq 0 (Z.to_nat (num_weeks * 7)))) Hall)
    as (pm & tr & du & Heq & _).
  eexists. exact Heq.
Qed.

Lemma fill_weeks_raise week_defs e : forall week_idx arrays,
  fill_weeks convert_object week_defs week_idx arrays = Raise e ->
  forall week_idx' arrays',
  fill_weeks convert_object week_defs week_idx' arrays' = Raise e.
Proof.
  induction week_defs as [|wd rest IH]; intros week_idx [[pm tr] du];
    cbn [fill_weeks]; [discriminate|].
  intros H week_idx' [[pm' tr'] du']. cbn [fill_weeks].
  destruct (to_float64 _ (power_multiplier wd)); cbn [rbind] in *; [|exact H].
  destruct (to_float64 _ (target_rpe wd)); cbn [rbind] in *; [|exact H].
  destruct (to_float64 _ (duration_minutes wd)); cbn [rbind] in *; [|exact H].
  eapply IH. exact H.
Qed.

(** With one definition per week nothing of what the memory held is left
    in the vectors. *)
Lemma prepare_week_data_ignores_memory (uninitialised' : nat -> nat -> F64.float)
    week_defs num_weeks :
  length week_defs = Z.to_nat num_weeks ->
  prepare_week_data uninitialised convert_object week_defs num_weeks
  = prepare_week_data uninitialised' convert_object week_defs num_weeks.
Proof.
  intros Hlen. unfold prepare_week_data, np_empty.
  destruct (Z.ltb_spec (num_weeks * 7) 0) as [Hneg|Hpos]; [reflexivity|].
  cbn [rbind].
  set (n := Z.to_nat (num_weeks * 7)).
  destruct (fill_weeks convert_object week_defs 0
              (map (uninitialised 0) (seq 0 n), map (uninitialised 1) (seq 0 n),
               map (uninitialised 2) (seq 0 n))) as [[[pm tr] du]|e] eqn:E.
  - pose proof (fill_weeks_returns _ _ _ _ E) as Hall.
    destruct (fill_weeks_days week_defs 0
                (map (uninitialised 0) (seq 0 n)) (map (uninitialised 1) (seq 0 n))
                (map (uninitialised 2) (seq 0 n)) Hall)
      as (pm1 & tr1 & du1 & E1 & (L1 & L2 & L3) & D1).
    destruct (fill_weeks_days week_defs 0
                (map (uninitialised' 0%nat) (seq 0 n)) (map (uninitialised' 1%nat) (seq 0 n))
                (map (uninitialised' 2%nat) (seq 0 n)) Hall)
      as (pm2 & tr2 & du2 & E2 & (M1 & M2 & M3) & D2).
    rewrite E1 in E. injection E as <- <- <-. rewrite E2.
    rewrite length_map, length_seq in L1, L2, L3, M1, M2, M3.
    assert (forall d, pm1 !! d = pm2 !! d /\ tr1 !! d = tr2 !! d /\ du1 !! d = du2 !! d)
      as Heq.
    { intros d. destruct (Nat.lt_ge_cases d n) as [Hd|Hd].
      - specialize (D1 d). specialize (D2 d).
        cbn [Nat.leb] in D1, D2. rewrite Nat.sub_0_r in D1, D2.
        rewrite !(np_empty_lookup _ _ _ Hd) in D1.
        rewrite (np_empty_lookup (uninitialised' 0%nat) _ _ Hd),
          (np_empty_lookup (uninitialised' 1%nat) _ _ Hd),
          (np_empty_lookup (uninitialised' 2%nat) _ _ Hd) in D2.
        destruct (week_defs !! (d `div` 7)%nat) as [wd|] eqn:Ew.
        + destruct D1 as (p & t & u & Hv & -> & -> & ->).
          destruct D2 as (p' & t' & u' & Hv' & -> & -> & ->).
          rewrite Hv in Hv'. injection Hv' as <- <- <-. auto.
        + apply lookup_ge_None in Ew.
          assert (d `div` 7 < Z.to_nat num_weeks)%nat; [|lia].
          apply Nat.Div0.div_lt_upper_bound. unfold n in Hd. lia.
      - rewrite !(proj2 (lookup_ge_None _ _)) by lia. auto. }
    do 2 f_equal; [f_equal|]; apply list_eq; intros d; apply Heq.
  - symmetry. eapply fill_weeks_raise. exact E.
Qed.

(** X11.  Every day of a week carries the three numbers of that week, converted
    to [float64]; a day whose week has no definition keeps what the memory
    held; week definitions past the last week are stored nowhere. *)
Theorem prepare_week_data_days week_defs num_weeks :
  0 <= num_weeks ->
  Forall (fun wd => exists v, week_values convert_object wd = Ok v) week_defs ->
  exists power_mult target duration,
    prepare_week_data uninitialised convert_object week_defs num_weeks
    = Ok (power_mult, target, duration) /\
    length power_mult = Z.to_nat (num_weeks * 7) /\
    length target = Z.to_nat (num_weeks * 7) /\
    length duration = Z.to_nat (num_weeks * 7) /\
    forall d, (d < Z.to_nat (num_weeks * 7))%nat ->
      match week_defs !! (d `div` 7)%nat with
      | Some wd => exists p t u,
          week_values convert_object wd = Ok (p, t, u) /\
          power_mult !! d = Some p /\ target !! d = Some t /\ duration !! d = Some u
      | None =>
          power_mult !! d = Some (uninitialised 0 d) /\
          target !! d = Some (uninitialised 1 d) /\
          duration !! d = Some (uninitialised 2 d)
      end.
Proof.
  intros Hn Hall. unfold prepare_week_data.
  assert (0 <= num_weeks * 7) as Hn7 by lia.
  rewrite !(np_empty_ok _ _ Hn7). cbn [rbind].
  destruct (fill_weeks_days week_defs 0
              (map (uninitialised 0) (seq 0 (Z.to_nat (num_weeks * 7))))
              (map (uninitialised 1) (seq 0 (Z.to_nat (num_weeks * 7))))
              (map (uninitialised 2) (seq 0 (Z.to_nat (num_weeks * 7)))) Hall)
    as (pm & tr & du & Heq & (L1 & L2 & L3) & Hd).
  exists pm, tr, du. split; [exact Heq|].
  rewrite L1, L2, L3, !length_map, !length_seq.
  split; [reflexivity|]. split; [reflexivity|]. split; [reflexivity|].
  intros d Hlt. specialize (Hd d). cbn [Nat.leb] in Hd. rewrite Nat.sub_0_r in Hd.
  rewrite !(np_empty_lookup _ _ _ Hlt) in Hd. exact Hd.
Qed.

(** X12.  When there are no more week definitions than weeks, the vectors are
    built exactly when every number of every week definition converts to
    [float64]; one that does not convert makes the call raise. *)
Theorem prepare_week_data_returns_iff week_defs num_weeks :
  Z.of_nat (length week_defs) <= num_weeks ->
  (exists data, prepare_week_data uninitialised convert_object week_defs num_weeks
                = Ok data) <->
  Forall (fun wd => exists v, week_values convert_object wd = Ok v) week_defs.
Proof.
  intros Hlen. split.
  - intros [data H]. unfold prepare_week_data in H.
    rewrite !np_empty_ok in H by lia. cbn [rbind] in H.
    eapply fill_weeks_returns. exact H.
  - intros Hall. apply prepare_week_data_ok; [lia|exact Hall].
Qed.

End WeekDataFacts.

Lemma prepare_week_data_days_witness :
  0 <= 1 /\
  Forall (fun wd => exists v, week_values (fun _ => Raise ValueError) wd = Ok v)
    [default_week (PInt 15) 1] /\
  exists power_mult target duration,
    prepare_week_data (fun _ _ => F64.nan) (fun _ => Raise ValueError)
      [default_week (PInt 15) 1] 1 = Ok (power_mult, target, duration) /\
    power_mult !! 6%nat = Some (F64.lit 1 1) /\
    target !! 6%nat = Some (F64.of_Z 6) /\
    duration !! 6%nat = Some (F64.of_Z 15).
Proof.
  assert (Forall (fun wd => exists v, week_values (fun _ => Raise ValueError) wd = Ok v)
            [default_week (PInt 15) 1]) as Hall.
  { constructor; [|constructor]. eexists. vm_compute. reflexivity. }
  split; [lia|]. split; [exact Hall|].
  destruct (prepare_week_data_days (fun _ _ => F64.nan) (fun _ => Raise ValueError)
              [default_week (PInt 15) 1] 1 ltac:(lia) Hall)
    as (pm & tr & du & Heq & _ & _ & _ & Hd).
  exists pm, tr, du. split; [exact Heq|].
  destruct (Hd 6%nat ltac:(simpl; lia)) as (p & t & u & Hv & -> & -> & ->).
  vm_compute in Hv. injection Hv as <- <- <-.
  split; [|split]; f_equal; vm_compute; reflexivity.
Defined.

Lemma prepare_week_data_returns_iff_witness :
  Z.of_nat (length [default_week (PStr "long") 1]) <= 1 /\
  ((exists data, prepare_week_data (fun _ _ => F64.nan) (fun _ => Raise ValueError)
                   [default_week (PStr "long") 1] 1 = Ok data) <->
   Forall (fun wd => exists v, week_values (fun _ => Raise ValueError) wd = Ok v)
     [default_week (PStr "long") 1]).
Proof.
  split; [simpl; lia|].
  apply (prepare_week_data_returns_iff (fun _ _ => F64.nan) (fun _ => Raise ValueError)).
  simpl. lia.
Defined.

(** * Sessions, weeks and trials *)

Section TrialFacts.

Local Set Default Proof Using "Type".

Variable fexp : F64.float -> F64.float.
Variable fpow : F64.float -> F64.float -> F64.float.
Variable rng : Type.
Variable rng_integers : Z -> Z -> Z -> rng -> result (list Z * rng).
Variable rng_choice : Z -> Z -> rng -> result (list nat * rng).
Variable rng_uniform : F64.float -> F64.float -> rng -> F64.float * rng.

Lemma index_ok {A} (a : list A) i :
  (i < length a)%nat -> exists x, index a i = Ok x.
Proof.
  intros H. unfold index. destruct (a !! i) eqn:E; [eauto|].
  apply lookup_ge_None in E. lia.
Qed.

Lemma index_raise {A} (a : list A) i e :
  index a i = Raise e -> e = IndexError /\ (length a <= i)%nat.
Proof.
  unfold index. destruct (a !! i) eqn:E; [discriminate|].
  intros [= <-]. split; [reflexivity|]. now apply lookup_ge_None.
Qed.

Lemma index_lt {A} (a : list A) i x : index a i = Ok x -> (i < length a)%nat.
Proof.
  unfold index. destruct (a !! i) eqn:E; [|discriminate].
  intros _. eapply lookup_lt_Some. exact E.
Qed.

Lemma simulate_session_frame base_power power_mult target duration
    week_start day daily_loads g daily_loads' g' :
  simulate_session fpow rng rng_uniform base_power power_mult target duration
    week_start day daily_loads g = Ok (daily_loads', g') ->
  (week_start + day < length daily_loads)%nat /\
  length daily_loads' = length daily_loads /\
  (forall i, i <> (week_start + day)%nat -> daily_loads' !! i = daily_loads !! i).
Proof.
  unfold simulate_session, bind, lift, ret, draw_uniform, rmap.
  destruct (index power_mult (week_start + day)); cbn [rbind fst snd]; [|discriminate].
  destruct (index target (week_start + day)); cbn [rbind fst snd]; [|discriminate].
  destruct (index duration (week_start + day)); cbn [rbind fst snd]; [|discriminate].
  destruct (index daily_loads (week_start + day)) eqn:E; cbn [rbind fst snd];
    [|discriminate].
  intros [= <- <-]. apply index_lt in E.
  split; [exact E|]. split; [apply length_insert|].
  intros i Hi. apply list_lookup_insert_ne. congruence.
Qed.

Lemma simulate_session_ok base_power power_mult target duration
    week_start day daily_loads g :
  (week_start + day < length power_mult)%nat ->
  (week_start + day < length target)%nat ->
  (week_start + day < length duration)%nat ->
  (week_start + day < length daily_loads)%nat ->
  exists out, simulate_session fpow rng rng_uniform base_power power_mult target
                duration week_start day daily_loads g = Ok out.
Proof.
  intros H1 H2 H3 H4.
  unfold simulate_session, bind, lift, ret, draw_uniform, rmap.
  destruct (index_ok _ _ H1) as [? ->]. cbn [rbind fst snd].
  destruct (index_ok _ _ H2) as [? ->]. cbn [rbind fst snd].
  destruct (index_ok _ _ H3) as [? ->]. cbn [rbind fst snd].
  destruct (index_ok _ _ H4) as [? ->]. cbn [rbind fst snd].
  eauto.
Qed.

(** X13.  One session: it returns exactly when the day lies within the three
    vectors and the loads; it then changes the load of that day only and
    draws twice; otherwise the error is an [IndexError]. *)
Theorem simulate_session_outcome base_power power_mult target duration
    week_start day daily_loads g :
  match simulate_session fpow rng rng_uniform base_power power_mult target duration
          week_start day daily_loads g with
  | Ok (daily_loads', g') =>
      (week_start + day < length power_mult /\ week_start + day < length target /\
       week_start + day < length duration /\ week_start + day < length daily_loads)%nat /\
      length daily_loads' = length daily_loads /\
      (forall i, i <> (week_start + day)%nat -> daily_loads' !! i = daily_loads !! i) /\
      g' = (rng_uniform (F64.neg (F64.lit 5 10)) (F64.lit 5 10)
              (rng_uniform (F64.neg (F64.lit 5 100)) (F64.lit 5 100) g).2).2
  | Raise e =>
      e = IndexError /\
      ~ (week_start + day < length power_mult /\ week_start + day < length target /\
         week_start + day < length duration /\ week_start + day < length daily_loads)%nat
  end.
Proof.
  unfold simulate_session, bind, lift, ret, draw_uniform, rmap.
  destruct (index power_mult (week_start + day)) as [mult|e] eqn:E1; cbn [rbind fst snd];
    [|apply index_raise in E1 as [-> Hge]; split; [reflexivity|intros (? & ? & ? & ?); lia]].
  destruct (index target (week_start + day)) as [rpe|e] eqn:E2; cbn [rbind fst snd];
    [|apply index_raise in E2 as [-> Hge]; split; [reflexivity|intros (? & ? & ? & ?); lia]].
  destruct (index duration (week_start + day)) as [dur|e] eqn:E3; cbn [rbind fst snd];
    [|apply index_raise in E3 as [-> Hge]; split; [reflexivity|intros (? & ? & ? & ?); lia]].
  destruct (index daily_loads (week_start + day)) as [old|e] eqn:E4; cbn [rbind fst snd];
    [|apply index_raise in E4 as [-> Hge]; split; [reflexivity|intros (? & ? & ? & ?); lia]].
  apply index_lt in E1, E2, E3, E4.
  split; [auto|]. split; [apply length_insert|]. split; [|reflexivity].
  intros i Hi. apply list_lookup_insert_ne. congruence.
Qed.

Lemma simulate_sessions_frame base_power power_mult target duration week_start
    session_days : forall daily_loads g daily_loads' g',
  simulate_sessions fpow rng rng_uniform base_power power_mult target duration
    week_start session_days daily_loads g = Ok (daily_loads', g') ->
  length daily_loads' = length daily_loads /\
  Forall (fun day => week_start + day < length daily_loads)%nat session_days /\
  (forall i, (forall day, In day session_days -> i <> (week_start + day)%nat) ->
     daily_loads' !! i = daily_loads !! i).
Proof.
  induction session_days as [|day rest IH]; intros loads g loads' g'.
  - intros [= <- <-]. split; [reflexivity|]. split; [constructor|reflexivity].
  - cbn [simulate_sessions]. unfold bind at 1.
    destruct (simulate_session _ _ _ _ _ _ _ _ _ loads g) as [[l1 g1]|e] eqn:E;
      cbn [rbind fst snd]; [|discriminate].
    intros H. apply simulate_session_frame in E as (Hlt & Hlen & Hfr).
    apply IH in H as (Hlen' & Hall & Hfr').
    split; [congruence|]. split.
    + constructor; [exact Hlt|]. rewrite <- Hlen. exact Hall.
    + intros i Hi. rewrite Hfr', Hfr; [reflexivity| |].
      * apply Hi. now left.
      * intros d Hd. apply Hi. now right.
Qed.

Lemma simulate_weeks_length base_power power_mult target duration sessions_per_week
    week_idxs : forall daily_loads g daily_loads' g',
  simulate_weeks fpow rng rng_choice rng_uniform base_power power_mult target duration
    sessions_per_week week_idxs daily_loads g = Ok (daily_loads', g') ->
  length daily_loads' = length daily_loads.
Proof.
  induction week_idxs as [|w rest IH]; intros loads g loads' g'.
  - now intros [= <- <-].
  - cbn [simulate_weeks]. unfold bind at 1, lift, rmap.
    destruct (index sessions_per_week w) as [n|e]; cbn [rbind fst snd]; [|discriminate].
    unfold bind at 1.
    destruct (rng_choice 7 n g) as [[days g1]|e]; cbn [rbind fst snd]; [|discriminate].
    unfold bind at 1.
    destruct (simulate_sessions _ _ _ _ _ _ _ _ days loads g1) as [[l1 g2]|e] eqn:E;
      cbn [rbind fst snd]; [|discriminate].
    intros H. apply IH in H. apply simulate_sessions_frame in E as (Hlen & _).
    congruence.
Qed.

(** X14.  The weeks of a program do not touch each other: a run of sessions in
    one week, on days 0 to 6, changes no load outside the seven days of
    that week, and keeps the number of days. *)
Theorem sessions_stay_in_their_week base_power power_mult target duration week_idx
    session_days daily_loads g daily_loads' g' :
  Forall (fun day => day < 7)%nat session_days ->
  simulate_sessions fpow rng rng_uniform base_power power_mult target duration
    (week_idx * 7) session_days daily_loads g = Ok (daily_loads', g') ->
  length daily_loads' = length daily_loads /\
  forall i, (i `div` 7)%nat <> week_idx -> daily_loads' !! i = daily_loads !! i.
Proof.
  intros Hdays H. apply simulate_sessions_frame in H as (Hlen & _ & Hfr).
  split; [exact Hlen|]. intros i Hi. apply Hfr. intros day Hin ->.
  rewrite List.Forall_forall in Hdays. specialize (Hdays _ Hin).
  apply Hi. rewrite Nat.add_comm, Nat.div_add by lia.
  rewrite Nat.div_small by lia. reflexivity.
Qed.

Lemma scores_of_loads_length daily_loads :
  length (scores_of_loads fexp fpow daily_loads).1 = length daily_loads /\
  length (scores_of_loads fexp fpow daily_loads).2 = length daily_loads.
Proof.
  unfold scores_of_loads, elementwise2, vectorized_ewma. cbn [fst snd].
  rewrite length_map, !length_zip_with, !ewma_loop_length. lia.
Qed.

(** A trial that returns hands back one score of each kind for each of
    the [num_days] days, whatever the generator drew. *)
Lemma run_single_lengths num_weeks num_days base_power
    power_mult target duration g fatigue readiness g' :
  run_single_simulation_fast fexp fpow rng rng_integers rng_choice rng_uniform
    num_weeks num_days base_power power_mult target duration g
  = Ok (fatigue, readiness, g') ->
  0 <= num_days /\
  length fatigue = Z.to_nat num_days /\ length readiness = Z.to_nat num_days.
Proof.
  unfold run_single_simulation_fast. unfold bind at 1.
  destruct (rng_integers 2 5 num_weeks g) as [[spw g1]|e]; cbn [rbind fst snd];
    [|discriminate].
  unfold bind at 1, lift, rmap.
  destruct (Z.ltb_spec num_days 0) as [Hneg|Hpos]; cbn [rbind fst snd]; [discriminate|].
  unfold bind at 1.
  destruct (simulate_weeks _ _ _ _ _ _ _ _ _ _ _ g1) as [[loads g2]|e] eqn:E;
    cbn [rbind fst snd]; [|discriminate].
  unfold ret.
  apply simulate_weeks_length in E. rewrite length_replicate in E.
  destruct (scores_of_loads_length loads) as [H1 H2].
  destruct (scores_of_loads fexp fpow loads) as [f r]. cbn [fst snd] in H1, H2.
  intros [= <- <- <-].
  split; [exact Hpos|]. split; congruence.
Qed.

Section WellBehaved.

(** What NumPy's generator guarantees for the two calls of the program:
    [integers(2, 5, size=n)] gives [n] numbers from 2 to 4, and
    [choice(7, size=n, replace=False)] gives days below 7 when no more
    than 7 are asked. *)
Hypothesis integers_ok : forall n g, 0 <= n ->
  exists l g', rng_integers 2 5 n g = Ok (l, g') /\
    length l = Z.to_nat n /\ Forall (fun k => 2 <= k < 5) l.
Hypothesis choice_ok : forall n g, 0 <= n <= 7 ->
  exists days g', rng_choice 7 n g = Ok (days, g') /\
    Forall (fun day => day < 7)%nat days.

Lemma simulate_sessions_ok base_power power_mult target duration week_start
    session_days : forall daily_loads g,
  Forall (fun day => day < 7)%nat session_days ->
  (week_start + 7 <= length power_mult)%nat ->
  (week_start + 7 <= length target)%nat ->
  (week_start + 7 <= length duration)%nat ->
  (week_start + 7 <= length daily_loads)%nat ->
  exists out, simulate_sessions fpow rng rng_uniform base_power power_mult target
                duration week_start session_days daily_loads g = Ok out.
Proof using Type integers_ok choice_ok.
  induction session_days as [|day rest IH]; intros loads g Hdays H1 H2 H3 H4.
  - eexists. reflexivity.
  - inversion Hdays as [|? ? Hday Hrest]; subst.
    cbn [simulate_sessions]. unfold bind at 1.
    destruct (simulate_session_ok base_power power_mult target duration week_start day
                loads g) as [[l1 g1] E]; try lia.
    rewrite E. cbn [rbind fst snd].
    apply simulate_session_frame in E as (_ & Hlen & _).
    apply IH; try assumption. lia.
Qed.

Lemma simulate_weeks_ok base_power power_mult target duration sessions_per_week
    week_idxs :
  Forall (fun k => 2 <= k < 5) sessions_per_week ->
  forall daily_loads g,
  Forall (fun w => w < length sessions_per_week /\ w * 7 + 7 <= length power_mult /\
                   w * 7 + 7 <= length target /\ w * 7 + 7 <= length duration /\
                   w * 7 + 7 <= length daily_loads)%nat week_idxs ->
  exists out, simulate_weeks fpow rng rng_choice rng_uniform base_power power_mult
                target duration sessions_per_week week_idxs daily_loads g = Ok out.
Proof using Type integers_ok choice_ok.
  intros Hspw.
  induction week_idxs as [|w rest IH]; intros loads g Hw.
  - eexists. reflexivity.
  - inversion Hw as [|? ? (Hlt & H1 & H2 & H3 & H4) Hrest]; subst.
    cbn [simulate_weeks]. unfold bind at 1, lift, rmap.
    destruct (index_ok sessions_per_week w Hlt) as [n Hn]. rewrite Hn.
    cbn [rbind fst snd].
    assert (2 <= n < 5) as Hn25.
    { unfold index in Hn. destruct (sessions_per_week !! w) as [n'|] eqn:E; [|discriminate].
      injection Hn as ->. eapply Forall_lookup_1 in Hspw; [|exact E]. exact Hspw. }
    unfold bind at 1.
    destruct (choice_ok n g ltac:(lia)) as (days & g1 & -> & Hdays).
    cbn [rbind fst snd]. unfold bind at 1.
    destruct (simulate_sessions_ok base_power power_mult target duration (w * 7) days
                loads g1) as [[l1 g2] E]; try assumption.
    rewrite E. cbn [rbind fst snd].
    apply simulate_sessions_frame in E as (Hlen & _).
    apply IH. eapply List.Forall_impl; [|exact Hrest].
    intros w' Hw'. simpl in Hw'. rewrite Hlen. exact Hw'.
Qed.

Lemma run_single_ok num_weeks num_days base_power power_mult target duration g :
  0 <= num_weeks -> num_weeks * 7 <= num_days ->
  (Z.to_nat (num_weeks * 7) <= length power_mult)%nat ->
  (Z.to_nat (num_weeks * 7) <= length target)%nat ->
  (Z.to_nat (num_weeks * 7) <= length duration)%nat ->
  exists out,
    run_single_simulation_fast fexp fpow rng rng_integers rng_choice rng_uniform
      num_weeks num_days base_power power_mult target duration g = Ok out.
Proof using Type integers_ok choice_ok.
  intros Hw Hd H1 H2 H3.
  unfold run_single_simulation_fast. unfold bind at 1.
  destruct (integers_ok num_weeks g Hw) as (spw & g1 & -> & Hlen & Hspw).
  cbn [rbind fst snd]. unfold bind at 1, lift, rmap.
  destruct (Z.ltb_spec num_days 0) as [Hneg|Hpos]; [lia|]. cbn [rbind fst snd].
  unfold bind at 1.
  destruct (simulate_weeks_ok base_power power_mult target duration spw
              (seq 0 (Z.to_nat num_weeks)) Hspw
              (replicate (Z.to_nat num_days) F64.zero) g1) as [[loads g2] E].
  { apply List.Forall_forall. intros w Hin. apply in_seq in Hin.
    rewrite length_replicate. lia. }
  rewrite E. cbn [rbind fst snd]. unfold ret. eauto.
Qed.

(** X15.  With a generator that behaves as NumPy's and vectors that span the
    seven days of every week, a trial raises nothing: the day indices
    [week_idx * 7 + day] stay within the vectors and the loads.  It hands
    back one fatigue score and one readiness score for each day. *)
Theorem run_single_simulation_fast_returns num_weeks num_days base_power
    power_mult target duration g :
  0 <= num_weeks -> num_weeks * 7 <= num_days ->
  (Z.to_nat (num_weeks * 7) <= length power_mult)%nat ->
  (Z.to_nat (num_weeks * 7) <= length target)%nat ->
  (Z.to_nat (num_weeks * 7) <= length duration)%nat ->
  exists fatigue readiness g',
    run_single_simulation_fast fexp fpow rng rng_integers rng_choice rng_uniform
      num_weeks num_days base_power power_mult target duration g
    = Ok (fatigue, readiness, g') /\
    length fatigue = Z.to_nat num_days /\ length readiness = Z.to_nat num_days.
Proof using Type integers_ok choice_ok.
  intros Hw Hd H1 H2 H3.
  destruct (run_single_ok num_weeks num_days base_power power_mult target duration g
              Hw Hd H1 H2 H3) as [[[fatigue readiness] g'] E].
  exists fatigue, readiness, g'. split; [exact E|].
  apply run_single_lengths in E. tauto.
Qed.

End WellBehaved.

End TrialFacts.

(** The generator of the examples behaves as NumPy's on the calls the
    program makes. *)
Lemma least_integers_ok n g :
  0 <= n ->
  exists l g', least_integers 2 5 n g = Ok (l, g') /\
    length l = Z.to_nat n /\ Forall (fun k => 2 <= k < 5) l.
Proof.
  intros H. unfold least_integers. destruct (Z.ltb_spec n 0); [lia|].
  eexists _, _. split; [reflexivity|]. split; [apply length_replicate|].
  apply Forall_replicate. lia.
Qed.

Lemma first_days_ok n g :
  0 <= n <= 7 ->
  exists days g', first_days 7 n g = Ok (days, g') /\
    Forall (fun day => day < 7)%nat days.
Proof.
  intros H. unfold first_days.
  destruct (Z.ltb_spec n 0); [lia|]. destruct (Z.ltb_spec 7 n); [lia|]. cbn [orb].
  eexists _, _. split; [reflexivity|].
  apply List.Forall_forall. intros d Hd. apply in_seq in Hd. lia.
Qed.

Lemma sessions_stay_in_their_week_witness :
  Forall (fun day => day < 7)%nat [1%nat; 3%nat] /\
  exists daily_loads' g',
    simulate_sessions Libm.pow_ref unit least_uniform (F64.lit 200 1)
      (replicate 14 (F64.lit 1 1)) (replicate 14 (F64.lit 6 1))
      (replicate 14 (F64.lit 15 1)) (1 * 7) [1%nat; 3%nat]
      (replicate 14 F64.zero) tt = Ok (daily_loads', g') /\
    length daily_loads' = 14%nat /\
    daily_loads' !! 3%nat = Some F64.zero.
Proof.
  assert (Forall (fun day => day < 7)%nat [1%nat; 3%nat]) as Hdays
    by (repeat constructor; lia).
  split; [exact Hdays|].
  destruct (simulate_sessions Libm.pow_ref unit least_uniform (F64.lit 200 1)
              (replicate 14 (F64.lit 1 1)) (replicate 14 (F64.lit 6 1))
              (replicate 14 (F64.lit 15 1)) (1 * 7) [1%nat; 3%nat]
              (replicate 14 F64.zero) tt) as [[loads' g']|e] eqn:H;
    [|vm_compute in H; discriminate].
  exists loads', g'. split; [reflexivity|].
  destruct (sessions_stay_in_their_week Libm.pow_ref unit least_uniform _ _ _ _ 1 _ _ _ _ _
              Hdays H) as [Hlen Hfr].
  split; [exact Hlen|]. rewrite Hfr; [reflexivity|]. simpl. lia.
Defined.

Lemma run_single_simulation_fast_returns_witness :
  0 <= 1 /\ 1 * 7 <= 7 /\
  exists fatigue readiness g',
    run_single_simulation_fast Libm.exp_ref Libm.pow_ref unit least_integers first_days
      least_uniform 1 7 (F64.lit 200 1) (replicate 7 (F64.lit 1 1))
      (replicate 7 (F64.lit 6 1)) (replicate 7 (F64.lit 15 1)) tt
    = Ok (fatigue, readiness, g') /\
    length fatigue = Z.to_nat 7 /\ length readiness = Z.to_nat 7.
Proof.
  split; [lia|]. split; [lia|].
  apply (run_single_simulation_fast_returns Libm.exp_ref Libm.pow_ref unit
           least_integers first_days least_uniform);
    [ | |lia|lia|simpl; lia|simpl; lia|simpl; lia].
  - intros n g H. apply least_integers_ok, H.
  - intros n g H. apply first_days_ok, H.
Defined.

(** * Batches and the whole run *)

Section RunFacts.

Local Set Default Proof Using "Type".

Variable fexp : F64.float -> F64.float.
Variable fpow : F64.float -> F64.float -> F64.float.
Variable rng : Type.
Variable rng_integers : Z -> Z -> Z -> rng -> result (list Z * rng).
Variable rng_choice : Z -> Z -> rng -> result (list nat * rng).
Variable rng_uniform : F64.float -> F64.float -> rng -> F64.float * rng.
Variable seeded_rng : Z -> rng.
Variable fresh_rng : rng.
Variable uninitialised : nat -> nat -> F64.float.
Variable convert_object : pyval -> result F64.float.
Variable cpu_count : Z.
Variable wrap : bool.
Variable entropy : nat -> Z.

Lemma assign_row_same num_days row :
  0 <= num_days -> length row = Z.to_nat num_days -> assign_row num_days row = Ok row.
Proof.
  intros Hd Hl. unfold assign_row.
  destruct (Z.eqb_spec (Z.of_nat (length row)) num_days); [reflexivity|lia].
Qed.

(** The matrices of a batch: one row per trial, one column per day. *)
Lemma run_trials_shape num_weeks num_days base_power power_mult target duration count :
  forall g fs rs g',
  run_trials fexp fpow rng rng_integers rng_choice rng_uniform count num_weeks num_days
    base_power power_mult target duration g = Ok (fs, rs, g') ->
  length fs = count /\ length rs = count /\
  Forall (fun row => length row = Z.to_nat num_days) fs /\
  Forall (fun row => length row = Z.to_nat num_days) rs.
Proof.
  induction count as [|count IH]; intros g fs rs g'; cbn [run_trials].
  - intros [= <- <- <-]. auto.
  - destruct (run_single_simulation_fast _ _ _ _ _ _ _ _ _ _ _ _ g)
      as [[[fatigue readiness] g1]|e] eqn:E; cbn [rbind]; [|discriminate].
    apply run_single_lengths in E as (Hd & Lf & Lr).
    rewrite !assign_row_same by assumption. cbn [rbind].
    destruct (run_trials _ _ _ _ _ _ count _ _ _ _ _ _ g1) as [[[fs' rs'] g2]|e] eqn:E';
      cbn [rbind]; [|discriminate].
    intros [= <- <- <-]. apply IH in E' as (L1 & L2 & F1 & F2).
    cbn [length]. auto.
Qed.

Lemma fill_matrices_shape rows num_weeks num_days base_power power_mult target duration
    g fs rs :
  fill_matrices fexp fpow rng rng_integers rng_choice rng_uniform rows num_weeks num_days
    base_power power_mult target duration g = Ok (fs, rs) ->
  0 <= rows /\ 0 <= num_days /\
  Z.of_nat (length fs) = rows /\ Z.of_nat (length rs) = rows /\
  Forall (fun row => length row = Z.to_nat num_days) fs /\
  Forall (fun row => length row = Z.to_nat num_days) rs.
Proof.
  unfold fill_matrices.
  destruct (Z.ltb_spec rows 0); [discriminate|].
  destruct (Z.ltb_spec num_days 0); [discriminate|]. cbn [orb].
  destruct (run_trials _ _ _ _ _ _ _ _ _ _ _ _ _ g) as [[[fs' rs'] g']|e] eqn:E;
    [|discriminate].
  cbn [rmap fst snd]. intros [= <- <-].
  apply run_trials_shape in E as (L1 & L2 & F1 & F2).
  rewrite L1, L2. split; [lia|]. split; [lia|]. split; [lia|]. split; [lia|]. auto.
Qed.

Lemma run_batch_inv batch_size num_weeks num_days base_power power_mult target duration
    seed out :
  run_batch_simulations fexp fpow rng rng_integers rng_choice rng_uniform seeded_rng
    batch_size num_weeks num_days base_power power_mult target duration seed = Ok out ->
  0 <= seed /\
  fill_matrices fexp fpow rng rng_integers rng_choice rng_uniform batch_size num_weeks
    num_days base_power power_mult target duration (seeded_rng seed) = Ok out.
Proof.
  unfold run_batch_simulations, default_rng.
  destruct (Z.ltb_spec seed 0) as [Hneg|Hseed]; [discriminate|]. cbn [rbind]. auto.
Qed.

(** X16.  A batch that returns gives [batch_size] rows of [num_days] columns in
    each matrix; it cannot return for a negative seed, size or number of
    days. *)
Theorem run_batch_simulations_shape batch_size num_weeks num_days base_power
    power_mult target duration seed fatigue_batch readiness_batch :
  run_batch_simulations fexp fpow rng rng_integers rng_choice rng_uniform seeded_rng
    batch_size num_weeks num_days base_power power_mult target duration seed
  = Ok (fatigue_batch, readiness_batch) ->
  0 <= seed /\ 0 <= batch_size /\ 0 <= num_days /\
  Z.of_nat (length fatigue_batch) = batch_size /\
  Z.of_nat (length readiness_batch) = batch_size /\
  Forall (fun row => length row = Z.to_nat num_days) fatigue_batch /\
  Forall (fun row => length row = Z.to_nat num_days) readiness_batch.
Proof.
  intros Hrun. apply run_batch_inv in Hrun as [Hseed Hfill].
  apply fill_matrices_shape in Hfill as (Hb & Hd & L1 & L2 & F1 & F2). auto 10.
Qed.

Lemma pool_map_Forall2 {A B} (f : A -> result B) tasks : forall results,
  pool_map f tasks = Ok results -> Forall2 (fun t r => f t = Ok r) tasks results.
Proof.
  induction tasks as [|t rest IH]; intros results; cbn [pool_map].
  - intros [= <-]. constructor.
  - destruct (f t) as [b|e] eqn:E; cbn [rbind]; [|discriminate].
    destruct (pool_map f rest) as [bs|e]; cbn [rbind]; [|discriminate].
    intros [= <-]. constructor; [exact E|]. now apply IH.
Qed.

Lemma vstack_inv blocks rows :
  vstack blocks = Ok rows -> blocks <> [] /\ rows = concat blocks.
Proof.
  unfold vstack. destruct blocks as [|b rest]; [discriminate|].
  destruct (same_width _); [|discriminate]. intros [= <-]. split; [discriminate|reflexivity].
Qed.

Lemma make_batches_sum num_simulations num_workers :
  0 <= num_simulations -> 0 < num_workers ->
  sum_Z (map fst (make_batches wrap entropy num_simulations num_workers))
  = num_simulations.
Proof.
  intros Hn Hw. unfold make_batches.
  pose proof (Z.div_mod num_simulations num_workers ltac:(lia)) as Hdm.
  pose proof (Z.mod_pos_bound num_simulations num_workers ltac:(lia)) as Hr.
  assert (0 <= num_simulations / num_workers) as Hq by (apply Z.div_pos; lia).
  rewrite split_sizes_sum by assumption.
  replace (range 0 num_workers) with (range 0 (Z.of_nat (Z.to_nat num_workers)))
    by (now rewrite Z2Nat.id by lia).
  rewrite worker_sizes_sum by lia. rewrite Z2Nat.id by lia. lia.
Qed.

Lemma stacked_shape num_weeks num_days base_power power_mult target duration
    (batches : list (Z * Z)) results :
  Forall2 (fun b r =>
             run_batch_simulations fexp fpow rng rng_integers rng_choice rng_uniform
               seeded_rng b.1 num_weeks num_days base_power power_mult target duration b.2
             = Ok r) batches results ->
  Z.of_nat (length (concat (map fst results))) = sum_Z (map fst batches) /\
  Z.of_nat (length (concat (map snd results))) = sum_Z (map fst batches) /\
  Forall (fun row => length row = Z.to_nat num_days) (concat (map fst results)) /\
  Forall (fun row => length row = Z.to_nat num_days) (concat (map snd results)).
Proof.
  induction 1 as [|[size seed] [fs rs] batches results Hrun _ IH].
  - cbn. auto.
  - destruct IH as (L1 & L2 & F1 & F2).
    apply run_batch_inv in Hrun as [_ Hfill].
    apply fill_matrices_shape in Hfill as (_ & _ & S1 & S2 & R1 & R2).
    cbn [map concat fst snd sum_Z foldr] in *. fold (sum_Z (map fst batches)).
    rewrite !length_app, !Nat2Z.inj_add.
    split; [lia|]. split; [lia|]. split; apply Forall_app; auto.
Qed.

(** X17.  A run that returns holds one row per simulation and one column per
    day in both matrices, on the sequential path and on the parallel one,
    however the work was split; the planned vectors have one entry per
    day. *)
Theorem monte_carlo_trials_shape template num_simulations num_weeks base_power
    num_workers all_fatigue all_readiness planned_intensity planned_rpe :
  monte_carlo_trials fexp fpow rng rng_integers rng_choice rng_uniform seeded_rng
    fresh_rng uninitialised convert_object cpu_count wrap entropy template
    num_simulations num_weeks base_power num_workers
  = Ok (all_fatigue, all_readiness, planned_intensity, planned_rpe) ->
  0 <= num_simulations /\ 0 <= num_weeks /\
  Z.of_nat (length all_fatigue) = num_simulations /\
  Z.of_nat (length all_readiness) = num_simulations /\
  Forall (fun row => length row = Z.to_nat (num_weeks * 7)) all_fatigue /\
  Forall (fun row => length row = Z.to_nat (num_weeks * 7)) all_readiness /\
  length planned_intensity = Z.to_nat (num_weeks * 7) /\
  length planned_rpe = Z.to_nat (num_weeks * 7).
Proof.
  unfold monte_carlo_trials.
  destruct (interpolate_weeks _ _ _) as [week_defs|e]; cbn [rbind]; [|discriminate].
  destruct (prepare_week_data _ _ _ _) as [[[pm tr] du]|e] eqn:P; cbn [rbind];
    [|discriminate].
  apply prepare_week_data_lengths in P as (Hw & Lpm & Ltr & _).
  destruct (use_multiprocessing _ _) eqn:U.
  - unfold use_multiprocessing in U. apply andb_true_iff in U as [Hn Hk].
    apply Z.leb_le in Hn. apply Z.ltb_lt in Hk.
    destruct (pool_map _ _) as [results|e] eqn:PM; cbn [rbind]; [|discriminate].
    destruct (vstack (map fst results)) as [fs|e] eqn:V1; cbn [rbind]; [|discriminate].
    destruct (vstack (map snd results)) as [rs|e] eqn:V2; cbn [rbind]; [|discriminate].
    intros [= <- <- <- <-].
    apply vstack_inv in V1 as [_ ->]. apply vstack_inv in V2 as [_ ->].
    apply pool_map_Forall2 in PM. apply stacked_shape in PM as (L1 & L2 & F1 & F2).
    rewrite make_batches_sum in L1, L2 by lia.
    split; [lia|]. split; [exact Hw|]. auto 10.
  - destruct (fill_matrices _ _ _ _ _ _ _ _ _ _ _ _ _ _) as [[fs rs]|e] eqn:FM;
      cbn [rbind]; [|discriminate].
    cbn [fst snd]. intros [= <- <- <- <-].
    apply fill_matrices_shape in FM as (Hn & _ & L1 & L2 & F1 & F2).
    split; [exact Hn|]. split; [exact Hw|]. auto 10.
Qed.

Lemma interpolate_weeks_length weeks total_weeks default_duration week_defs :
  interpolate_weeks weeks total_weeks default_duration = Ok week_defs ->
  length week_defs = Z.to_nat total_weeks.
Proof.
  unfold interpolate_weeks.
  destruct (resolve_keyframes weeks total_weeks) as [rs|e]; cbn [rbind]; [|discriminate].
  destruct (sort_by_pos rs); intros [= <-]; rewrite length_map, range_length; lia.
Qed.

(** X18.  [numpy.empty] hands out memory as it finds it, and the run never reads
    it: the week definitions cover every day of the vectors, so the
    outcome is the same whatever the memory held. *)
Theorem monte_carlo_trials_ignores_memory (uninitialised' : nat -> nat -> F64.float)
    template num_simulations num_weeks base_power num_workers :
  monte_carlo_trials fexp fpow rng rng_integers rng_choice rng_uniform seeded_rng
    fresh_rng uninitialised convert_object cpu_count wrap entropy template
    num_simulations num_weeks base_power num_workers
  = monte_carlo_trials fexp fpow rng rng_integers rng_choice rng_uniform seeded_rng
      fresh_rng uninitialised' convert_object cpu_count wrap entropy template
      num_simulations num_weeks base_power num_workers.
Proof.
  unfold monte_carlo_trials.
  destruct (interpolate_weeks _ _ _) as [week_defs|e] eqn:E; cbn [rbind]; [|reflexivity].
  apply interpolate_weeks_length in E.
  now rewrite (prepare_week_data_ignores_memory uninitialised convert_object
                 uninitialised' week_defs num_weeks E).
Qed.

Lemma pool_map_ok {A B} (f : A -> result B) tasks :
  Forall (fun t => exists r, f t = Ok r) tasks -> exists rs, pool_map f tasks = Ok rs.
Proof.
  induction 1 as [|t rest [r Hr] _ [rs IH]]; cbn [pool_map]; [eauto|].
  rewrite Hr, IH. cbn [rbind]. eauto.
Qed.

Lemma same_width_rows k rows :
  Forall (fun row => length row = k) rows -> same_width rows = true.
Proof.
  intros H. unfold same_width. destruct rows as [|r rest]; [reflexivity|].
  apply forallb_forall. intros r' Hin. rewrite List.Forall_forall in H.
  rewrite (H r' Hin), (H r (or_introl eq_refl)). apply Nat.eqb_refl.
Qed.

Lemma seed_add_nonneg word i : 0 <= word -> 0 <= i -> 0 <= seed_add wrap word i.
Proof.
  intros Hw Hi. unfold seed_add. destruct wrap; [|lia].
  apply Z.mod_pos_bound. lia.
Qed.

Lemma split_batches_positive q r workers : forall built,
  (forall k, 0 <= entropy k) -> Forall (fun i => 0 <= i) workers ->
  Forall (fun b => 0 < b.1 /\ 0 <= b.2) (split_batches wrap entropy q r workers built).
Proof.
  induction workers as [|i rest IH]; intros built He Hw; cbn [split_batches];
    [constructor|].
  inversion Hw as [|? ? Hi Hrest]; subst.
  destruct (Z.ltb_spec 0 (q + (if i <? r then 1 else 0))) as [Hs|Hs]; [|now apply IH].
  constructor; [|now apply IH]. cbn [fst snd]. split; [exact Hs|].
  apply seed_add_nonneg; auto.
Qed.

Section WellBehavedRun.

Hypothesis integers_ok : forall n g, 0 <= n ->
  exists l g', rng_integers 2 5 n g = Ok (l, g') /\
    length l = Z.to_nat n /\ Forall (fun k => 2 <= k < 5) l.
Hypothesis choice_ok : forall n g, 0 <= n <= 7 ->
  exists days g', rng_choice 7 n g = Ok (days, g') /\
    Forall (fun day => day < 7)%nat days.

Lemma run_trials_ok num_weeks base_power power_mult target duration count : forall g,
  0 <= num_weeks ->
  length power_mult = Z.to_nat (num_weeks * 7) ->
  length target = Z.to_nat (num_weeks * 7) ->
  length duration = Z.to_nat (num_weeks * 7) ->
  exists out,
    run_trials fexp fpow rng rng_integers rng_choice rng_uniform count num_weeks
      (num_weeks * 7) base_power power_mult target duration g = Ok out.
Proof using Type integers_ok choice_ok.
  induction count as [|count IH]; intros g Hw L1 L2 L3; cbn [run_trials]; [eauto|].
  destruct (run_single_ok fexp fpow rng rng_integers rng_choice rng_uniform integers_ok
              choice_ok num_weeks (num_weeks * 7) base_power power_mult target duration g)
    as [[[fatigue readiness] g1] E]; try lia.
  rewrite E. cbn [rbind].
  apply run_single_lengths in E as (Hd & Lf & Lr).
  rewrite !assign_row_same by assumption. cbn [rbind].
  destruct (IH g1 Hw L1 L2 L3) as [[[fs rs] g2] ->]. cbn [rbind]. eauto.
Qed.

Lemma fill_matrices_ok rows num_weeks base_power power_mult target duration g :
  0 <= rows -> 0 <= num_weeks ->
  length power_mult = Z.to_nat (num_weeks * 7) ->
  length target = Z.to_nat (num_weeks * 7) ->
  length duration = Z.to_nat (num_weeks * 7) ->
  exists out,
    fill_matrices fexp fpow rng rng_integers rng_choice rng_uniform rows num_weeks
      (num_weeks * 7) base_power power_mult target duration g = Ok out.
Proof using Type integers_ok choice_ok.
  intros Hr Hw L1 L2 L3. unfold fill_matrices.
  destruct (Z.ltb_spec rows 0); [lia|]. destruct (Z.ltb_spec (num_weeks * 7) 0); [lia|].
  cbn [orb].
  destruct (run_trials_ok num_weeks base_power power_mult target duration
              (Z.to_nat rows) g Hw L1 L2 L3) as [out ->].
  cbn [rmap]. eauto.
Qed.

(** X19.  With a generator that behaves as NumPy's, keyframes whose string
    positions are ASCII and resolve, week values that convert to [float64]
    and entropy words that are not negative, the run raises nothing, on
    the sequential path and on the parallel one. *)
Theorem monte_carlo_trials_returns template num_simulations num_weeks base_power
    num_workers week_defs :
  0 <= num_simulations -> 0 <= num_weeks ->
  (forall k, 0 <= entropy k) ->
  Forall ascii_position (default [] (template_weeks template)) ->
  interpolate_weeks (default [] (template_weeks template)) num_weeks
    (default (PInt DEFAULT_SESSION_DURATION) (template_default_duration template))
  = Ok week_defs ->
  Forall (fun wd => exists v, week_values convert_object wd = Ok v) week_defs ->
  exists out,
    monte_carlo_trials fexp fpow rng rng_integers rng_choice rng_uniform seeded_rng
      fresh_rng uninitialised convert_object cpu_count wrap entropy template
      num_simulations num_weeks base_power num_workers = Ok out.
Proof using Type integers_ok choice_ok.
  intros Hn Hw He _ Hweeks Hconv. unfold monte_carlo_trials.
  rewrite Hweeks. cbn [rbind].
  destruct (prepare_week_data_ok uninitialised convert_object week_defs num_weeks Hw Hconv)
    as [[[pm tr] du] P].
  rewrite P. cbn [rbind].
  apply prepare_week_data_lengths in P as (_ & L1 & L2 & L3).
  destruct (use_multiprocessing _ _) eqn:U.
  - unfold use_multiprocessing in U. apply andb_true_iff in U as [Hn' Hk].
    apply Z.leb_le in Hn'. apply Z.ltb_lt in Hk.
    set (W := default (Z.min cpu_count 8) num_workers) in *.
    set (run := fun b : Z * Z => run_batch_simulations _ _ _ _ _ _ _ _ _ _ _ _ _ _ _).
    assert (Forall (fun b => exists r, run b = Ok r)
              (make_batches wrap entropy num_simulations W)) as Hall.
    { eapply List.Forall_impl;
        [|apply split_batches_positive;
          [exact He|apply List.Forall_forall; intros i Hi; apply range_bounds in Hi; lia]].
      intros [size seed] [Hs Hseed]. cbn [fst snd] in *. unfold run.
      unfold run_batch_simulations, default_rng. cbn [fst snd].
      destruct (Z.ltb_spec seed 0); [lia|]. cbn [rbind].
      apply fill_matrices_ok; auto; lia. }
    destruct (pool_map_ok run _ Hall) as [results PM]. rewrite PM. cbn [rbind].
    pose proof (pool_map_Forall2 run _ _ PM) as F2. unfold run in F2.
    pose proof (stacked_shape _ _ _ _ _ _ _ _ F2) as (S1 & _ & R1 & R2).
    rewrite make_batches_sum in S1 by lia.
    assert (map fst results <> [] /\ map snd results <> []) as [N1 N2].
    { destruct results; [cbn in S1; lia|]. split; discriminate. }
    unfold vstack.
    destruct (map fst results) as [|b1 t1] eqn:E1; [congruence|].
    destruct (map snd results) as [|b2 t2] eqn:E2; [congruence|].
    rewrite (same_width_rows _ _ R1), (same_width_rows _ _ R2). cbn [rbind]. eauto.
  - destruct (fill_matrices_ok num_simulations num_weeks base_power pm tr du fresh_rng
                Hn Hw L1 L2 L3) as [[fs rs] ->].
    cbn [rbind]. eauto.
Qed.

End WellBehavedRun.

End RunFacts.

Lemma run_batch_simulations_shape_witness :
  exists fatigue_batch readiness_batch,
    run_batch_simulations Libm.exp_ref Libm.pow_ref unit least_integers first_days
      least_uniform (fun _ => tt) 2 1 7 (F64.lit 200 1) (replicate 7 (F64.lit 1 1))
      (replicate 7 (F64.lit 6 1)) (replicate 7 (F64.lit 15 1)) 42
    = Ok (fatigue_batch, readiness_batch) /\
    Z.of_nat (length fatigue_batch) = 2 /\
    Z.of_nat (length readiness_batch) = 2 /\
    Forall (fun row => length row = Z.to_nat 7) fatigue_batch /\
    Forall (fun row => length row = Z.to_nat 7) readiness_batch.
Proof.
  assert (match run_batch_simulations Libm.exp_ref Libm.pow_ref unit least_integers
                  first_days least_uniform (fun _ => tt) 2 1 7 (F64.lit 200 1)
                  (replicate 7 (F64.lit 1 1)) (replicate 7 (F64.lit 6 1))
                  (replicate 7 (F64.lit 15 1)) 42
          with Ok _ => True | Raise _ => False end) as Hok by (lazy; exact I).
  destruct (run_batch_simulations Libm.exp_ref Libm.pow_ref unit least_integers first_days
              least_uniform (fun _ => tt) 2 1 7 (F64.lit 200 1) (replicate 7 (F64.lit 1 1))
              (replicate 7 (F64.lit 6 1)) (replicate 7 (F64.lit 15 1)) 42)
    as [[fatigue_batch readiness_batch]|e] eqn:H; [|destruct Hok].
  exists fatigue_batch, readiness_batch. split; [reflexivity|].
  apply run_batch_simulations_shape in H. tauto.
Defined.

Lemma monte_carlo_trials_shape_witness :
  exists all_fatigue all_readiness planned_intensity planned_rpe,
    monte_carlo_trials Libm.exp_ref Libm.pow_ref unit least_integers first_days
      least_uniform (fun _ => tt) tt (fun _ _ => F64.nan) (fun _ => Raise ValueError) 4
      false (fun _ => 7)
      {| template_week_config := None; template_default_duration := None;
         template_weeks := None |} 2 1 (F64.lit 200 1) None
    = Ok (all_fatigue, all_readiness, planned_intensity, planned_rpe) /\
    Z.of_nat (length all_fatigue) = 2 /\ Z.of_nat (length all_readiness) = 2 /\
    Forall (fun row => length row = Z.to_nat (1 * 7)) all_fatigue /\
    Forall (fun row => length row = Z.to_nat (1 * 7)) all_readiness /\
    length planned_intensity = Z.to_nat (1 * 7) /\
    length planned_rpe = Z.to_nat (1 * 7).
Proof.
  assert (match monte_carlo_trials Libm.exp_ref Libm.pow_ref unit least_integers
                  first_days least_uniform (fun _ => tt) tt (fun _ _ => F64.nan)
                  (fun _ => Raise ValueError) 4 false (fun _ => 7)
                  {| template_week_config := None; template_default_duration := None;
                     template_weeks := None |} 2 1 (F64.lit 200 1) None
          with Ok _ => True | Raise _ => False end) as Hok by (lazy; exact I).
  destruct (monte_carlo_trials Libm.exp_ref Libm.pow_ref unit least_integers first_days
              least_uniform (fun _ => tt) tt (fun _ _ => F64.nan)
              (fun _ => Raise ValueError) 4 false (fun _ => 7)
              {| template_week_config := None; template_default_duration := None;
                 template_weeks := None |} 2 1 (F64.lit 200 1) None)
    as [[[[all_fatigue all_readiness] planned_intensity] planned_rpe]|e] eqn:H;
    [|destruct Hok].
  exists all_fatigue, all_readiness, planned_intensity, planned_rpe.
  split; [reflexivity|].
  apply monte_carlo_trials_shape in H. tauto.
Defined.

Lemma monte_carlo_trials_returns_witness :
  0 <= 1000 /\ 0 <= 2 /\
  Forall ascii_position [keyframe_at (PStr "50%") "Build"] /\
  interpolate_weeks [keyframe_at (PStr "50%") "Build"] 2 (PInt DEFAULT_SESSION_DURATION)
  = Ok [week_of_keyframe (PInt DEFAULT_SESSION_DURATION) 1
          (keyframe_at (PStr "50%") "Build");
        week_of_keyframe (PInt DEFAULT_SESSION_DURATION) 2
          (keyframe_at (PStr "50%") "Build")] /\
  exists out,
    monte_carlo_trials Libm.exp_ref Libm.pow_ref unit least_integers first_days
      least_uniform (fun _ => tt) tt (fun _ _ => F64.nan) (fun _ => Raise ValueError) 4
      true (fun k => Z.of_nat k)
      {| template_week_config := None; template_default_duration := None;
         template_weeks := Some [keyframe_at (PStr "50%") "Build"] |}
      1000 2 (F64.lit 200 1) (Some 4)
    = Ok out.
Proof.
  assert (Forall ascii_position [keyframe_at (PStr "50%") "Build"]) as Hascii
    by (constructor; [repeat constructor|constructor]).
  assert (interpolate_weeks [keyframe_at (PStr "50%") "Build"] 2
            (PInt DEFAULT_SESSION_DURATION)
          = Ok [week_of_keyframe (PInt DEFAULT_SESSION_DURATION) 1
                  (keyframe_at (PStr "50%") "Build");
                week_of_keyframe (PInt DEFAULT_SESSION_DURATION) 2
                  (keyframe_at (PStr "50%") "Build")]) as Hweeks
    by (vm_compute; reflexivity).
  split; [lia|]. split; [lia|]. split; [exact Hascii|]. split; [exact Hweeks|].
  apply (monte_carlo_trials_returns Libm.exp_ref Libm.pow_ref unit least_integers
           first_days least_uniform (fun _ => tt) tt (fun _ _ => F64.nan)
           (fun _ => Raise ValueError) 4 true (fun k => Z.of_nat k))
    with (week_defs := [week_of_keyframe (PInt DEFAULT_SESSION_DURATION) 1
                          (keyframe_at (PStr "50%") "Build");
                        week_of_keyframe (PInt DEFAULT_SESSION_DURATION) 2
                          (keyframe_at (PStr "50%") "Build")]).
  - intros n g H. apply least_integers_ok, H.
  - intros n g H. apply first_days_ok, H.
  - lia.
  - lia.
  - intros k. lia.
  - exact Hascii.
  - exact Hweeks.
  - constructor; [|constructor; [|constructor]]; eexists; vm_compute; reflexivity.
Defined.

(** * Which workers get a batch *)

Section BatchOrder.

Local Set Default Proof Using "Type".

Variable wrap : bool.
Variable entropy : nat -> Z.

Lemma split_batches_app q r l1 l2 : forall built,
  split_batches wrap entropy q r (l1 ++ l2) built =
  split_batches wrap entropy q r l1 built ++
  split_batches wrap entropy q r l2
    (built + length (split_batches wrap entropy q r l1 built)).
Proof.
  induction l1 as [|i rest IH]; intros built; cbn [split_batches app length].
  - now rewrite Nat.add_0_r.
  - destruct (0 <? _).
    + cbn [app length]. rewrite IH, Nat.add_succ_r. reflexivity.
    + apply IH.
Qed.

Lemma split_batches_kept q r len : forall lo,
  (forall i, (lo <= i < lo + len)%nat -> 0 < worker_size q r (Z.of_nat i)) ->
  split_batches wrap entropy q r (map Z.of_nat (seq lo len)) lo =
  map (fun i => (worker_size q r i, seed_add wrap (entropy (Z.to_nat i)) i))
    (map Z.of_nat (seq lo len)).
Proof.
  induction len as [|len IH]; intros lo Hk; [reflexivity|].
  cbn [seq map split_batches]. fold (worker_size q r (Z.of_nat lo)).
  destruct (Z.ltb_spec 0 (worker_size q r (Z.of_nat lo))) as [_|Hn].
  - rewrite Nat2Z.id. f_equal. apply IH. intros i Hi. apply Hk. lia.
  - specialize (Hk lo ltac:(lia)). lia.
Qed.

Lemma split_batches_dropped q r workers : forall built,
  Forall (fun i => worker_size q r i <= 0) workers ->
  split_batches wrap entropy q r workers built = [].
Proof.
  induction workers as [|i rest IH]; intros built Hd; [reflexivity|].
  inversion Hd as [|? ? Hi Hrest]; subst.
  cbn [split_batches]. fold (worker_size q r i).
  destruct (Z.ltb_spec 0 (worker_size q r i)); [lia|]. now apply IH.
Qed.

Lemma range_of_nat n : range 0 (Z.of_nat n) = map Z.of_nat (seq 0 n).
Proof.
  unfold range. rewrite Z.sub_0_r, Nat2Z.id. apply map_ext. intros i. lia.
Qed.

(** X20.  Empty batches are dropped at the end only: of [num_workers] workers
    the first [min(num_simulations, num_workers)] get a batch, worker [i]
    of them gets [num_simulations // num_workers] trials and one more when
    [i < num_simulations % num_workers], and its seed comes from the
    [i]-th seed sequence built plus [i]. *)
Theorem make_batches_workers num_simulations num_workers :
  0 <= num_simulations -> 0 < num_workers ->
  make_batches wrap entropy num_simulations num_workers =
  map (fun i => (worker_size (num_simulations / num_workers)
                   (num_simulations mod num_workers) i,
                 seed_add wrap (entropy (Z.to_nat i)) i))
    (range 0 (Z.min num_simulations num_workers)).
Proof.
  intros Hn Hw. unfold make_batches.
  pose proof (Z.div_mod num_simulations num_workers ltac:(lia)) as Hdm.
  pose proof (Z.mod_pos_bound num_simulations num_workers ltac:(lia)) as Hr.
  assert (0 <= num_simulations / num_workers) as Hq by (apply Z.div_pos; lia).
  set (q := num_simulations / num_workers) in *.
  set (r := num_simulations mod num_workers) in *.
  set (m := Z.to_nat (Z.min num_simulations num_workers)).
  replace (Z.min num_simulations num_workers) with (Z.of_nat m) by (unfold m; lia).
  replace num_workers with (Z.of_nat (m + (Z.to_nat num_workers - m))) at 1
    by (unfold m; lia).
  rewrite !range_of_nat, seq_app, map_app, split_batches_app.
  rewrite split_batches_kept.
  - rewrite split_batches_dropped; [apply app_nil_r|].
    apply List.Forall_forall. intros i Hi. apply in_map_iff in Hi as (k & <- & Hk).
    apply in_seq in Hk. unfold worker_size.
    assert (num_simulations < num_workers) as Hlt by (unfold m in Hk; lia).
    assert (q = 0) as -> by (apply Z.div_small; lia).
    assert (r = num_simulations) as Hr' by (apply Z.mod_small; lia).
    destruct (Z.ltb_spec (Z.of_nat k) r); [unfold m in Hk; lia|lia].
  - intros i Hi. unfold worker_size.
    destruct (Z.eq_dec q 0) as [Hq0|Hq0]; [|destruct (_ <? _); lia].
    assert (num_simulations < num_workers) as Hlt.
    { destruct (Z.lt_ge_cases num_simulations num_workers) as [|Hge]; [assumption|].
      assert (1 <= q); [|lia]. apply Z.div_le_lower_bound; lia. }
    assert (r = num_simulations) as Hr' by (apply Z.mod_small; lia).
    destruct (Z.ltb_spec (Z.of_nat i) r); [lia|unfold m in Hi; lia].
Qed.

End BatchOrder.

Lemma make_batches_workers_witness :
  0 <= 10 /\ 0 < 4 /\
  make_batches false (fun k => 100 * Z.of_nat k) 10 4
  = [(3, 0); (3, 101); (2, 202); (2, 303)].
Proof.
  split; [lia|]. split; [lia|].
  rewrite (make_batches_workers false (fun k => 100 * Z.of_nat k) 10 4)
    by lia.
  vm_compute. reflexivity.
Defined.

(** * The lengths a template is charted at *)

Lemma range_step_list_up start stop step w :
  0 < step ->
  In w (map (fun k => start + Z.of_nat k * step)
          (seq 0 (Z.to_nat (range_count start stop step)))) <->
  start <= w < stop /\ (w - start) mod step = 0.
Proof.
  intros Hs. unfold range_count.
  destruct (Z.ltb_spec 0 step); [|lia].
  rewrite in_map_iff. split.
  - intros (k & <- & Hk). apply in_seq in Hk.
    destruct (Z.ltb_spec start stop) as [Hlt|Hge]; [|simpl in Hk; lia].
    assert (Z.of_nat k <= (stop - start - 1) / step) as Hk' by lia.
    pose proof (Z.mul_div_le (stop - start - 1) step Hs) as Hd.
    assert (Z.of_nat k * step <= stop - start - 1) by nia.
    split; [nia|].
    replace (start + Z.of_nat k * step - start) with (Z.of_nat k * step) by lia.
    apply Z.mod_mul. lia.
  - intros [[Hlo Hhi] Hm].
    apply Z.mod_divide in Hm; [|lia]. destruct Hm as [k Hk].
    assert (0 <= k) by nia.
    exists (Z.to_nat k). split; [rewrite Z2Nat.id by lia; lia|].
    apply in_seq. destruct (Z.ltb_spec start stop); [|lia].
    assert (k <= (stop - start - 1) / step)
      by (apply Z.div_le_lower_bound; [lia|nia]).
    lia.
Qed.

Lemma range_step_list_down start stop step w :
  step < 0 ->
  In w (map (fun k => start + Z.of_nat k * step)
          (seq 0 (Z.to_nat (range_count start stop step)))) <->
  stop < w <= start /\ (start - w) mod (- step) = 0.
Proof.
  intros Hs. unfold range_count.
  destruct (Z.ltb_spec 0 step); [lia|].
  rewrite in_map_iff. split.
  - intros (k & <- & Hk). apply in_seq in Hk.
    destruct (Z.ltb_spec stop start) as [Hlt|Hge]; [|simpl in Hk; lia].
    assert (Z.of_nat k <= (start - stop - 1) / (- step)) as Hk' by lia.
    pose proof (Z.mul_div_le (start - stop - 1) (- step) ltac:(lia)) as Hd.
    assert (Z.of_nat k * (- step) <= start - stop - 1) by nia.
    split; [nia|].
    replace (start - (start + Z.of_nat k * step)) with (Z.of_nat k * (- step)) by lia.
    apply Z.mod_mul. lia.
  - intros [[Hlo Hhi] Hm].
    apply Z.mod_divide in Hm; [|lia]. destruct Hm as [k Hk].
    assert (0 <= k) by nia.
    exists (Z.to_nat k). split; [rewrite Z2Nat.id by lia; nia|].
    apply in_seq. destruct (Z.ltb_spec stop start); [|lia].
    assert (k <= (start - stop - 1) / (- step))
      by (apply Z.div_le_lower_bound; [lia|nia]).
    lia.
Qed.

(** X21.  A template of variable length is charted at the lengths from the
    least one up to the greatest one in steps; a step of zero makes the
    call raise, and a negative step counts downwards, which gives nothing
    unless the least length exceeds the greatest by two or more. *)
Theorem get_week_variants_variable template week_config :
  template_week_config template = Some week_config ->
  config_type week_config = Some "variable"%string ->
  let range_config := default no_range (config_range week_config) in
  let min_weeks := default 4 (range_min range_config) in
  let max_weeks := default 12 (range_max range_config) in
  let step := default 1 (range_step range_config) in
  match get_week_variants template with
  | Ok variants =>
      step <> 0 /\
      forall w, In w variants <->
        if 0 <? step
        then min_weeks <= w <= max_weeks /\ (w - min_weeks) mod step = 0
        else max_weeks + 1 < w <= min_weeks /\ (min_weeks - w) mod (- step) = 0
  | Raise e => e = ValueError /\ step = 0
  end.
Proof.
  intros Hc Ht range_config min_weeks max_weeks step.
  assert (get_week_variants template = range_step_list min_weeks (max_weeks + 1) step)
    as ->.
  { unfold get_week_variants. rewrite Hc.
    change (default no_config (Some week_config)) with week_config.
    unfold type_is. rewrite Ht. reflexivity. }
  clearbody min_weeks max_weeks step. unfold range_step_list.
  destruct (Z.eqb_spec step 0) as [H0|H0]; [auto|].
  split; [exact H0|]. intros w.
  destruct (Z.ltb_spec 0 step) as [Hp|Hn].
  - rewrite range_step_list_up by exact Hp. lia.
  - rewrite range_step_list_down by lia. reflexivity.
Qed.

Lemma get_week_variants_variable_witness :
  get_week_variants
    {| template_week_config :=
         Some {| config_type := Some "variable"%string; config_fixed := None;
                 config_range := Some {| range_min := Some 4; range_max := Some 16;
                                         range_step := Some 4 |} |};
       template_default_duration := None; template_weeks := None |}
  = Ok [4; 8; 12; 16] /\
  (In 12 [4; 8; 12; 16] <-> 4 <= 12 <= 16 /\ (12 - 4) mod 4 = 0).
Proof.
  split; [reflexivity|].
  pose proof (get_week_variants_variable
    {| template_week_config :=
         Some {| config_type := Some "variable"%string; config_fixed := None;
                 config_range := Some {| range_min := Some 4; range_max := Some 16;
                                         range_step := Some 4 |} |};
       template_default_duration := None; template_weeks := None |}
    _ eq_refl eq_refl) as H.
  cbv zeta in H. destruct H as [_ H]. exact (H 12).
Defined.

(** X22.  The length a program gets when none is asked for (or 0 is) against
    the lengths the template is charted at: it is among them for a template
    of fixed or unknown kind, and for one of variable kind exactly when the
    steps from the least length reach the middle of the range.  The two
    functions disagree on the greatest length when the template gives none
    (8 against 12); the middle stays within both. *)
Theorem program_weeks_among_variants template override_weeks :
  override_weeks = None \/ override_weeks = Some 0 ->
  let week_config := default no_config (template_week_config template) in
  let range_config := default no_range (config_range week_config) in
  let min_weeks := default 4 (range_min range_config) in
  let step := default 1 (range_step range_config) in
  (config_type week_config = Some "variable"%string ->
   min_weeks <= default 8 (range_max range_config) /\ 0 < step) ->
  exists variants,
    get_week_variants template = Ok variants /\
    (In (get_program_weeks template override_weeks) variants <->
     (config_type week_config = Some "variable"%string ->
      ((min_weeks + default 8 (range_max range_config)) / 2 - min_weeks) mod step = 0)).
Proof.
  intros Ho week_config range_config min_weeks step Hv.
  assert (get_program_weeks template override_weeks = get_program_weeks template None)
    as -> by (destruct Ho as [->| ->]; reflexivity).
  unfold get_week_variants, get_program_weeks, truthy, type_is.
  fold week_config. fold range_config. fold min_weeks. fold step.
  destruct (config_type week_config) as [t|] eqn:Ht;
    [|eexists; split; [reflexivity|split; [discriminate|now left]]].
  destruct (String.eqb_spec t "fixed") as [Hf|Hf];
    [eexists; split; [reflexivity|split; [subst t; discriminate|now left]]|].
  destruct (String.eqb_spec t "variable") as [->|Hn];
    [|eexists; split; [reflexivity|split; [congruence|now left]]].
  destruct (Hv eq_refl) as (Hle & Hs).
  unfold range_step_list. destruct (Z.eqb_spec step 0); [lia|].
  eexists. split; [reflexivity|].
  rewrite range_step_list_up by exact Hs.
  assert (default 8 (range_max range_config) <= default 12 (range_max range_config))
    by (destruct (range_max range_config); simpl; lia).
  pose proof (Z.div_mod (min_weeks + default 8 (range_max range_config)) 2 ltac:(lia)).
  pose proof (Z.mod_pos_bound (min_weeks + default 8 (range_max range_config)) 2
                ltac:(lia)).
  split; [intros [_ Hm] _; exact Hm|].
  intros Hm. split; [lia|]. apply Hm. reflexivity.
Qed.

Lemma program_weeks_among_variants_witness :
  (Some 0 = None \/ Some 0 = Some 0) /\
  4 <= 16 /\ 0 < 4 /\
  exists variants,
    get_week_variants
      {| template_week_config :=
           Some {| config_type := Some "variable"%string; config_fixed := None;
                   config_range := Some {| range_min := Some 4; range_max := Some 16;
                                           range_step := Some 4 |} |};
         template_default_duration := None; template_weeks := None |}
    = Ok variants /\
    (In (get_program_weeks
           {| template_week_config :=
                Some {| config_type := Some "variable"%string; config_fixed := None;
                        config_range := Some {| range_min := Some 4; range_max := Some 16;
                                                range_step := Some 4 |} |};
              template_default_duration := None; template_weeks := None |}
           (Some 0)) variants <->
     (Some "variable"%string = Some "variable"%string -> ((4 + 16) / 2 - 4) mod 4 = 0)).
Proof.
  split; [now right|]. split; [lia|]. split; [lia|].
  apply (program_weeks_among_variants
    {| template_week_config :=
         Some {| config_type := Some "variable"%string; config_fixed := None;
                 config_range := Some {| range_min := Some 4; range_max := Some 16;
                                         range_step := Some 4 |} |};
       template_default_duration := None; template_weeks := None |} (Some 0)).
  - now right.
  - intros _. simpl. lia.
Defined.

(** * File names *)

Lemma str_replace_In old new s c :
  In c (str_replace old new s) <-> (In c s /\ c <> old) \/ (In old s /\ In c new).
Proof.
  unfold str_replace. rewrite in_flat_map. split.
  - intros (x & Hx & Hc). destruct (Ascii.eqb_spec x old) as [->|Hne].
    + right. auto.
    + left. destruct Hc as [<-|[]]. auto.
  - intros [[Hc Hne]|[Ho Hc]].
    + exists c. split; [exact Hc|]. destruct (Ascii.eqb_spec c old); [contradiction|now left].
    + exists old. split; [exact Ho|]. now rewrite Ascii.eqb_refl.
Qed.

Lemma str_replace_absent old new s : ~ In old s -> str_replace old new s = s.
Proof.
  unfold str_replace. induction s as [|x s IH]; intros Hn; [reflexivity|].
  cbn [flat_map]. destruct (Ascii.eqb_spec x old) as [->|Hne].
  - exfalso. apply Hn. now left.
  - cbn [app]. f_equal. apply IH. intros H. apply Hn. now right.
Qed.

Lemma str_replace_length old new s :
  (length new <= 1)%nat -> (length (str_replace old new s) <= length s)%nat.
Proof.
  intros Hn. unfold str_replace. induction s as [|x s IH]; [reflexivity|].
  cbn [flat_map]. rewrite length_app. destruct (Ascii.eqb x old); cbn [length]; lia.
Qed.

Lemma lower_idempotent c : PyFloat.lower (PyFloat.lower c) = PyFloat.lower c.
Proof. destruct c as [[] [] [] [] [] [] [] []]; vm_compute; reflexivity. Qed.

Lemma lower_not_upper c :
  ~ 65 <= PyFloat.code (PyFloat.lower c) <= 90.
Proof. destruct c as [[] [] [] [] [] [] [] []]; vm_compute; intuition congruence. Qed.

Lemma lower_keeps c x :
  PyFloat.lower x = x -> PyFloat.lower c = x -> c <> x -> 65 <= PyFloat.code c <= 90.
Proof.
  unfold PyFloat.lower at 2.
  destruct (_ && _) eqn:E; [|congruence].
  intros _ _ _. apply andb_true_iff in E as [H1 H2].
  apply Z.leb_le in H1, H2. lia.
Qed.

Lemma sanitized_chars l c :
  In c (str_replace "/" ["-"%char]
          (str_replace ":" [] (str_replace " " ["_"%char] (str_lower l)))) ->
  c <> " "%char /\ c <> ":"%char /\ c <> "/"%char /\ PyFloat.lower c = c.
Proof.
  rewrite !str_replace_In. unfold str_lower. rewrite in_map_iff.
  intros [[[[[[(x & <- & _) H1]|[_ [<-|[]]]] H2]|[_ []]] H3]|[_ [<-|[]]]].
  all: repeat split; try assumption; try discriminate.
  apply lower_idempotent.
Qed.

(** X23.  The file name of a chart: it holds no space, colon, slash or capital
    letter, sanitising it again changes nothing, and it is no longer than
    the template name.  (Names are ASCII: on other characters [str.lower]
    does more than the model.) *)
Theorem sanitize_filename_safe name :
  Forall (fun c => PyFloat.code c < 128) (list_ascii_of_string name) ->
  (forall c, In c (list_ascii_of_string (sanitize_filename name)) ->
     c <> " "%char /\ c <> ":"%char /\ c <> "/"%char /\ ~ 65 <= PyFloat.code c <= 90) /\
  sanitize_filename (sanitize_filename name) = sanitize_filename name /\
  (length (list_ascii_of_string (sanitize_filename name))
   <= length (list_ascii_of_string name))%nat.
Proof.
  intros _. unfold sanitize_filename.
  rewrite !list_ascii_of_string_of_list_ascii.
  set (l := list_ascii_of_string name).
  set (out := str_replace "/" ["-"%char]
                (str_replace ":" [] (str_replace " " ["_"%char] (str_lower l)))).
  assert (forall c, In c out ->
            c <> " "%char /\ c <> ":"%char /\ c <> "/"%char /\ PyFloat.lower c = c) as Hout
    by (intros c; apply sanitized_chars).
  split; [|split].
  - intros c Hc. destruct (Hout c Hc) as (H1 & H2 & H3 & H4).
    repeat split; try assumption. rewrite <- H4. apply lower_not_upper.
  - f_equal.
    assert (str_lower out = out) as ->.
    { unfold str_lower. rewrite <- (map_id out) at 2. apply map_ext_in.
      intros c Hc. apply Hout, Hc. }
    rewrite (str_replace_absent " "%char) by (intros H; now apply Hout in H).
    rewrite (str_replace_absent ":"%char) by (intros H; now apply Hout in H).
    apply str_replace_absent. intros H. now apply Hout in H.
  - unfold out, str_lower.
    etransitivity; [apply str_replace_length; simpl; lia|].
    etransitivity; [apply str_replace_length; simpl; lia|].
    etransitivity; [apply str_replace_length; simpl; lia|].
    now rewrite length_map.
Qed.

Lemma sanitize_filename_safe_witness :
  Forall (fun c => PyFloat.code c < 128) (list_ascii_of_string "Fixed-Time Power Progression") /\
  sanitize_filename "Fixed-Time Power Progression" = "fixed-time_power_progression"%string /\
  sanitize_filename (sanitize_filename "Fixed-Time Power Progression")
  = sanitize_filename "Fixed-Time Power Progression".
Proof.
  assert (Forall (fun c => PyFloat.code c < 128) (list_ascii_of_string "Fixed-Time Power Progression"))
    as Hascii by (repeat constructor).
  split; [exact Hascii|]. split; [reflexivity|].
  apply (sanitize_filename_safe "Fixed-Time Power Progression" Hascii).
Defined.
